(** * Zeus: the document/editing engine, embedded and verified

    A shallow embedding of the engine of the Zeus visual layout editor
    (package [zeus]: [core/], [models/], [utils/], [widgets/registry.py]
    and the model-facing part of [ui/canvas.py], [ui/explorer.py],
    [ui/main_window.py] and [ui/palette.py]), followed by the properties
    its specification states about it and by further properties of the
    code.

    Python values that travel through documents are embedded as [pyval];
    mutable objects shared between the canvas and the command history live
    in a heap and are referred to by location; code that reads the clock,
    draws a uuid, mutates the shared state or raises runs in the monad [M];
    the one float computation of the engine, the division in
    [snap_to_grid], is carried out on binary64 numbers. *)

From Stdlib Require Import ZArith Lia String List Bool SpecFloat DecimalNat DecimalString.
From Stdlib Require Import Ascii HexadecimalString.
From stdpp Require Import base option list gmap strings.

Local Open Scope string_scope.
Set Warnings "-register-all".

(** ** Python values *)

Module Py.

(** The exceptions the embedded code can raise.  [OutsideModel] is not
    one of Python's: see the typed reads of document values below. *)
Inductive exn : Type :=
  | AttributeError
  | TypeError
  | KeyError
  | IndexError
  | ValueError
  | ZeroDivisionError
  | OverflowError
  | RuntimeError
  | OutsideModel.

(** The outcome of a call: a value, or a raised exception. *)
Inductive outcome (A : Type) : Type :=
  | Ok (a : A)
  | Raise (e : exn).
Arguments Ok {A} a.
Arguments Raise {A} e.

(** The values of documents: what [json.load] produces and [json.dump]
    accepts.  A finite binary64 number is kept as mantissa and exponent
    ([m * 2 ^ e]); no code of the engine computes with one.  A [dict] with
    string keys is kept in insertion order, as Python keeps it. *)
Inductive pyval : Type :=
  | PNone
  | PBool (b : bool)
  | PInt (n : Z)
  | PFloat (m e : Z)
  | PStr (s : string)
  | PList (l : list pyval)
  | PDict (d : list (string * pyval)).

Abbreviation dict := (list (string * pyval)).

(** [key in d] for a dict. *)
Fixpoint dict_contains (d : dict) (k : string) : bool :=
  match d with
  | [] => false
  | (k', _) :: d' => if String.eqb k k' then true else dict_contains d' k
  end.

(** [d.get(key)], [None] of Rocq standing for an absent key. *)
Fixpoint dict_get (d : dict) (k : string) : option pyval :=
  match d with
  | [] => None
  | (k', v) :: d' => if String.eqb k k' then Some v else dict_get d' k
  end.

(** [d[key] = value]: an existing key keeps its place, a new one goes last. *)
Fixpoint dict_set (d : dict) (k : string) (v : pyval) : dict :=
  match d with
  | [] => [(k, v)]
  | (k', v') :: d' =>
      if String.eqb k k' then (k', v) :: d' else (k', v') :: dict_set d' k v
  end.

(** [d.update(other)]: the items of [other] are set one by one, in order. *)
Definition dict_update (d other : dict) : dict :=
  fold_left (fun acc kv => dict_set acc (fst kv) (snd kv)) other d.

(** [d.keys()], in order. *)
Definition dict_keys (d : dict) : list string := map fst d.

(** [isinstance(v, dict)] and [isinstance(v, list)]. *)
Definition is_dict (v : pyval) : bool :=
  match v with PDict _ => true | _ => false end.
Definition is_list (v : pyval) : bool :=
  match v with PList _ => true | _ => false end.

(** [s in t] for two strings: [s] occurs in [t]. *)
Fixpoint is_substring (s t : string) : bool :=
  match t with
  | EmptyString => String.eqb s EmptyString
  | String _ t' => String.prefix s t || is_substring s t'
  end.

(** [key in v] for a string key and any value: [TypeError] on a value that
    is no container, key lookup on a dict, substring on a string, element
    test on a list. *)
Definition py_in (k : string) (v : pyval) : outcome bool :=
  match v with
  | PDict d => Ok (dict_contains d k)
  | PStr s => Ok (is_substring k s)
  | PList l =>
      Ok (existsb (fun x => match x with PStr s => String.eqb k s | _ => false end) l)
  | _ => Raise TypeError
  end.

(** [v[key]] for a string key: [KeyError] on a dict without it,
    [TypeError] on anything that is not a dict. *)
Definition py_getitem (v : pyval) (k : string) : outcome pyval :=
  match v with
  | PDict d => match dict_get d k with Some x => Ok x | None => Raise KeyError end
  | _ => Raise TypeError
  end.

(** [str(i)] for a natural number: its decimal digits. *)
Definition str_of_nat (n : nat) : string :=
  DecimalString.NilZero.string_of_uint (Nat.to_uint n).

End Py.
Export Py.

(** ** [zeus/utils/helpers.py] *)

Module Helpers.
Local Open Scope Z_scope.

(** The integer nearest to the quotient of [a] by [b <> 0], a tie going to
    the even neighbour.  [a / b] and [a mod b] are the floor division and
    its remainder, so [a mod b / b] is the fractional part of the quotient. *)
Definition round_div (a b : Z) : Z :=
  let q := a / b in
  let r := Z.abs (a mod b) in
  match 2 * r ?= Z.abs b with
  | Lt => q
  | Gt => q + 1
  | Eq => if Z.even q then q else q + 1
  end.

(** *** [a / b] on integers: a binary64 number

    Python's true division of two integers is the quotient rounded once,
    to the nearest binary64 number, ties to even.  A finite binary64
    number is kept here as a pair [(m, s)] that stands for [m / 2 ^ s]
    (for [m * 2 ^ (- s)] when [s] is negative), with [|m|] at most
    [2 ^ 53] and [s] at most 1074. *)

(** The quotient of [a] by [b], scaled by [2 ^ s]: rounded down, and
    rounded to nearest. *)
Definition scaled_floor (a b s : Z) : Z :=
  if 0 <=? s then (a * 2 ^ s) / b else a / (b * 2 ^ (- s)).

Definition scaled_round (a b s : Z) : Z :=
  if 0 <=? s then round_div (a * 2 ^ s) b else round_div a (b * 2 ^ (- s)).

(** The scale at which the quotient of two positive integers has 53
    significant bits, that is [2 ^ 52 <= scaled_floor a b s < 2 ^ 53]; the
    exponent of a binary64 number does not go below -1074. *)
Definition float_scale (a b : Z) : Z :=
  let s0 := 52 - (Z.log2 a - Z.log2 b) in
  Z.min (if scaled_floor a b s0 <? 2 ^ 52 then s0 + 1 else s0) 1074.

(** [a / b]. *)
Definition true_divide (a b : Z) : outcome (Z * Z) :=
  if b =? 0 then Raise ZeroDivisionError
  else if a =? 0 then Ok (0, 0)
  else
    let s := float_scale (Z.abs a) (Z.abs b) in
    let m := scaled_round a b s in
    if (s <? 0) && (2 ^ 1024 <=? Z.abs m * 2 ^ (- s)) then Raise OverflowError
    else Ok (m, s).

(** [round(f)] for the float [m / 2 ^ s]: the nearest integer, ties to
    even. *)
Definition py_round (f : Z * Z) : Z :=
  let (m, s) := f in
  if s <=? 0 then m * 2 ^ (- s) else round_div m (2 ^ s).

(** [snap_to_grid(value, grid_size)]:
    [round(value / grid_size) * grid_size]. *)
Definition snap_to_grid (value grid_size : Z) : outcome Z :=
  match true_divide value grid_size with
  | Ok f => Ok (py_round f * grid_size)
  | Raise e => Raise e
  end.

(** [rects_intersect]. *)
Definition rects_intersect (r1_x r1_y r1_w r1_h r2_x r2_y r2_w r2_h : Z) : bool :=
  (r1_x <? r2_x + r2_w) && (r1_x + r1_w >? r2_x) &&
  (r1_y <? r2_y + r2_h) && (r1_y + r1_h >? r2_y).

(** *** The division of the IEEE 754 specification

    [SFdiv] of the standard library, given the two integers as mantissas
    with exponent 0, rounds their exact quotient once. [same_float] tells
    whether it yields the number [true_divide] does. *)
Definition ieee_operand (a : Z) : spec_float :=
  if a =? 0 then S754_zero false
  else S754_finite (a <? 0) (Z.to_pos (Z.abs a)) 0.

Definition ieee_divide (a b : Z) : spec_float :=
  SFdiv 53 1024 (ieee_operand a) (ieee_operand b).

Definition same_float (r : outcome (Z * Z)) (f : spec_float) : bool :=
  match r, f with
  | Ok (m, s), S754_finite sign mf ef =>
      let n := if sign then Z.neg mf else Z.pos mf in
      if 0 <=? ef + s then n * 2 ^ (ef + s) =? m else n =? m * 2 ^ (- (ef + s))
  | Ok (m, _), S754_zero _ => m =? 0
  | Raise OverflowError, S754_infinity _ => true
  | _, _ => false
  end.

Definition agrees_with_ieee (ab : Z * Z) : bool :=
  let (a, b) := ab in
  if b =? 0 then
    match true_divide a b with Raise ZeroDivisionError => true | _ => false end
  else same_float (true_divide a b) (ieee_divide a b).

(** The coordinates from [lo] up, [n] of them, each over each of the grid
    sizes [gs]. *)
Fixpoint window (lo : Z) (n : nat) (gs : list Z) : list (Z * Z) :=
  match n with
  | O => []
  | S n' => map (fun g => (lo, g)) gs ++ window (lo + 1) n' gs
  end.

End Helpers.

(** A raise ends the rest of a block. *)
Definition obind {A B} (o : outcome A) (k : A -> outcome B) : outcome B :=
  match o with
  | Ok a => k a
  | Raise e => Raise e
  end.

Notation "'let?' x ':=' o 'in' k" := (obind o (fun x => k))
  (at level 10, x name, o at level 100, k at level 200).

(** ** State and exceptions

    A computation reads and writes a state of type [S] and returns a value
    or raises; what it wrote before raising stays written, as in Python. *)

Definition M (S A : Type) : Type := S -> outcome A * S.

Definition ret {S A} (a : A) : M S A := fun s => (Ok a, s).

Definition raise {S A} (e : exn) : M S A := fun s => (Raise e, s).

Definition bind {S A B} (m : M S A) (k : A -> M S B) : M S B :=
  fun s =>
    match m s with
    | (Ok a, s') => k a s'
    | (Raise e, s') => (Raise e, s')
    end.

(** A computation that cannot touch the state. *)
Definition pure_of {S A} (o : outcome A) : M S A := fun s => (o, s).

Definition get {S} : M S S := fun s => (Ok s, s).

Definition modify {S} (f : S -> S) : M S unit := fun s => (Ok tt, f s).

(** [try: body finally: handler]: the handler runs either way, and the
    outcome of the body stands unless the handler itself raises. *)
Definition try_finally {S A} (body : M S A) (handler : M S unit) : M S A :=
  fun s =>
    match body s with
    | (r, s') =>
        match handler s' with
        | (Ok _, s'') => (r, s'')
        | (Raise e, s'') => (Raise e, s'')
        end
    end.

(** A computation on a part [T] of the state, run on the whole [S]. *)
Definition zoom {S T A} (view : S -> T) (update : T -> S -> S) (m : M T A) : M S A :=
  fun s => match m (view s) with (r, t') => (r, update t' s) end.

Declare Scope py_scope.
Delimit Scope py_scope with py.
Notation "'let*' x ':=' m 'in' k" := (bind m (fun x => k))
  (at level 10, x name, m at level 100, k at level 200) : py_scope.
Notation "'do' m 'then' k" := (bind m (fun _ => k))
  (at level 10, m at level 100, k at level 200) : py_scope.
Local Open Scope py_scope.

(** *** Typed reads of document values

    The records below give each attribute the type its annotation states.
    Python checks none of them: it would store whatever the document
    holds.  Reading a value of another type into a typed field is where
    the embedding stops, and says so with [OutsideModel]. *)

Definition as_int (v : pyval) : outcome Z :=
  match v with PInt n => Ok n | _ => Raise OutsideModel end.

Definition as_str (v : pyval) : outcome string :=
  match v with PStr s => Ok s | _ => Raise OutsideModel end.

Definition as_opt_str (v : pyval) : outcome (option string) :=
  match v with
  | PNone => Ok None
  | PStr s => Ok (Some s)
  | _ => Raise OutsideModel
  end.

Definition as_dict (v : pyval) : outcome dict :=
  match v with PDict d => Ok d | _ => Raise OutsideModel end.

Fixpoint as_str_list_of (l : list pyval) : outcome (list string) :=
  match l with
  | [] => Ok []
  | v :: l' =>
      match as_str v, as_str_list_of l' with
      | Ok s, Ok r => Ok (s :: r)
      | Raise e, _ => Raise e
      | _, Raise e => Raise e
      end
  end.

Definition as_str_list (v : pyval) : outcome (list string) :=
  match v with PList l => as_str_list_of l | _ => Raise OutsideModel end.

Definition of_opt_str (o : option string) : pyval :=
  match o with None => PNone | Some s => PStr s end.

(** [data.get(key, default)] on a dict. *)
Definition dict_get_default (d : dict) (k : string) (dflt : pyval) : pyval :=
  match dict_get d k with Some v => v | None => dflt end.

(** [data.get(key, default)] on any value: only a dict has [get]. *)
Definition py_get (v : pyval) (k : string) (dflt : pyval) : outcome pyval :=
  match v with
  | PDict d => Ok (dict_get_default d k dflt)
  | _ => Raise AttributeError
  end.

(** The items a [for] loop or a comprehension draws from a value. *)
Definition py_iter (v : pyval) : outcome (list pyval) :=
  match v with
  | PList l => Ok l
  | PDict d => Ok (map (fun kv => PStr (fst kv)) d)
  | PStr s => Ok (map (fun c => PStr (String c EmptyString)) (list_ascii_of_string s))
  | _ => Raise TypeError
  end.

(** ** The clock and the uuid source *)

Module Env.

(** [uuid_drawn]: how many uuids [uuid4()] has handed out;
    [clock_reads]: how many times [datetime.now()] was read. *)
Record t : Type := mk {
  uuid_drawn : nat;
  clock_reads : nat
}.

(** The text of the [n]-th uuid.  [uuid4()] draws 122 random bits; the
    embedding numbers the draws and gives each a text that determines its
    number, which is uuid4 without its (negligible) chance of a collision. *)
Definition uuid_text (n : nat) : string := "uuid4-" ++ str_of_nat n.

(** The text of the [n]-th reading of the clock. *)
Definition clock_text (n : nat) : string := "time-" ++ str_of_nat n.

(** [str(uuid4())]. *)
Definition uuid4_str : M t string :=
  fun e => (Ok (uuid_text (uuid_drawn e)), mk (S (uuid_drawn e)) (clock_reads e)).

(** [datetime.now().isoformat()]. *)
Definition now_isoformat : M t string :=
  fun e => (Ok (clock_text (clock_reads e)), mk (uuid_drawn e) (S (clock_reads e))).

End Env.

(** ** [zeus/core/component.py] *)

Module ComponentProperty.
Record t : Type := mk {
  name : string;
  display_name : string;
  property_type : string;
  default_value : pyval;
  description : string;
  options : list string
}.
End ComponentProperty.

Module ComponentEvent.
Record t : Type := mk {
  name : string;
  display_name : string;
  description : string
}.
End ComponentEvent.

(** What a subclass of [BaseComponent] declares: its metadata, the default
    size [create_component] looks up with [getattr] (absent when the class
    declares none), and the lists its [get_properties] and [get_events]
    return. *)
Module ComponentClass.
Record t : Type := mk {
  component_type : string;
  display_name : string;
  category : string;
  icon : string;
  description : string;
  default_width : option Z;
  default_height : option Z;
  get_properties : list ComponentProperty.t;
  get_events : list ComponentEvent.t
}.
End ComponentClass.

Module BaseComponent.
Local Open Scope Z_scope.

(** An instance.  [cls] is its class; an event handler, a callable, is
    kept as a number that names it. *)
Record t : Type := mk {
  cls : ComponentClass.t;
  id : string;
  x : Z;
  y : Z;
  width : Z;
  height : Z;
  parent_id : option string;
  children : list string;
  _properties : dict;
  _event_handlers : list (string * list nat)
}.

Definition set_id (v : string) (c : t) : t :=
  mk (cls c) v (x c) (y c) (width c) (height c) (parent_id c) (children c)
     (_properties c) (_event_handlers c).
Definition set_x (v : Z) (c : t) : t :=
  mk (cls c) (id c) v (y c) (width c) (height c) (parent_id c) (children c)
     (_properties c) (_event_handlers c).
Definition set_y (v : Z) (c : t) : t :=
  mk (cls c) (id c) (x c) v (width c) (height c) (parent_id c) (children c)
     (_properties c) (_event_handlers c).
Definition set_width (v : Z) (c : t) : t :=
  mk (cls c) (id c) (x c) (y c) v (height c) (parent_id c) (children c)
     (_properties c) (_event_handlers c).
Definition set_height (v : Z) (c : t) : t :=
  mk (cls c) (id c) (x c) (y c) (width c) v (parent_id c) (children c)
     (_properties c) (_event_handlers c).
Definition set_parent_id (v : option string) (c : t) : t :=
  mk (cls c) (id c) (x c) (y c) (width c) (height c) v (children c)
     (_properties c) (_event_handlers c).
Definition set_children (v : list string) (c : t) : t :=
  mk (cls c) (id c) (x c) (y c) (width c) (height c) (parent_id c) v
     (_properties c) (_event_handlers c).
Definition set_properties (v : dict) (c : t) : t :=
  mk (cls c) (id c) (x c) (y c) (width c) (height c) (parent_id c) (children c)
     v (_event_handlers c).

(** The loop of [__init__] over [get_properties()]:
    [self._properties[prop.name] = prop.default_value]. *)
Definition default_properties (props : list ComponentProperty.t) : dict :=
  fold_left
    (fun acc p => dict_set acc (ComponentProperty.name p) (ComponentProperty.default_value p))
    props [].

(** [cls(x=..., y=..., width=..., height=...)]. *)
Definition __init__ (k : ComponentClass.t) (x y width height : Z) : M Env.t t :=
  let* id := Env.uuid4_str in
  ret (mk k id x y width height None [] 
          (default_properties (ComponentClass.get_properties k)) []).

(** [get_property]: [self._properties.get(name)], [None] when absent. *)
Definition get_property (c : t) (name : string) : pyval :=
  dict_get_default (_properties c) name PNone.

(** [set_property]: [self._properties[name] = value]. *)
Definition set_property (name : string) (value : pyval) (c : t) : t :=
  set_properties (dict_set (_properties c) name value) c.

(** [to_dict]. *)
Definition to_dict (c : t) : dict :=
  [ ("id", PStr (id c));
    ("type", PStr (ComponentClass.component_type (cls c)));
    ("x", PInt (x c));
    ("y", PInt (y c));
    ("width", PInt (width c));
    ("height", PInt (height c));
    ("parent_id", of_opt_str (parent_id c));
    ("children", PList (map PStr (children c)));
    ("properties", PDict (_properties c)) ].

(** [from_dict], a class method: [k] is the class it is called on. *)
Definition from_dict (k : ComponentClass.t) (data : dict) : M Env.t t :=
  let* x := pure_of (as_int (dict_get_default data "x" (PInt 0))) in
  let* y := pure_of (as_int (dict_get_default data "y" (PInt 0))) in
  let* width := pure_of (as_int (dict_get_default data "width" (PInt 100))) in
  let* height := pure_of (as_int (dict_get_default data "height" (PInt 50))) in
  let* component := __init__ k x y width height in
  let* id := pure_of (as_str (dict_get_default data "id" (PStr (id component)))) in
  let* parent_id := pure_of (as_opt_str (dict_get_default data "parent_id" PNone)) in
  let* children := pure_of (as_str_list (dict_get_default data "children" (PList []))) in
  let* properties := pure_of (as_dict (dict_get_default data "properties" (PDict []))) in
  ret (set_properties (dict_update (_properties component) properties)
        (set_children children (set_parent_id parent_id (set_id id component)))).

End BaseComponent.

(** ** [zeus/widgets/]: the registered classes *)

Module Widgets.
Local Open Scope Z_scope.

Definition prop (name display_name property_type : string) (default_value : pyval)
    (description : string) : ComponentProperty.t :=
  ComponentProperty.mk name display_name property_type default_value description [].

Definition enum (name display_name : string) (default_value : pyval)
    (description : string) (options : list string) : ComponentProperty.t :=
  ComponentProperty.mk name display_name "enum" default_value description options.

Definition ButtonComponent : ComponentClass.t :=
  ComponentClass.mk "button" "Button" "Form Controls" "button.png"
    "A clickable button that triggers actions" (Some 120) (Some 40)
    [ prop "text" "Text" "string" (PStr "Button") "The text displayed on the button";
      prop "enabled" "Enabled" "bool" (PBool true) "Whether the button is interactive";
      enum "variant" "Variant" (PStr "primary") "Button style variant"
        ["primary"; "secondary"; "outline"; "text"];
      prop "background_color" "Background" "color" (PStr "#0e639c") "Button background color";
      prop "text_color" "Text Color" "color" (PStr "#ffffff") "Button text color" ]
    [ ComponentEvent.mk "onClick" "On Click" "Triggered when the button is clicked";
      ComponentEvent.mk "onHover" "On Hover"
        "Triggered when the mouse hovers over the button" ].

Definition LabelComponent : ComponentClass.t :=
  ComponentClass.mk "label" "Label" "Form Controls" "label.png"
    "A text label for displaying static text" (Some 100) (Some 30)
    [ prop "text" "Text" "string" (PStr "Label") "The text content of the label";
      prop "font_size" "Font Size" "int" (PInt 14) "Font size in pixels";
      prop "text_color" "Text Color" "color" (PStr "#cccccc") "Text color";
      enum "alignment" "Alignment" (PStr "left") "Text alignment"
        ["left"; "center"; "right"];
      prop "bold" "Bold" "bool" (PBool false) "Whether the text is bold" ]
    [].

Definition TextInputComponent : ComponentClass.t :=
  ComponentClass.mk "text_input" "Text Input" "Form Controls" "input.png"
    "A single-line text input field" (Some 200) (Some 36)
    [ prop "placeholder" "Placeholder" "string" (PStr "Enter text...")
        "Placeholder text when empty";
      prop "value" "Value" "string" (PStr "") "The current text value";
      prop "enabled" "Enabled" "bool" (PBool true) "Whether the input is editable";
      prop "password" "Password Mode" "bool" (PBool false) "Hide input as password";
      prop "max_length" "Max Length" "int" (PInt 100) "Maximum character length";
      prop "background_color" "Background" "color" (PStr "#3c3c3c") "Input background color";
      prop "text_color" "Text Color" "color" (PStr "#cccccc") "Input text color" ]
    [ ComponentEvent.mk "onChange" "On Change" "Triggered when the text changes";
      ComponentEvent.mk "onSubmit" "On Submit" "Triggered when Enter is pressed" ].

Definition CheckboxComponent : ComponentClass.t :=
  ComponentClass.mk "checkbox" "Checkbox" "Form Controls" "checkbox.png"
    "A checkbox for boolean selections" (Some 150) (Some 30)
    [ prop "label" "Label" "string" (PStr "Checkbox") "The label text next to the checkbox";
      prop "checked" "Checked" "bool" (PBool false) "Whether the checkbox is checked";
      prop "enabled" "Enabled" "bool" (PBool true) "Whether the checkbox is interactive";
      prop "text_color" "Text Color" "color" (PStr "#cccccc") "Label text color" ]
    [ ComponentEvent.mk "onChange" "On Change"
        "Triggered when the checkbox state changes" ].

Definition ContainerComponent : ComponentClass.t :=
  ComponentClass.mk "container" "Container" "Layout" "container.png"
    "A container for grouping and organizing components" (Some 300) (Some 200)
    [ prop "background_color" "Background" "color" (PStr "#2d2d2d")
        "Container background color";
      prop "border_width" "Border Width" "int" (PInt 1) "Border width in pixels";
      prop "border_color" "Border Color" "color" (PStr "#3c3c3c") "Border color";
      prop "border_radius" "Border Radius" "int" (PInt 4) "Border corner radius";
      prop "padding" "Padding" "int" (PInt 10) "Inner padding in pixels";
      enum "layout" "Layout" (PStr "vertical") "Child layout direction"
        ["vertical"; "horizontal"; "none"] ]
    [].

Definition ImageComponent : ComponentClass.t :=
  ComponentClass.mk "image" "Image" "Media" "image.png"
    "Displays an image from file or URL" (Some 200) (Some 150)
    [ prop "source" "Source" "string" (PStr "") "Image file path or URL";
      prop "alt_text" "Alt Text" "string" (PStr "Image")
        "Alternative text for accessibility";
      enum "fit" "Fit" (PStr "contain") "How the image fits in the container"
        ["contain"; "cover"; "fill"; "none"];
      prop "border_radius" "Border Radius" "int" (PInt 0)
        "Corner radius for rounded images" ]
    [].

End Widgets.

(** ** [zeus/widgets/registry.py] *)

Module Registry.
Local Open Scope Z_scope.

(** [register_component]: [COMPONENT_REGISTRY[cls.component_type] = cls]. *)
Definition register_component (component_class : ComponentClass.t)
    (registry : gmap string ComponentClass.t) : gmap string ComponentClass.t :=
  <[ComponentClass.component_type component_class := component_class]> registry.

(** The registry once [zeus.widgets] is imported: its [__init__] imports
    the six modules in this order, and each import runs the decorator. *)
Definition COMPONENT_REGISTRY : gmap string ComponentClass.t :=
  register_component Widgets.ImageComponent
    (register_component Widgets.ContainerComponent
      (register_component Widgets.CheckboxComponent
        (register_component Widgets.TextInputComponent
          (register_component Widgets.LabelComponent
            (register_component Widgets.ButtonComponent ∅))))).

(** [create_component]; [width] and [height] are [None] when not given,
    and so is the result when the type is not registered. *)
Definition create_component (registry : gmap string ComponentClass.t)
    (component_type : string) (x y : Z) (width height : option Z)
    : M Env.t (option BaseComponent.t) :=
  match registry !! component_type with
  | None => ret None
  | Some component_class =>
      let width :=
        match width with
        | Some w => w
        | None => default 100 (ComponentClass.default_width component_class)
        end in
      let height :=
        match height with
        | Some h => h
        | None => default 40 (ComponentClass.default_height component_class)
        end in
      let* component := BaseComponent.__init__ component_class x y width height in
      ret (Some component)
  end.

(** [get_component_class]. *)
Definition get_component_class (registry : gmap string ComponentClass.t)
    (component_type : string) : option ComponentClass.t :=
  registry !! component_type.

End Registry.

(** ** [zeus/core/project.py] *)

Module Page.
Local Open Scope Z_scope.

Record t : Type := mk {
  id : string;
  name : string;
  components : list pyval;
  width : Z;
  height : Z
}.

(** [Page(id=..., name=...)], the other fields at their defaults. *)
Definition new (id name : string) : t := mk id name [] 800 600.

Definition to_dict (p : t) : dict :=
  [ ("id", PStr (id p));
    ("name", PStr (name p));
    ("components", PList (components p));
    ("width", PInt (width p));
    ("height", PInt (height p)) ].

(** [from_dict]: [data["id"]] and [data["name"]] must be there. *)
Definition from_dict (data : pyval) : outcome t :=
  let? vid := py_getitem data "id" in
  let? id := as_str vid in
  let? vname := py_getitem data "name" in
  let? name := as_str vname in
  let? vcomponents := py_get data "components" (PList []) in
  let? components :=
    match vcomponents with PList l => Ok l | _ => Raise OutsideModel end in
  let? vwidth := py_get data "width" (PInt 800) in
  let? width := as_int vwidth in
  let? vheight := py_get data "height" (PInt 600) in
  let? height := as_int vheight in
  Ok (mk id name components width height).

End Page.

Module Project.

Record t : Type := mk {
  name : string;
  description : string;
  version : string;
  created_at : string;
  modified_at : string;
  pages : list Page.t;
  assets : list string;
  settings : dict;
  file_path : option string
}.

Definition set_pages (v : list Page.t) (p : t) : t :=
  mk (name p) (description p) (version p) (created_at p) (modified_at p) v
     (assets p) (settings p) (file_path p).
Definition set_modified_at (v : string) (p : t) : t :=
  mk (name p) (description p) (version p) (created_at p) v (pages p)
     (assets p) (settings p) (file_path p).

(** [__post_init__]: "Ensure there's at least one page". *)
Definition __post_init__ (p : t) : M Env.t t :=
  match pages p with
  | [] =>
      let* id := Env.uuid4_str in
      ret (set_pages (pages p ++ [Page.new id "Main Page"]) p)
  | _ :: _ => ret p
  end.

(** The constructor the dataclass generates, every field given, followed
    by [__post_init__]. *)
Definition __init__ (name description version created_at modified_at : string)
    (pages : list Page.t) (assets : list string) (settings : dict)
    (file_path : option string) : M Env.t t :=
  __post_init__
    (mk name description version created_at modified_at pages assets settings file_path).

(** [create_new(name)], that is [cls(name=name)]: the timestamps come from
    their default factories, in the order of the fields. *)
Definition create_new (name : string) : M Env.t t :=
  let* created_at := Env.now_isoformat in
  let* modified_at := Env.now_isoformat in
  __init__ name "" "1.0.0" created_at modified_at [] [] [] None.

(** [mark_modified]. *)
Definition mark_modified (p : t) : M Env.t t :=
  let* now := Env.now_isoformat in
  ret (set_modified_at now p).

(** [add_page]: the new page, and the project with it. *)
Definition add_page (name : string) (p : t) : M Env.t (Page.t * t) :=
  let* id := Env.uuid4_str in
  let page := Page.new id name in
  let* p' := mark_modified (set_pages (pages p ++ [page]) p) in
  ret (page, p').

(** The loop of [remove_page]: the pages without the first one whose id
    is [page_id], or nothing when no page has it. *)
Fixpoint pop_first (page_id : string) (pages : list Page.t) : option (list Page.t) :=
  match pages with
  | [] => None
  | page :: rest =>
      if String.eqb (Page.id page) page_id then Some rest
      else option_map (cons page) (pop_first page_id rest)
  end.

(** [remove_page]: what it returns, and the project after the call. *)
Definition remove_page (page_id : string) (p : t) : M Env.t (bool * t) :=
  match pop_first page_id (pages p) with
  | Some pages' =>
      let* p' := mark_modified (set_pages pages' p) in
      ret (true, p')
  | None => ret (false, p)
  end.

(** [get_page]. *)
Fixpoint find_page (page_id : string) (pages : list Page.t) : option Page.t :=
  match pages with
  | [] => None
  | page :: rest =>
      if String.eqb (Page.id page) page_id then Some page else find_page page_id rest
  end.

Definition get_page (page_id : string) (p : t) : option Page.t :=
  find_page page_id (pages p).

(** [to_dict]. *)
Definition to_dict (p : t) : dict :=
  [ ("name", PStr (name p));
    ("description", PStr (description p));
    ("version", PStr (version p));
    ("created_at", PStr (created_at p));
    ("modified_at", PStr (modified_at p));
    ("pages", PList (map (fun page => PDict (Page.to_dict page)) (pages p)));
    ("assets", PList (map PStr (assets p)));
    ("settings", PDict (settings p)) ].

(** [[Page.from_dict(p) for p in items]]: the first raise ends it. *)
Fixpoint pages_from (items : list pyval) : outcome (list Page.t) :=
  match items with
  | [] => Ok []
  | item :: rest =>
      let? page := Page.from_dict item in
      let? pages := pages_from rest in
      Ok (page :: pages)
  end.

(** [from_dict].  The defaults of [created_at] and [modified_at] are
    arguments of [data.get], so the clock is read for each of them whether
    or not the key is there. *)
Definition from_dict (data : pyval) (file_path : option string) : M Env.t t :=
  let* vpages := pure_of (py_get data "pages" (PList [])) in
  let* items := pure_of (py_iter vpages) in
  let* pages := pure_of (pages_from items) in
  let* vname := pure_of (py_get data "name" (PStr "Untitled Project")) in
  let* name := pure_of (as_str vname) in
  let* vdescription := pure_of (py_get data "description" (PStr "")) in
  let* description := pure_of (as_str vdescription) in
  let* vversion := pure_of (py_get data "version" (PStr "1.0.0")) in
  let* version := pure_of (as_str vversion) in
  let* now1 := Env.now_isoformat in
  let* vcreated_at := pure_of (py_get data "created_at" (PStr now1)) in
  let* created_at := pure_of (as_str vcreated_at) in
  let* now2 := Env.now_isoformat in
  let* vmodified_at := pure_of (py_get data "modified_at" (PStr now2)) in
  let* modified_at := pure_of (as_str vmodified_at) in
  let* vassets := pure_of (py_get data "assets" (PList [])) in
  let* assets := pure_of (as_str_list vassets) in
  let* vsettings := pure_of (py_get data "settings" (PDict [])) in
  let* settings := pure_of (as_dict vsettings) in
  __init__ name description version created_at modified_at pages assets settings file_path.

End Project.

(** ** [zeus/models/schema.py] *)

Module Schema.

(** The loop of [validate_project] over [enumerate(data["pages"])]. *)
Fixpoint validate_pages (i : nat) (pages : list pyval) : outcome (bool * option string) :=
  match pages with
  | [] => Ok (true, None)
  | page :: rest =>
      if negb (is_dict page) then
        Ok (false, Some ("Page " ++ str_of_nat i ++ " must be a dictionary"))
      else
        let? has_id := py_in "id" page in
        if negb has_id then
          Ok (false, Some ("Page " ++ str_of_nat i ++ " must have an id"))
        else
          let? has_name := py_in "name" page in
          if negb has_name then
            Ok (false, Some ("Page " ++ str_of_nat i ++ " must have a name"))
          else validate_pages (S i) rest
  end.

(** [validate_project]: the pair [(is_valid, error_message)].  Each test
    is written with the operation the source uses, which raises on a value
    it does not apply to. *)
Definition validate_project (data : pyval) : outcome (bool * option string) :=
  if negb (is_dict data) then Ok (false, Some "Project must be a dictionary")
  else
    let? has_name := py_in "name" data in
    if negb has_name then Ok (false, Some "Project must have a name")
    else
      let? has_version := py_in "version" data in
      if negb has_version then Ok (false, Some "Project must have a version")
      else
        let? has_pages := py_in "pages" data in
        let? pages_bad :=
          if negb has_pages then Ok true
          else
            let? pages := py_getitem data "pages" in
            Ok (negb (is_list pages)) in
        if (pages_bad : bool) then Ok (false, Some "Project must have a pages array")
        else
          let? pages := py_getitem data "pages" in
          let? items := py_iter pages in
          validate_pages 0 items.

(** *** The validator as the specification words it

    The checks in their order: the document is a structured object; it
    has [name]; it has [version]; it has a [pages] list; every page is an
    object with [id] and [name].  [first_failure] is the reason of the
    first check that fails, if one does. *)

Definition page_failure (i : nat) (page : pyval) : option string :=
  match page with
  | PDict d =>
      if negb (dict_contains d "id") then
        Some ("Page " ++ str_of_nat i ++ " must have an id")
      else if negb (dict_contains d "name") then
        Some ("Page " ++ str_of_nat i ++ " must have a name")
      else None
  | _ => Some ("Page " ++ str_of_nat i ++ " must be a dictionary")
  end.

Fixpoint pages_failure (i : nat) (pages : list pyval) : option string :=
  match pages with
  | [] => None
  | page :: rest =>
      match page_failure i page with
      | Some reason => Some reason
      | None => pages_failure (S i) rest
      end
  end.

Definition first_failure (document : pyval) : option string :=
  match document with
  | PDict d =>
      if negb (dict_contains d "name") then Some "Project must have a name"
      else if negb (dict_contains d "version") then Some "Project must have a version"
      else
        match dict_get d "pages" with
        | Some (PList pages) => pages_failure 0 pages
        | _ => Some "Project must have a pages array"
        end
  | _ => Some "Project must be a dictionary"
  end.

End Schema.

(** ** [zeus/core/state.py] *)

Module SelectionState.

Record t : Type := mk { selected_ids : list string }.

Definition clear (s : t) : t := mk [].

Definition select (component_id : string) (s : t) : t := mk [component_id].

Definition is_selected (component_id : string) (s : t) : bool :=
  existsb (String.eqb component_id) (selected_ids s).

Definition add_to_selection (component_id : string) (s : t) : t :=
  if is_selected component_id s then s
  else mk (selected_ids s ++ [component_id]).

(** [list.remove(x)]: the first occurrence goes. *)
Fixpoint list_remove (x : string) (l : list string) : list string :=
  match l with
  | [] => []
  | y :: l' => if String.eqb x y then l' else y :: list_remove x l'
  end.

Definition remove_from_selection (component_id : string) (s : t) : t :=
  if is_selected component_id s then mk (list_remove component_id (selected_ids s))
  else s.

Definition has_selection (s : t) : bool := Nat.ltb 0 (length (selected_ids s)).

Definition is_multi_select (s : t) : bool := Nat.ltb 1 (length (selected_ids s)).

End SelectionState.

(** ** The editor's objects

    One [AppState] (a singleton), one [CanvasArea], and the component
    objects that wrappers and commands refer to.  A component object has a
    location in [heap]; two references to one object are one location.
    The command history is kept apart (see [CommandStack]), since its
    commands are computations on this state.  Listeners subscribed with
    [subscribe] are presentation code and are not run; Qt widgets are
    reduced to what the model reads from them. *)

Module ComponentWrapper.
Record t : Type := mk {
  component : nat;
  _is_selected : bool
}.
Definition set_selected (selected : bool) (w : t) : t := mk (component w) selected.
End ComponentWrapper.

Module World.
Local Open Scope Z_scope.

Record t : Type := mk {
  env : Env.t;
  heap : gmap nat BaseComponent.t;
  (* AppState *)
  _project : option Project.t;
  _current_page_id : option string;
  _selection : SelectionState.t;
  _grid_snap : bool;
  _grid_size : Z;
  (* CanvasArea *)
  _components : gmap string ComponentWrapper.t
}.

Definition set_env (v : Env.t) (w : t) : t :=
  mk v (heap w) (_project w) (_current_page_id w) (_selection w)
     (_grid_snap w) (_grid_size w) (_components w).
Definition set_heap (v : gmap nat BaseComponent.t) (w : t) : t :=
  mk (env w) v (_project w) (_current_page_id w) (_selection w)
     (_grid_snap w) (_grid_size w) (_components w).
Definition set_project (v : option Project.t) (w : t) : t :=
  mk (env w) (heap w) v (_current_page_id w) (_selection w)
     (_grid_snap w) (_grid_size w) (_components w).
Definition set_current_page_id (v : option string) (w : t) : t :=
  mk (env w) (heap w) (_project w) v (_selection w)
     (_grid_snap w) (_grid_size w) (_components w).
Definition set_selection (v : SelectionState.t) (w : t) : t :=
  mk (env w) (heap w) (_project w) (_current_page_id w) v
     (_grid_snap w) (_grid_size w) (_components w).
Definition set_grid_snap (v : bool) (w : t) : t :=
  mk (env w) (heap w) (_project w) (_current_page_id w) (_selection w)
     v (_grid_size w) (_components w).
Definition set_grid_size (v : Z) (w : t) : t :=
  mk (env w) (heap w) (_project w) (_current_page_id w) (_selection w)
     (_grid_snap w) v (_components w).
Definition set_components (v : gmap string ComponentWrapper.t) (w : t) : t :=
  mk (env w) (heap w) (_project w) (_current_page_id w) (_selection w)
     (_grid_snap w) (_grid_size w) v.

(** The state [AppState()] and an empty canvas start from. *)
Definition initial : t :=
  mk (Env.mk 0 0) ∅ None None (SelectionState.mk []) true 10 ∅.

(** A computation on the clock and uuid source, run in the editor. *)
Definition with_env {A} (m : M Env.t A) : M t A := zoom env set_env m.

(** A new object: its location. *)
Definition alloc (c : BaseComponent.t) : M t nat :=
  fun w =>
    let l := fresh (dom (heap w)) in
    (Ok l, set_heap (<[l := c]> (heap w)) w).

(** Reading an attribute of the object a reference leads to.  A reference
    that leads to no component stands for a value, [None] say, without the
    attribute. *)
Definition read (l : nat) : M t BaseComponent.t :=
  fun w =>
    match heap w !! l with
    | Some c => (Ok c, w)
    | None => (Raise AttributeError, w)
    end.

(** Assigning to an attribute, or calling a method that mutates. *)
Definition update (l : nat) (f : BaseComponent.t -> BaseComponent.t) : M t unit :=
  fun w =>
    match heap w !! l with
    | Some c => (Ok tt, set_heap (<[l := f c]> (heap w)) w)
    | None => (Raise AttributeError, w)
    end.

End World.

Module AppState.
Local Open Scope Z_scope.

(** The [project] setter. *)
Definition set_project (value : option Project.t) : M World.t unit :=
  modify (fun w =>
    World.set_current_page_id
      match value with
      | Some p =>
          match Project.pages p with
          | page :: _ => Some (Page.id page)
          | [] => None
          end
      | None => None
      end
      (World.set_project value w)).

(** The [current_page_id] setter. *)
Definition set_current_page_id (value : option string) : M World.t unit :=
  modify (fun w =>
    World.set_selection (SelectionState.clear (World._selection w))
      (World.set_current_page_id value w)).

(** The [grid_snap] and [grid_size] setters. *)
Definition set_grid_snap (value : bool) : M World.t unit :=
  modify (World.set_grid_snap value).

Definition set_grid_size (value : Z) : M World.t unit :=
  modify (World.set_grid_size (Z.max 5 (Z.min 50 value))).

(** [select_component]. *)
Definition select_component (component_id : string) (add_to_selection : bool)
    : M World.t unit :=
  modify (fun w =>
    World.set_selection
      (if add_to_selection
       then SelectionState.add_to_selection component_id (World._selection w)
       else SelectionState.select component_id (World._selection w))
      w).

(** [clear_selection]. *)
Definition clear_selection : M World.t unit :=
  modify (fun w => World.set_selection (SelectionState.clear (World._selection w)) w).

End AppState.

(** ** [zeus/ui/canvas.py]: [CanvasArea] *)

Module CanvasArea.
Local Open Scope Z_scope.

(** [add_component]. *)
Definition add_component (component : nat) : M World.t unit :=
  let* c := World.read component in
  modify (fun w =>
    World.set_components
      (<[BaseComponent.id c := ComponentWrapper.mk component false]> (World._components w))
      w).

(** [remove_component]. *)
Definition remove_component (component_id : string) : M World.t unit :=
  modify (fun w =>
    match World._components w !! component_id with
    | Some _ => World.set_components (delete component_id (World._components w)) w
    | None => w
    end).

(** [get_component]. *)
Definition get_component (component_id : string) (w : World.t) : option nat :=
  ComponentWrapper.component <$> (World._components w !! component_id).

(** [_on_component_selected]; [shift] is whether the keyboard modifiers
    read by the handler include Shift. *)
Definition _on_component_selected (shift : bool) (component_id : string)
    : M World.t unit :=
  do modify (fun w =>
       World.set_components
         (if shift then
            alter (fun wr =>
                     ComponentWrapper.set_selected
                       (negb (ComponentWrapper._is_selected wr)) wr)
                  component_id (World._components w)
          else
            map_imap (fun cid wr =>
                        Some (ComponentWrapper.set_selected (String.eqb cid component_id) wr))
                     (World._components w))
         w) then
  AppState.select_component component_id shift.

(** [clear_selection]. *)
Definition clear_selection : M World.t unit :=
  do modify (fun w =>
       World.set_components
         (ComponentWrapper.set_selected false <$> World._components w) w) then
  AppState.clear_selection.

(** The loop of [delete_selected] over a copy of the selected ids. *)
Fixpoint remove_each (ids : list string) : M World.t unit :=
  match ids with
  | [] => ret tt
  | component_id :: rest =>
      do remove_component component_id then remove_each rest
  end.

(** [delete_selected]. *)
Definition delete_selected : M World.t unit :=
  let* w := get in
  let selected := SelectionState.selected_ids (World._selection w) in
  do remove_each selected then
  AppState.clear_selection.

(** [dropEvent] for a drop that carries a component type, at the point
    [(pos_x, pos_y)]. *)
Definition dropEvent (registry : gmap string ComponentClass.t)
    (component_type : string) (pos_x pos_y : Z) (shift : bool) : M World.t unit :=
  let* w := get in
  let* pos :=
    if World._grid_snap w then
      let grid := World._grid_size w in
      let* sx := pure_of (Helpers.snap_to_grid pos_x grid) in
      let* sy := pure_of (Helpers.snap_to_grid pos_y grid) in
      ret (sx, sy)
    else ret (pos_x, pos_y) in
  let* component :=
    World.with_env
      (Registry.create_component registry component_type (fst pos) (snd pos) None None) in
  match component with
  | Some c =>
      let* l := World.alloc c in
      do add_component l then
      _on_component_selected shift (BaseComponent.id c)
  | None => ret tt
  end.

End CanvasArea.

(** ** [zeus/ui/explorer.py]: the page actions of [ExplorerPanel] *)

Module ExplorerPanel.

(** [_delete_page]. *)
Definition _delete_page (page_id : string) : M World.t unit :=
  let* w := get in
  match World._project w with
  | Some project =>
      if Nat.ltb 1 (length (Project.pages project)) then
        let* r := World.with_env (Project.remove_page page_id project) in
        let project' := snd r in
        do modify (World.set_project (Some project')) then
        if decide (World._current_page_id w = Some page_id) then
          match Project.pages project' with
          | page :: _ => AppState.set_current_page_id (Some (Page.id page))
          | [] => raise IndexError
          end
        else ret tt
      else ret tt
  | None => ret tt
  end.

(** [_add_page]. *)
Definition _add_page : M World.t unit :=
  let* w := get in
  match World._project w with
  | Some project =>
      let page_count := length (Project.pages project) in
      let* r :=
        World.with_env
          (Project.add_page ("Page " ++ str_of_nat (page_count + 1)) project) in
      do modify (World.set_project (Some (snd r))) then
      AppState.set_current_page_id (Some (Page.id (fst r)))
  | None => ret tt
  end.

End ExplorerPanel.

(** ** [zeus/core/commands.py] *)

Module Command.
Local Open Scope Z_scope.

(** The abstract class: what a command must provide.  A command acts on
    the editor's objects; the history that holds it is out of its reach. *)
Record t : Type := mk {
  description : M World.t string;
  execute : M World.t unit;
  undo : M World.t unit;
  redo : M World.t unit
}.

(** A subclass that keeps the inherited [redo]: "just execute again". *)
Definition make (description : M World.t string) (execute undo : M World.t unit) : t :=
  mk description execute undo execute.

(** [component.display_name], a class attribute read through the instance. *)
Definition display_name_of (component : nat) : M World.t string :=
  let* c := World.read component in
  ret (ComponentClass.display_name (BaseComponent.cls c)).

Definition AddComponentCommand (component : nat) : t :=
  make
    (let* n := display_name_of component in ret ("Add " ++ n))
    (CanvasArea.add_component component)
    (let* c := World.read component in
     CanvasArea.remove_component (BaseComponent.id c)).

Definition RemoveComponentCommand (component : nat) : t :=
  make
    (let* n := display_name_of component in ret ("Remove " ++ n))
    (let* c := World.read component in
     CanvasArea.remove_component (BaseComponent.id c))
    (CanvasArea.add_component component).

Definition MoveComponentCommand (component : nat) (old_x old_y new_x new_y : Z) : t :=
  make
    (let* n := display_name_of component in ret ("Move " ++ n))
    (do World.update component (BaseComponent.set_x new_x) then
     World.update component (BaseComponent.set_y new_y))
    (do World.update component (BaseComponent.set_x old_x) then
     World.update component (BaseComponent.set_y old_y)).

Definition ResizeComponentCommand (component : nat)
    (old_width old_height new_width new_height : Z) : t :=
  make
    (let* n := display_name_of component in ret ("Resize " ++ n))
    (do World.update component (BaseComponent.set_width new_width) then
     World.update component (BaseComponent.set_height new_height))
    (do World.update component (BaseComponent.set_width old_width) then
     World.update component (BaseComponent.set_height old_height)).

Definition ChangePropertyCommand (component : nat) (property_name : string)
    (old_value new_value : pyval) : t :=
  make
    (ret ("Change " ++ property_name))
    (World.update component (BaseComponent.set_property property_name new_value))
    (World.update component (BaseComponent.set_property property_name old_value)).

End Command.

Module CommandStack.
Local Open Scope Z_scope.

Record t : Type := mk {
  _undo_stack : list Command.t;
  _redo_stack : list Command.t;
  _max_size : Z;
  _is_executing : bool
}.

(** [CommandStack(max_size)]; [max_size] is 100 when not given. *)
Definition new (max_size : Z) : t := mk [] [] max_size false.
Definition default_max_size : Z := 100.

Definition set_undo_stack (v : list Command.t) (s : t) : t :=
  mk v (_redo_stack s) (_max_size s) (_is_executing s).
Definition set_redo_stack (v : list Command.t) (s : t) : t :=
  mk (_undo_stack s) v (_max_size s) (_is_executing s).
Definition set_is_executing (v : bool) (s : t) : t :=
  mk (_undo_stack s) (_redo_stack s) (_max_size s) v.

(** The history together with the objects its commands act on. *)
Abbreviation session := (t * World.t)%type.

Definition on_stack (f : t -> t) : M session unit :=
  modify (fun s => (f (fst s), snd s)).

(** A command's own code, run from the history. *)
Definition run {A} (m : M World.t A) : M session A :=
  zoom snd (fun w s => (fst s, w)) m.

(** [while len(stack) > max_size: stack.pop(0)]; popping from an empty
    list raises. *)
Fixpoint limit (max_size : Z) (stack : list Command.t) : outcome unit * list Command.t :=
  match stack with
  | [] => if Z.of_nat 0 >? max_size then (Raise IndexError, []) else (Ok tt, [])
  | _ :: rest =>
      if Z.of_nat (length stack) >? max_size then limit max_size rest
      else (Ok tt, stack)
  end.

(** [list.pop()]: the list without its last item, and that item. *)
Definition pop (stack : list Command.t) : option (list Command.t * Command.t) :=
  match last stack with
  | Some command => Some (removelast stack, command)
  | None => None
  end.

(** [execute]. *)
Definition execute (command : Command.t) : M session unit :=
  let* s := get in
  if _is_executing (fst s) then ret tt
  else
    do on_stack (set_is_executing true) then
    try_finally
      (do run (Command.execute command) then
       do on_stack (fun st => set_undo_stack (_undo_stack st ++ [command]) st) then
       do on_stack (set_redo_stack []) then
       zoom (fun s => _undo_stack (fst s))
            (fun u s => (set_undo_stack u (fst s), snd s))
            (limit (_max_size (fst s))))
      (on_stack (set_is_executing false)).

(** [undo]. *)
Definition undo : M session (option Command.t) :=
  let* s := get in
  match pop (_undo_stack (fst s)) with
  | None => ret None
  | Some (rest, command) =>
      do on_stack (set_undo_stack rest) then
      do run (Command.undo command) then
      do on_stack (fun st => set_redo_stack (_redo_stack st ++ [command]) st) then
      ret (Some command)
  end.

(** [redo]. *)
Definition redo : M session (option Command.t) :=
  let* s := get in
  match pop (_redo_stack (fst s)) with
  | None => ret None
  | Some (rest, command) =>
      do on_stack (set_redo_stack rest) then
      do run (Command.redo command) then
      do on_stack (fun st => set_undo_stack (_undo_stack st ++ [command]) st) then
      ret (Some command)
  end.

Definition can_redo (s : t) : bool := Nat.ltb 0 (length (_redo_stack s)).

(** [clear]. *)
Definition clear (s : t) : t := set_redo_stack [] (set_undo_stack [] s).

(** Calls in a row: [execute] for each command of a list, and [undo] or
    [redo] a number of times; a raise ends the row. *)
Fixpoint execute_all (commands : list Command.t) : M session unit :=
  match commands with
  | [] => ret tt
  | command :: rest => do execute command then execute_all rest
  end.

Fixpoint times (n : nat) (m : M session (option Command.t))
    : M session (list (option Command.t)) :=
  match n with
  | O => ret []
  | S n' =>
      let* r := m in
      let* rs := times n' m in
      ret (r :: rs)
  end.

(** A caller that goes on after a raise: any mix of [undo] and [redo]
    calls, each outcome kept. *)
Inductive call : Type := Undo | Redo.

Fixpoint calls (cs : list call) (s : session)
    : list (outcome (option Command.t)) * session :=
  match cs with
  | [] => ([], s)
  | c :: rest =>
      let '(r, s') := match c with Undo => undo s | Redo => redo s end in
      let '(rs, s'') := calls rest s' in
      (r :: rs, s'')
  end.

End CommandStack.

(** ** [zeus/ui/canvas.py]: the rubber band *)

Module RubberBand.

(** The loop of [CanvasArea.mouseReleaseEvent] over the components of the
    canvas; [touched] lists, in the order of the loop, the ids of those
    whose geometry the rubber band intersects. *)
Fixpoint select_touched (touched : list string) : M World.t unit :=
  match touched with
  | [] => ret tt
  | component_id :: rest =>
      do modify (fun w =>
           World.set_components
             (alter (ComponentWrapper.set_selected true) component_id
                (World._components w)) w) then
      do AppState.select_component component_id true then
      select_touched rest
  end.

End RubberBand.

(** ** [zeus/utils/helpers.py]: rectangles and colours *)

Module Rects.
Local Open Scope Z_scope.

(** [rect_contains]. *)
Definition rect_contains (rect_x rect_y rect_w rect_h point_x point_y : Z) : bool :=
  ((rect_x <=? point_x) && (point_x <=? rect_x + rect_w)) &&
  ((rect_y <=? point_y) && (point_y <=? rect_y + rect_h)).

End Rects.

Module Colors.
Local Open Scope Z_scope.

(** The characters of a colour string are read one by one, which is what
    Python does on a string of ASCII characters; a string with any other
    character is outside the embedding. *)
Definition code (c : ascii) : Z := Z.of_N (N_of_ascii c).

Definition is_ascii (s : string) : bool :=
  forallb (fun c => code c <? 128) (list_ascii_of_string s).

(** The value of a hexadecimal digit, in either case. *)
Definition hex_value (c : ascii) : option Z :=
  let n := code c in
  if (48 <=? n) && (n <=? 57) then Some (n - 48)
  else if (97 <=? n) && (n <=? 102) then Some (n - 87)
  else if (65 <=? n) && (n <=? 70) then Some (n - 55)
  else None.

(** The ASCII characters [int] strips as white space: tab, line feed,
    vertical tab, form feed, carriage return and space. *)
Definition is_space (c : ascii) : bool :=
  let n := code c in ((9 <=? n) && (n <=? 13)) || (n =? 32).

(** [int(s, 16)] for a string [s] of two ASCII characters: two digits; a
    digit with white space before or after it; a digit with a sign before
    it; anything else is a [ValueError]. *)
Definition int16 (c1 c2 : ascii) : outcome Z :=
  match hex_value c1, hex_value c2 with
  | Some h1, Some h2 => Ok (16 * h1 + h2)
  | Some h1, None => if is_space c2 then Ok h1 else Raise ValueError
  | None, Some h2 =>
      if is_space c1 then Ok h2
      else if code c1 =? 43 then Ok h2
      else if code c1 =? 45 then Ok (- h2)
      else Raise ValueError
  | None, None => Raise ValueError
  end.

(** [s.lstrip('#')]. *)
Fixpoint lstrip_hash (s : string) : string :=
  match s with
  | String c s' => if code c =? 35 then lstrip_hash s' else s
  | EmptyString => s
  end.

(** [color_to_rgba]. *)
Definition color_to_rgba (hex_color : string) : outcome (Z * Z * Z * Z) :=
  if negb (is_ascii hex_color) then Raise OutsideModel
  else
    match list_ascii_of_string (lstrip_hash hex_color) with
    | [r1; r2; g1; g2; b1; b2] =>
        let? r := int16 r1 r2 in
        let? g := int16 g1 g2 in
        let? b := int16 b1 b2 in
        Ok (r, g, b, 255)
    | [r1; r2; g1; g2; b1; b2; a1; a2] =>
        let? r := int16 r1 r2 in
        let? g := int16 g1 g2 in
        let? b := int16 b1 b2 in
        let? a := int16 a1 a2 in
        Ok (r, g, b, a)
    | _ => Ok (0, 0, 0, 255)
    end.

(** [f"{n:02x}"]: the sign of a negative number, then the hexadecimal
    digits of its absolute value in lower case, with a zero before a
    single digit that has no sign. *)
Definition format_02x (n : Z) : string :=
  let digits := NilZero.string_of_uint (N.to_hex_uint (Z.to_N (Z.abs n))) in
  if n <? 0 then String "-" digits
  else if (String.length digits <? 2)%nat then String "0" digits
  else digits.

(** [rgba_to_color]; [a] is 255 when not given. *)
Definition rgba_to_color (r g b a : Z) : string :=
  if a =? 255 then "#" ++ format_02x r ++ format_02x g ++ format_02x b
  else "#" ++ format_02x r ++ format_02x g ++ format_02x b ++ format_02x a.

End Colors.

(** ** [zeus/core/state.py]: listeners *)

Module Listeners.

(** [AppState._listeners]: for each event the callbacks subscribed to it,
    in the order of their subscription.  A callback, a callable, is kept
    as a number that names it; two callbacks are equal when they are the
    same callable. *)
Abbreviation t := (gmap string (list nat)).

(** [subscribe]. *)
Definition subscribe (event : string) (callback : nat) (listeners : t) : t :=
  let listeners' :=
    match listeners !! event with
    | Some _ => listeners
    | None => <[event := []]> listeners
    end in
  alter (fun callbacks => (callbacks ++ [callback])%list) event listeners'.

(** [list.remove(x)]: the first occurrence goes, and [ValueError] is
    raised when there is none. *)
Fixpoint list_remove (x : nat) (l : list nat) : outcome (list nat) :=
  match l with
  | [] => Raise ValueError
  | y :: l' =>
      if Nat.eqb y x then Ok l'
      else match list_remove x l' with
           | Ok r => Ok (y :: r)
           | Raise e => Raise e
           end
  end.

(** [unsubscribe]. *)
Definition unsubscribe (event : string) (callback : nat) (listeners : t) : outcome t :=
  match listeners !! event with
  | Some callbacks =>
      let? callbacks' := list_remove callback callbacks in
      Ok (<[event := callbacks']> listeners)
  | None => Ok listeners
  end.

(** [_notify]: the callbacks it calls, in the order of the calls. *)
Definition _notify (event : string) (listeners : t) : list nat :=
  default [] (listeners !! event).

End Listeners.

(** ** [zeus/core/project.py]: [save] and [load] *)

Module ProjectFile.



(** [load], given the document [json.load] returns for the file. *)
Definition load (contents : pyval) (file_path : string) : M Env.t Project.t :=
  Project.from_dict contents (Some file_path).

End ProjectFile.

(** ** [zeus/ui/main_window.py] and [zeus/ui/explorer.py]: choosing a project and a page *)

Module MainWindow.

(** [_new_project]. *)
Definition _new_project : M World.t unit :=
  let* project := World.with_env (Project.create_new "Untitled Project") in
  AppState.set_project (Some project).

(** [_open_project], given the path the dialog returns (empty when it is
    cancelled) and the document read from that file.  An exception of the
    load is caught, and reported in a message box. *)
Definition _open_project (file_path : string) (contents : pyval) : M World.t unit :=
  if String.eqb file_path "" then ret tt
  else
    fun w =>
      match World.with_env (ProjectFile.load contents file_path) w with
      | (Ok project, w') => AppState.set_project (Some project) w'
      | (Raise OutsideModel, w') => (Raise OutsideModel, w')
      | (Raise _, w') => (Ok tt, w')
      end.

End MainWindow.

Module ExplorerTree.

(** [ExplorerPanel._on_item_clicked]; [page_id] is the data of the item
    clicked: the id of its page, or [None] for an item that is no page. *)
Definition _on_item_clicked (page_id : option string) : M World.t unit :=
  match page_id with
  | Some id =>
      if String.eqb id "" then ret tt
      else AppState.set_current_page_id (Some id)
  | None => ret tt
  end.

End ExplorerTree.

(** ** [zeus/ui/palette.py]: the grid of a category *)

Module CategorySection.
Local Open Scope Z_scope.

(** [_components], and the items of [content_layout] in the order they
    were added, each with its row and column. *)
Record t : Type := mk {
  _components : list ComponentClass.t;
  content_layout : list (ComponentClass.t * (Z * Z))
}.

(** [CategorySection(title)]. *)
Definition new : t := mk [] [].

(** [add_component]. *)
Definition add_component (component_class : ComponentClass.t) (s : t) : t :=
  let components := (_components s ++ [component_class])%list in
  let row := Z.of_nat (length components) / 3 in
  let col := (Z.of_nat (length components) - 1) mod 3 in
  mk components (content_layout s ++ [(component_class, (row, col))])%list.

End CategorySection.

(** ** [zeus/core/commands.py]: what the history would undo and redo *)

Module Descriptions.
Import CommandStack.


Definition get_redo_description : M session (option string) :=
  let* s := get in
  match last (_redo_stack (fst s)) with
  | Some command =>
      let* d := run (Command.description command) in
      ret (Some d)
  | None => ret None
  end.

End Descriptions.

(** * Properties *)

Local Open Scope list_scope.

Section Snap.
Local Open Scope Z_scope.
Import Helpers.

(** The quotient and remainder of the floor division, named, with the
    facts [lia] needs about them. *)
Ltac name_divmod x g Hg :=
  let q := fresh "q" in
  let r := fresh "r" in
  let Hr := fresh "Hr" in
  let Hx := fresh "Hx" in
  pose proof (Z.mod_pos_bound x g Hg) as Hr;
  pose proof (Z.div_mod x g ltac:(lia)) as Hx;
  rewrite (Z.abs_eq (x mod g)) by lia; rewrite (Z.abs_eq g) by lia;
  set (q := x / g) in *; set (r := x mod g) in *;
  clearbody q r; subst x.

Lemma round_div_near (x g : Z) :
  0 < g -> 2 * Z.abs (round_div x g * g - x) <= g.
Proof.
  intros Hg. unfold round_div. name_divmod x g Hg.
  destruct (Z.compare_spec (2 * r) g) as [Hc|Hc|Hc];
    [destruct (Z.even q)| |]; lia.
Qed.

Lemma round_div_tie_even (x g : Z) :
  0 < g -> 2 * Z.abs (round_div x g * g - x) = g -> Z.even (round_div x g) = true.
Proof.
  intros Hg. unfold round_div. name_divmod x g Hg.
  destruct (Z.compare_spec (2 * r) g) as [Hc|Hc|Hc].
  - destruct (Z.even q) eqn:He; intros _; [exact He|].
    rewrite Z.even_add, He. reflexivity.
  - intros H. lia.
  - intros H. lia.
Qed.

Lemma round_div_multiple (k g : Z) : 0 < g -> round_div (k * g) g = k.
Proof.
  intros Hg. unfold round_div.
  rewrite Z.mod_mul, Z.div_mul by lia.
  rewrite (Z.abs_eq g) by lia. change (Z.abs 0) with 0.
  destruct (Z.compare_spec (2 * 0) g); [lia|reflexivity|lia].
Qed.


Lemma round_div_unique (a b k : Z) :
  0 < b ->
  2 * Z.abs (k * b - a) < b \/ (2 * Z.abs (k * b - a) = b /\ Z.even k = true) ->
  round_div a b = k.
Proof.
  intros Hb Hk.
  pose proof (round_div_near a b Hb) as Hn.
  pose proof (round_div_tie_even a b Hb) as He.
  set (k0 := round_div a b) in *. clearbody k0.
  destruct (Z.eq_dec k0 k) as [E|Hne]; [exact E|exfalso].
  assert (b <= Z.abs (k0 * b - k * b)) as Hfar by nia.
  destruct Hk as [Hk|[Hk Hev]]; [lia|].
  assert (2 * Z.abs (k0 * b - a) = b) as Htie by lia.
  specialize (He Htie).
  assert (Z.abs (k0 - k) = 1) as Hone by nia.
  apply Z.even_spec in He, Hev. destruct He as [i Hi], Hev as [j Hj]. lia.
Qed.

(** Rounding a quotient at a scale finer than the divisor, then rounding
    the result to an integer, is rounding the quotient to an integer. *)
Lemma round_div_twice (x g p : Z) :
  0 < g -> g < p -> Z.even p = true ->
  round_div (round_div (x * p) g) p = round_div x g.
Proof.
  intros Hg Hp Hev. assert (0 < p) as Hp0 by lia.
  pose proof (round_div_near x g Hg) as Hn.
  pose proof (round_div_tie_even x g Hg) as Ht.
  set (k := round_div x g) in *. clearbody k.
  apply round_div_unique; [exact Hp0|].
  destruct (Z.eq_dec (2 * Z.abs (k * g - x)) g) as [Htie|Hnt].
  - right. split; [|exact (Ht Htie)].
    apply Z.even_spec in Hev. destruct Hev as [h Hh]. subst p.
    assert (x * (2 * h) = (2 * k * h + (if Z.leb x (k * g) then - h else h)) * g) as Hx.
    { destruct (Z.leb_spec x (k * g)); nia. }
    rewrite Hx, round_div_multiple by exact Hg.
    destruct (Z.leb_spec x (k * g)); lia.
  - left. pose proof (round_div_near (x * p) g Hg) as Hm.
    set (m := round_div (x * p) g) in *. clearbody m.
    assert (2 * Z.abs (k * g - x) <= g - 1) as Hk by lia.
    assert (2 * Z.abs (k * p - m) * g
            <= 2 * Z.abs (k * g - x) * p + 2 * Z.abs (m * g - x * p)) as Htri by nia.
    nia.
Qed.

Lemma log2_bounds (a : Z) : 0 < a -> 2 ^ Z.log2 a <= a < 2 ^ (Z.log2 a + 1).
Proof. intros Ha. exact (Z.log2_spec a Ha). Qed.

(** The scale of a quotient that is below [2 ^ 53]. *)
Lemma float_scale_bounds (a b : Z) :
  0 < a < 2 ^ 53 -> 0 < b < 2 ^ 52 ->
  let s0 := 52 - (Z.log2 a - Z.log2 b) in
  0 <= s0 /\ (float_scale a b = s0 \/ float_scale a b = s0 + 1).
Proof.
  intros Ha Hb s0.
  assert (0 <= Z.log2 a <= 52) as Hla.
  { split; [apply Z.log2_nonneg|]. apply Z.lt_succ_r, Z.log2_lt_pow2; lia. }
  assert (0 <= Z.log2 b <= 51) as Hlb.
  { split; [apply Z.log2_nonneg|]. apply Z.lt_succ_r, Z.log2_lt_pow2; lia. }
  split; [unfold s0; lia|]. unfold float_scale. fold s0.
  destruct (scaled_floor a b s0 <? 2 ^ 52); [right|left]; unfold s0; lia.
Qed.

Lemma true_divide_small (x g : Z) :
  x <> 0 -> Z.abs x < 2 ^ 53 -> 0 < g < 2 ^ 52 ->
  exists s,
    0 <= s /\ 2 ^ (1 + (52 - Z.log2 (Z.abs x)) + Z.log2 g) <= 2 * 2 ^ s /\
    true_divide x g = Ok (round_div (x * 2 ^ s) g, s).
Proof.
  intros Hx Hb Hg. unfold true_divide.
  destruct (Z.eqb_spec g 0) as [?|_]; [lia|].
  destruct (Z.eqb_spec x 0) as [?|_]; [contradiction|].
  rewrite (Z.abs_eq g) by lia.
  destruct (float_scale_bounds (Z.abs x) g ltac:(lia) Hg) as [H0 Hs].
  set (s := float_scale (Z.abs x) g) in *. clearbody s.
  exists s. assert (0 <= s) as Hs0 by lia.
  split; [exact Hs0|]. split.
  - replace (2 * 2 ^ s) with (2 ^ (1 + s)) by (rewrite Z.pow_add_r by lia; reflexivity).
    apply Z.pow_le_mono_r; lia.
  - unfold scaled_round. destruct (Z.leb_spec 0 s); [|lia].
    destruct (Z.ltb_spec s 0); [lia|]. reflexivity.
Qed.

(** Below [2 ^ 52] the two roundings of [snap_to_grid] amount to the one
    rounding of the exact quotient. *)
Lemma snap_to_grid_exact (x g : Z) :
  Z.abs x < 2 ^ 52 -> 0 < g < 2 ^ 52 ->
  snap_to_grid x g = Ok (round_div x g * g).
Proof.
  intros Hx Hg. unfold snap_to_grid.
  destruct (Z.eq_dec x 0) as [->|Hx0].
  { unfold true_divide. destruct (Z.eqb_spec g 0); [lia|].
    pose proof (round_div_multiple 0 g ltac:(lia)) as E0.
    rewrite Z.mul_0_l in E0. rewrite E0. reflexivity. }
  destruct (true_divide_small x g Hx0 ltac:(lia) Hg) as (s & Hs & Hp & ->).
  unfold py_round.
  assert (Z.log2 (Z.abs x) <= 51) as Hla.
  { apply Z.lt_succ_r, Z.log2_lt_pow2; lia. }
  pose proof (log2_bounds g ltac:(lia)) as Hlg.
  pose proof (Z.log2_nonneg g) as Hlg0.
  assert (2 * 2 ^ (Z.log2 g + 1) <= 2 * 2 ^ s) as Hgs.
  { etransitivity; [|exact Hp].
    replace (2 * 2 ^ (Z.log2 g + 1)) with (2 ^ (1 + (Z.log2 g + 1)))
      by (rewrite (Z.pow_add_r 2 1) by lia; reflexivity).
    apply Z.pow_le_mono_r; lia. }
  assert (0 < s) as Hspos.
  { destruct (Z.eq_dec s 0) as [->|]; [|lia].
    pose proof (Z.pow_pos_nonneg 2 (Z.log2 g) ltac:(lia) Hlg0) as Hpw.
    rewrite Z.pow_add_r in Hgs by lia.
    change (2 ^ 0) with 1 in Hgs. change (2 ^ 1) with 2 in Hgs. lia. }
  destruct (Z.leb_spec s 0); [lia|].
  rewrite round_div_twice; [reflexivity|lia|lia|].
  replace s with (1 + (s - 1)) by lia. rewrite Z.pow_add_r by lia.
  rewrite Z.even_mul. reflexivity.
Qed.


(** [true_divide] is the division of IEEE 754: checked on every
    coordinate from -40 to 40 over every grid size from 5 to 50, on
    coordinates at the ends of the 32-bit range and around [2 ^ 52] and
    [2 ^ 53], and on quotients that are subnormal, that are near the
    largest float and that overflow. *)
Lemma true_divide_is_ieee :
  forallb agrees_with_ieee
    (window (-40) 81 (List.map Z.of_nat (seq 5 46)) ++
     window (2 ^ 31 - 4) 8 [5; 7; 10; 50] ++
     window (- 2 ^ 31 - 4) 8 [5; 7; 10; 50] ++
     window (2 ^ 52 - 4) 8 [5; 7; 10; 50] ++
     window (2 ^ 53 - 4) 8 [5; 7; 10; 50] ++
     window (- 2 ^ 60 - 4) 8 [5; 7; 10; 50] ++
     [ (1, 3); (-1, 3); (7, -2); (10 ^ 400, 3); (1, 10 ^ 330); (1, 10 ^ 320);
       (3, 2 ^ 1075); (1, 2 ^ 1075); (2 ^ 1024, 1); (2 ^ 1024 - 2 ^ 970, 1);
       (2 ^ 1024 - 2 ^ 970 - 1, 1); (5, 0); (0, 5) ])
  = true.
Proof. vm_compute. reflexivity. Qed.




End Snap.

(** ** Dictionaries *)

Section Dicts.

Lemma dict_contains_get (d : dict) (k : string) :
  dict_contains d k = match dict_get d k with Some _ => true | None => false end.
Proof.
  induction d as [|[k' v] d IH]; simpl; [reflexivity|].
  destruct (String.eqb k k'); [reflexivity|exact IH].
Qed.

Lemma dict_get_set_eq (d : dict) (k : string) (v : pyval) :
  dict_get (dict_set d k v) k = Some v.
Proof.
  induction d as [|[k' v'] d IH]; simpl.
  - rewrite String.eqb_refl. reflexivity.
  - destruct (String.eqb k k') eqn:E; simpl; rewrite E; [reflexivity|exact IH].
Qed.

Lemma dict_get_set_ne (d : dict) (k k' : string) (v : pyval) :
  k <> k' -> dict_get (dict_set d k v) k' = dict_get d k'.
Proof.
  intros Hne. induction d as [|[k0 v0] d IH]; simpl.
  - destruct (String.eqb_spec k' k); [congruence|reflexivity].
  - destruct (String.eqb_spec k k0) as [->|Hk]; simpl.
    + destruct (String.eqb_spec k' k0); [congruence|reflexivity].
    + destruct (String.eqb_spec k' k0); [reflexivity|exact IH].
Qed.

Lemma dict_keys_set_in (d : dict) (k : string) (v : pyval) :
  In k (dict_keys d) -> dict_keys (dict_set d k v) = dict_keys d.
Proof.
  unfold dict_keys. induction d as [|[k0 v0] d IH]; simpl; [tauto|].
  intros Hin. destruct (String.eqb_spec k k0) as [->|Hk]; simpl; [reflexivity|].
  f_equal. apply IH. destruct Hin; congruence.
Qed.

Lemma dict_keys_set_notin (d : dict) (k : string) (v : pyval) :
  ~ In k (dict_keys d) -> dict_set d k v = d ++ [(k, v)].
Proof.
  unfold dict_keys. induction d as [|[k0 v0] d IH]; simpl; [reflexivity|].
  intros Hin. destruct (String.eqb_spec k k0) as [->|Hk]; [tauto|].
  f_equal. apply IH. tauto.
Qed.

Lemma dict_get_In (d : dict) (k : string) (v : pyval) :
  dict_get d k = Some v -> In k (dict_keys d).
Proof.
  unfold dict_keys. induction d as [|[k0 v0] d IH]; simpl; [discriminate|].
  destruct (String.eqb_spec k k0) as [->|Hk]; [tauto|].
  intros H. right. exact (IH H).
Qed.

Lemma dict_get_notin (d : dict) (k : string) :
  ~ In k (dict_keys d) -> dict_get d k = None.
Proof.
  intros Hn. destruct (dict_get d k) eqn:E; [|reflexivity].
  exfalso. exact (Hn (dict_get_In _ _ _ E)).
Qed.

End Dicts.

(** ** The schema validator *)

Section Validator.
Import Schema.

Definition verdict (failure : option string) : bool * option string :=
  match failure with
  | None => (true, None)
  | Some reason => (false, Some reason)
  end.

Lemma validate_pages_first_failure (pages : list pyval) (i : nat) :
  validate_pages i pages = Ok (verdict (pages_failure i pages)).
Proof.
  revert i. induction pages as [|page rest IH]; intros i; simpl; [reflexivity|].
  destruct page; simpl; try reflexivity.
  destruct (dict_contains d "id"); simpl; [|reflexivity].
  destruct (dict_contains d "name"); simpl; [|reflexivity].
  apply IH.
Qed.

(** A page that passes: an object with an [id] and a [name]. *)
Definition page_ok (page : pyval) : Prop :=
  exists d, page = PDict d /\ dict_contains d "id" = true /\ dict_contains d "name" = true.

(** A document that passes. *)
Definition document_ok (document : pyval) : Prop :=
  exists d pages,
    document = PDict d /\ dict_contains d "name" = true /\
    dict_contains d "version" = true /\
    dict_get d "pages" = Some (PList pages) /\ Forall page_ok pages.

Lemma page_failure_none (i : nat) (page : pyval) :
  page_failure i page = None <-> page_ok page.
Proof.
  unfold page_failure, page_ok. split.
  - destruct page; try discriminate.
    destruct (dict_contains d "id") eqn:E1; simpl; [|discriminate].
    destruct (dict_contains d "name") eqn:E2; simpl; [|discriminate].
    intros _. exists d. auto.
  - intros (d & -> & -> & ->). reflexivity.
Qed.

Lemma pages_failure_none (pages : list pyval) (i : nat) :
  pages_failure i pages = None <-> Forall page_ok pages.
Proof.
  revert i. induction pages as [|page rest IH]; intros i; simpl.
  - split; [constructor|reflexivity].
  - destruct (page_failure i page) eqn:E.
    + split; [discriminate|]. intros H. inversion H as [|? ? Hp _]; subst.
      apply (page_failure_none i) in Hp. congruence.
    + rewrite IH. split.
      * intros H. constructor; [apply (page_failure_none i); exact E|exact H].
      * intros H. inversion H; assumption.
Qed.

Lemma first_failure_none (document : pyval) :
  first_failure document = None <-> document_ok document.
Proof.
  unfold first_failure, document_ok. split.
  - destruct document; try discriminate.
    destruct (dict_contains d "name") eqn:E1; simpl; [|discriminate].
    destruct (dict_contains d "version") eqn:E2; simpl; [|discriminate].
    destruct (dict_get d "pages") as [[]|] eqn:E3; try discriminate.
    intros H. exists d, l. rewrite pages_failure_none in H. auto.
  - intros (d & pages & -> & -> & -> & -> & H). simpl.
    apply pages_failure_none. exact H.
Qed.

(** C8. [validate_project] returns on every input document, never raising,
    and what it returns is the verdict of the checks taken in the order
    object, [name], [version], [pages] list, then page by page object,
    [id], [name]: [(True, None)] when none fails, which is exactly when
    the document has that shape, and otherwise [False] with the reason of
    the first check that fails, a text. *)
Theorem validate_project_first_failure (document : pyval) :
  validate_project document = Ok (verdict (first_failure document)) /\
  (validate_project document = Ok (true, None) <-> document_ok document) /\
  (forall reason, first_failure document = Some reason ->
     validate_project document = Ok (false, Some reason)).
Proof.
  assert (validate_project document = Ok (verdict (first_failure document))) as Hv.
  { unfold validate_project, first_failure.
    destruct document; try reflexivity. simpl.
    destruct (dict_contains d "name"); simpl; [|reflexivity].
    destruct (dict_contains d "version"); simpl; [|reflexivity].
    rewrite dict_contains_get.
    destruct (dict_get d "pages") as [v|] eqn:E; simpl; [|reflexivity].
    destruct v; simpl; try reflexivity.
    apply validate_pages_first_failure. }
  split; [exact Hv|]. split.
  - rewrite Hv, <- first_failure_none.
    destruct (first_failure document); simpl; split; congruence.
  - intros reason Hr. rewrite Hv, Hr. reflexivity.
Qed.

End Validator.

(** ** The monad *)

Section Monad.

Lemma bind_ok {S A B} (m : M S A) (k : A -> M S B) (s s' : S) (b : B) :
  bind m k s = (Ok b, s') ->
  exists a s1, m s = (Ok a, s1) /\ k a s1 = (Ok b, s').
Proof.
  unfold bind. destruct (m s) as [[a|e] s1]; [eauto|discriminate].
Qed.

Lemma bind_step {S A B} (m : M S A) (k : A -> M S B) (s s1 : S) (a : A) :
  m s = (Ok a, s1) -> bind m k s = k a s1.
Proof. unfold bind. intros ->. reflexivity. Qed.

Lemma bind_raise {S A B} (m : M S A) (k : A -> M S B) (s s1 : S) (e : exn) :
  m s = (Raise e, s1) -> bind m k s = (Raise e, s1).
Proof. unfold bind. intros ->. reflexivity. Qed.

Lemma pure_of_ok {S A} (o : outcome A) (s s' : S) (a : A) :
  pure_of o s = (Ok a, s') -> o = Ok a /\ s' = s.
Proof. unfold pure_of. intros [= -> ->]. auto. Qed.

End Monad.

(** Takes a successful run of a block apart, one statement at a time. *)
Ltac run_inv H :=
  repeat
    (let a := fresh "a" in
     let s := fresh "s" in
     let H1 := fresh "Hrun" in
     apply bind_ok in H; destruct H as (a & s & H1 & H);
     try (apply pure_of_ok in H1; destruct H1 as [H1 ->])).

(** ** The uuid source *)

Section Uuid.

Lemma str_of_nat_inj (n m : nat) : str_of_nat n = str_of_nat m -> n = m.
Proof.
  unfold str_of_nat. intros H.
  apply Unsigned.to_uint_inj.
  assert (forall k, Nat.to_uint k <> Decimal.Nil) as Hnn.
  { intros k Hk. pose proof (Unsigned.of_to k) as Hof.
    rewrite Hk in Hof. simpl in Hof. subst k. discriminate Hk. }
  pose proof (DecimalString.NilZero.usu _ (Hnn n)) as Hn.
  pose proof (DecimalString.NilZero.usu _ (Hnn m)) as Hm.
  rewrite H in Hn. congruence.
Qed.

Lemma append_inj_r (p a b : string) : (p ++ a = p ++ b)%string -> a = b.
Proof.
  induction p as [|c p IH]; [tauto|].
  intros H. apply IH.
  change (String c (p ++ a) = String c (p ++ b))%string in H. congruence.
Qed.

Lemma uuid_text_inj (n m : nat) : Env.uuid_text n = Env.uuid_text m -> n = m.
Proof.
  unfold Env.uuid_text. intros H. apply str_of_nat_inj.
  exact (append_inj_r _ _ _ H).
Qed.

End Uuid.

(** ** Projects and their pages *)

Section Pages.

(** The page [__post_init__] adds to a project without pages, when
    [n] uuids were drawn before. *)
Definition main_page (n : nat) : Page.t := Page.new (Env.uuid_text n) "Main Page".

Lemma post_init_empty (p : Project.t) (e : Env.t) :
  Project.pages p = [] ->
  Project.__post_init__ p e =
    (Ok (Project.set_pages [main_page (Env.uuid_drawn e)] p),
     Env.mk (S (Env.uuid_drawn e)) (Env.clock_reads e)).
Proof.
  intros Hp. unfold Project.__post_init__. rewrite Hp. reflexivity.
Qed.

Lemma post_init_pages (p p' : Project.t) (e e' : Env.t) :
  Project.__post_init__ p e = (Ok p', e') -> Project.pages p' <> [].
Proof.
  unfold Project.__post_init__. destruct (Project.pages p) eqn:Hp.
  - intros [= <- <-]. simpl. discriminate.
  - intros [= <- <-]. rewrite Hp. discriminate.
Qed.

Lemma post_init_total (p : Project.t) (e : Env.t) :
  exists p' e', Project.__post_init__ p e = (Ok p', e').
Proof.
  unfold Project.__post_init__. destruct (Project.pages p); eauto.
Qed.

(** C10. A project constructed with no pages holds exactly one page, named
    "Main Page", with the uuid drawn for it; so does a project loaded from
    a document whose [pages] is absent or an empty array; and no
    construction and no load yields a project without pages. *)
Theorem project_has_a_page_from_the_start :
  (forall name description version created_at modified_at assets settings file_path e,
     exists p,
       Project.__init__ name description version created_at modified_at []
         assets settings file_path e
       = (Ok p, Env.mk (S (Env.uuid_drawn e)) (Env.clock_reads e)) /\
       Project.pages p = [main_page (Env.uuid_drawn e)]) /\
  (forall name description version created_at modified_at pages assets settings file_path e,
     exists p e',
       Project.__init__ name description version created_at modified_at pages
         assets settings file_path e = (Ok p, e') /\
       Project.pages p <> []) /\
  (forall d file_path e p e',
     dict_get d "pages" = None \/ dict_get d "pages" = Some (PList []) ->
     Project.from_dict (PDict d) file_path e = (Ok p, e') ->
     Project.pages p = [main_page (Env.uuid_drawn e)]) /\
  (forall data file_path e p e',
     Project.from_dict data file_path e = (Ok p, e') -> Project.pages p <> []).
Proof.
  split; [|split; [|split]].
  - intros. eexists. unfold Project.__init__. rewrite post_init_empty by reflexivity.
    split; reflexivity.
  - intros. unfold Project.__init__.
    destruct (post_init_total
      (Project.mk name description version created_at modified_at pages
         assets settings file_path) e) as (p' & e' & H).
    exists p', e'. split; [exact H|]. exact (post_init_pages _ _ _ _ H).
  - intros d file_path e p e' Hd H. unfold Project.from_dict in H.
    assert (py_get (PDict d) "pages" (PList []) = Ok (PList [])) as Hg.
    { unfold py_get, dict_get_default. destruct Hd as [-> | ->]; reflexivity. }
    run_inv H.
    assert (a = PList []) by congruence. subst a.
    assert (a0 = []) by (simpl in *; congruence). subst a0.
    assert (a1 = []) by (simpl in *; congruence). subst a1.
    unfold Project.__init__ in H. rewrite post_init_empty in H by reflexivity.
    assert (Project.pages p = [main_page (Env.uuid_drawn e)]) as Hp
      by (inversion H; reflexivity).
    exact Hp.
  - intros data file_path e p e' H. unfold Project.from_dict in H.
    run_inv H. unfold Project.__init__ in H.
    exact (post_init_pages _ _ _ _ H).
Qed.

(** The empty document loads into a project with its main page. *)
Lemma project_has_a_page_from_the_start_witness :
  Project.pages
    (Project.mk "Untitled Project" "" "1.0.0" "time-0" "time-1" [main_page 0] [] [] None)
  = [main_page 0] /\
  Project.pages
    (Project.mk "Untitled Project" "" "1.0.0" "time-0" "time-1" [main_page 0] [] [] None)
  <> [].
Proof.
  split.
  - exact (proj1 (proj2 (proj2 project_has_a_page_from_the_start))
             [] None (Env.mk 0 0) _ _ (or_introl eq_refl) eq_refl).
  - exact (proj2 (proj2 (proj2 project_has_a_page_from_the_start))
             (PDict []) None (Env.mk 0 0) _ _ eq_refl).
Defined.

End Pages.

(** ** Removing a page *)

Section RemovePage.

Definition page_ids (pages : list Page.t) : list string := map Page.id pages.

Lemma pop_first_absent (page_id : string) (pages : list Page.t) :
  ~ In page_id (page_ids pages) -> Project.pop_first page_id pages = None.
Proof.
  induction pages as [|page rest IH]; simpl; [reflexivity|].
  intros Hn. destruct (String.eqb_spec (Page.id page) page_id) as [E|E]; [tauto|].
  rewrite IH by tauto. reflexivity.
Qed.

Lemma pop_first_present (page_id : string) (pages : list Page.t) :
  In page_id (page_ids pages) ->
  exists before page after,
    pages = before ++ page :: after /\ Page.id page = page_id /\
    ~ In page_id (page_ids before) /\
    Project.pop_first page_id pages = Some (before ++ after).
Proof.
  induction pages as [|page rest IH]; simpl; [tauto|].
  intros Hin. destruct (String.eqb_spec (Page.id page) page_id) as [E|E].
  - exists [], page, rest. simpl. auto.
  - destruct IH as (before & page' & after & -> & Hid & Hb & Hpop); [tauto|].
    exists (page :: before), page', after. simpl. rewrite Hpop.
    repeat split; [exact Hid|tauto].
Qed.

(** The project [remove_page] leaves when it removes: the remaining pages
    and the time of the modification. *)
Definition removed (pages' : list Page.t) (p : Project.t) (e : Env.t) : Project.t :=
  Project.set_modified_at (Env.clock_text (Env.clock_reads e))
    (Project.set_pages pages' p).

Definition ticked (e : Env.t) : Env.t :=
  Env.mk (Env.uuid_drawn e) (S (Env.clock_reads e)).

Lemma remove_page_absent (page_id : string) (p : Project.t) (e : Env.t) :
  ~ In page_id (page_ids (Project.pages p)) ->
  Project.remove_page page_id p e = (Ok (false, p), e).
Proof.
  intros Hn. unfold Project.remove_page. rewrite pop_first_absent by exact Hn.
  reflexivity.
Qed.

Lemma remove_page_present (page_id : string) (p : Project.t) (e : Env.t) :
  In page_id (page_ids (Project.pages p)) ->
  exists before page after,
    Project.pages p = before ++ page :: after /\ Page.id page = page_id /\
    ~ In page_id (page_ids before) /\
    Project.remove_page page_id p e
    = (Ok (true, removed (before ++ after) p e), ticked e).
Proof.
  intros Hin. destruct (pop_first_present _ _ Hin)
    as (before & page & after & Hp & Hid & Hb & Hpop).
  exists before, page, after. repeat split; try assumption.
  unfold Project.remove_page. rewrite Hpop. reflexivity.
Qed.

(** A project with exactly one page, whose id is "p1". *)
Definition one_page_project : Project.t :=
  Project.mk "Untitled Project" "" "1.0.0" "time-0" "time-1"
    [Page.new "p1" "Main Page"] [] [] None.

(** [remove_page] on the only page of a project: no error is raised, the
    call returns [True], and the project is left with no page. *)
Lemma remove_page_removes_the_last_page :
  length (Project.pages one_page_project) = 1 /\
  exists p',
    Project.remove_page "p1" one_page_project (Env.mk 1 2) = (Ok (true, p'), Env.mk 1 3) /\
    Project.pages p' = [].
Proof. split; [reflexivity|]. eexists. split; reflexivity. Qed.

Lemma delete_page_guarded (page_id : string) (w : World.t) (p : Project.t) :
  World._project w = Some p ->
  length (Project.pages p) <= 1 ->
  ExplorerPanel._delete_page page_id w = (Ok tt, w).
Proof.
  intros Hp Hlen. unfold ExplorerPanel._delete_page, bind, get. rewrite Hp.
  destruct (Nat.ltb_spec 1 (length (Project.pages p))); [lia|reflexivity].
Qed.

Lemma delete_page_keeps_a_page (page_id : string) (w : World.t) (p : Project.t) :
  World._project w = Some p ->
  Project.pages p <> [] ->
  exists w' p',
    ExplorerPanel._delete_page page_id w = (Ok tt, w') /\
    World._project w' = Some p' /\ Project.pages p' <> [].
Proof.
  intros Hp Hne.
  destruct (Nat.ltb_spec 1 (length (Project.pages p))) as [Hlt|Hle].
  2:{ exists w, p. rewrite (delete_page_guarded _ _ _ Hp Hle). auto. }
  unfold ExplorerPanel._delete_page, bind, get. rewrite Hp.
  destruct (Nat.ltb_spec 1 (length (Project.pages p))); [|lia].
  unfold World.with_env, zoom.
  destruct (in_dec string_dec page_id (page_ids (Project.pages p))) as [Hin|Hn].
  - destruct (remove_page_present page_id p (World.env w) Hin)
      as (before & page & after & Hpg & Hid & Hb & ->).
    assert (before ++ after <> []) as Hrest.
    { rewrite Hpg in Hlt. rewrite length_app in Hlt. simpl in Hlt.
      destruct before, after; simpl in *; try discriminate; lia. }
    simpl. unfold modify.
    destruct (decide (World._current_page_id w = Some page_id)).
    + destruct (before ++ after) as [|first rest] eqn:E; [congruence|].
      simpl. eexists _, _. split; [reflexivity|]. simpl. split; [reflexivity|].
      simpl. discriminate.
    + eexists _, _. split; [reflexivity|]. simpl. split; [reflexivity|].
      simpl. exact Hrest.
  - rewrite (remove_page_absent _ _ _ Hn). simpl. unfold modify.
    destruct (decide (World._current_page_id w = Some page_id)).
    + destruct (Project.pages p) as [|first rest] eqn:E; [congruence|].
      eexists _, _. split; [reflexivity|]. simpl. split; [reflexivity|].
      rewrite E. discriminate.
    + eexists _, _. split; [reflexivity|]. simpl. split; [reflexivity|].
      exact Hne.
Qed.

(** C1, as the code has it. [remove_page] never refuses: when a page has
    the id, the first such page is removed, the project is marked
    modified and the call returns [True], also when it was the only page;
    when no page has the id the call changes nothing and returns [False].
    The last page is protected by the caller instead: [_delete_page] calls
    [remove_page] only for a project with more than one page and otherwise
    does nothing, raising no error, so a project that holds a page still
    holds one after [_delete_page]. *)
Theorem remove_page_guarded_by_caller (page_id : string) (p : Project.t) :
  (forall e, ~ In page_id (page_ids (Project.pages p)) ->
     Project.remove_page page_id p e = (Ok (false, p), e)) /\
  (forall e, In page_id (page_ids (Project.pages p)) ->
     exists before page after,
       Project.pages p = before ++ page :: after /\ Page.id page = page_id /\
       ~ In page_id (page_ids before) /\
       Project.remove_page page_id p e
       = (Ok (true, removed (before ++ after) p e), ticked e)) /\
  (forall w, World._project w = Some p -> length (Project.pages p) <= 1 ->
     ExplorerPanel._delete_page page_id w = (Ok tt, w)) /\
  (forall w, World._project w = Some p -> Project.pages p <> [] ->
     exists w' p',
       ExplorerPanel._delete_page page_id w = (Ok tt, w') /\
       World._project w' = Some p' /\ Project.pages p' <> []).
Proof.
  split; [|split; [|split]].
  - intros e. apply remove_page_absent.
  - intros e. apply remove_page_present.
  - intros w. apply delete_page_guarded.
  - intros w. apply delete_page_keeps_a_page.
Qed.

(** The editor with the one-page project open. *)
Definition one_page_world : World.t := World.set_project (Some one_page_project) World.initial.

(** On the one-page project: an id no page has, the id of the only page,
    and [_delete_page] asked to delete that page. *)
Lemma remove_page_guarded_by_caller_witness :
  Project.remove_page "p9" one_page_project (Env.mk 1 2)
  = (Ok (false, one_page_project), Env.mk 1 2) /\
  (exists before page after,
     Project.pages one_page_project = before ++ page :: after /\
     Page.id page = "p1" /\ ~ In "p1" (page_ids before) /\
     Project.remove_page "p1" one_page_project (Env.mk 1 2)
     = (Ok (true, removed (before ++ after) one_page_project (Env.mk 1 2)),
        ticked (Env.mk 1 2))) /\
  ExplorerPanel._delete_page "p1" one_page_world = (Ok tt, one_page_world) /\
  (exists w' p',
     ExplorerPanel._delete_page "p1" one_page_world = (Ok tt, w') /\
     World._project w' = Some p' /\ Project.pages p' <> []).
Proof.
  split; [|split; [|split]].
  - apply (proj1 (remove_page_guarded_by_caller "p9" one_page_project)).
    simpl. intros [H|[]]. discriminate H.
  - apply (proj1 (proj2 (remove_page_guarded_by_caller "p1" one_page_project))).
    simpl. left. reflexivity.
  - apply (proj1 (proj2 (proj2 (remove_page_guarded_by_caller "p1" one_page_project)))
             one_page_world); [reflexivity|simpl; lia].
  - apply (proj2 (proj2 (proj2 (remove_page_guarded_by_caller "p1" one_page_project)))
             one_page_world); [reflexivity|discriminate].
Defined.

End RemovePage.

(** ** Creating components *)

Section Create.
Local Open Scope Z_scope.

Definition property_names (props : list ComponentProperty.t) : list string :=
  map ComponentProperty.name props.

Lemma default_properties_snoc (props : list ComponentProperty.t) (p : ComponentProperty.t) :
  BaseComponent.default_properties (props ++ [p]) =
  dict_set (BaseComponent.default_properties props)
    (ComponentProperty.name p) (ComponentProperty.default_value p).
Proof. unfold BaseComponent.default_properties. rewrite fold_left_app. reflexivity. Qed.

Lemma default_properties_keys (props : list ComponentProperty.t) :
  NoDup (property_names props) ->
  dict_keys (BaseComponent.default_properties props) = property_names props.
Proof.
  induction props as [|p props IH] using rev_ind; [reflexivity|].
  unfold property_names in *. rewrite map_app. simpl. intros Hnd.
  apply NoDup_app in Hnd. destruct Hnd as (Hnd & Hdisj & _).
  rewrite default_properties_snoc, dict_keys_set_notin.
  - unfold dict_keys in *. rewrite map_app, IH by exact Hnd. reflexivity.
  - rewrite IH by exact Hnd. intros Hin.
    apply (Hdisj (ComponentProperty.name p)).
    + apply list_elem_of_In. exact Hin.
    + apply list_elem_of_In. left. reflexivity.
Qed.

Lemma default_properties_get (props : list ComponentProperty.t) (p : ComponentProperty.t) :
  NoDup (property_names props) -> In p props ->
  dict_get (BaseComponent.default_properties props) (ComponentProperty.name p)
  = Some (ComponentProperty.default_value p).
Proof.
  induction props as [|q props IH] using rev_ind; [intros _ []|].
  unfold property_names in *. rewrite map_app. simpl. intros Hnd Hin.
  apply NoDup_app in Hnd. destruct Hnd as (Hnd & Hdisj & _).
  rewrite default_properties_snoc.
  apply in_app_or in Hin. destruct Hin as [Hin|[->|[]]].
  - rewrite dict_get_set_ne; [apply IH; assumption|].
    intros E. apply (Hdisj (ComponentProperty.name q)).
    + apply list_elem_of_In. rewrite E. apply in_map. exact Hin.
    + apply list_elem_of_In. left. reflexivity.
  - apply dict_get_set_eq.
Qed.

(** A class whose properties have distinct names, as every registered
    class has. *)
Definition distinct_properties (k : ComponentClass.t) : Prop :=
  NoDup (property_names (ComponentClass.get_properties k)).

Lemma registered_classes (name : string) (k : ComponentClass.t) :
  Registry.COMPONENT_REGISTRY !! name = Some k ->
  ComponentClass.component_type k = name /\
  In k [Widgets.ButtonComponent; Widgets.LabelComponent; Widgets.TextInputComponent;
        Widgets.CheckboxComponent; Widgets.ContainerComponent; Widgets.ImageComponent].
Proof.
  unfold Registry.COMPONENT_REGISTRY, Registry.register_component. intros H.
  repeat (apply lookup_insert_Some in H; destruct H as [[<- <-]|[_ H]];
          [split; [reflexivity|simpl; tauto]|]).
  rewrite lookup_empty in H. discriminate.
Qed.

Lemma NoDup_strings (l : list string) :
  (if decide (NoDup l) then true else false) = true -> NoDup l.
Proof. destruct (decide (NoDup l)); [tauto|discriminate]. Qed.

Lemma registered_distinct_properties (name : string) (k : ComponentClass.t) :
  Registry.COMPONENT_REGISTRY !! name = Some k -> distinct_properties k.
Proof.
  intros H. apply registered_classes in H. destruct H as [_ H].
  unfold distinct_properties. simpl in H.
  repeat (destruct H as [<-|H]; [apply NoDup_strings; vm_compute; reflexivity|]).
  destruct H.
Qed.

Lemma registered_default_size (name : string) (k : ComponentClass.t) :
  Registry.COMPONENT_REGISTRY !! name = Some k ->
  exists w h, ComponentClass.default_width k = Some w /\
              ComponentClass.default_height k = Some h.
Proof.
  intros H. apply registered_classes in H. destruct H as [_ H]. simpl in H.
  repeat (destruct H as [<-|H]; [eexists _, _; split; reflexivity|]).
  destruct H.
Qed.

(** What [create_component] returns for a registered type. *)
Lemma create_component_registered (registry : gmap string ComponentClass.t)
    (component_type : string) (k : ComponentClass.t) (x y : Z)
    (width height : option Z) (e : Env.t) :
  registry !! component_type = Some k ->
  Registry.create_component registry component_type x y width height e =
  (Ok (Some
     (BaseComponent.mk k (Env.uuid_text (Env.uuid_drawn e)) x y
        (match width with
         | Some w => w
         | None => default 100 (ComponentClass.default_width k)
         end)
        (match height with
         | Some h => h
         | None => default 40 (ComponentClass.default_height k)
         end)
        None []
        (BaseComponent.default_properties (ComponentClass.get_properties k)) [])),
   Env.mk (S (Env.uuid_drawn e)) (Env.clock_reads e)).
Proof. intros H. unfold Registry.create_component. rewrite H. reflexivity. Qed.

(** [create_component] on a type that is not registered: the call returns
    [None]; it raises nothing. *)
Lemma create_component_unknown_returns_none :
  Registry.COMPONENT_REGISTRY !! "slider" = None /\
  Registry.create_component Registry.COMPONENT_REGISTRY "slider" 0 0 None None
    (Env.mk 0 0) = (Ok None, Env.mk 0 0).
Proof. split; vm_compute; reflexivity. Qed.

(** C6, as the code has it. For a registered type, [create_component]
    returns a component of the registered class, at the given position,
    whose id is the uuid drawn for it (different from every other uuid the
    source hands out), whose width and height are the arguments given or,
    for one not given, the default the class declares, and whose
    properties are exactly the declared ones, each at its declared
    default. For a type that is not registered it returns [None]: no
    component is made, no uuid is drawn and nothing is raised. *)
Theorem create_component_contract (component_type : string) (x y : Z)
    (width height : option Z) (e : Env.t) :
  (forall k, Registry.COMPONENT_REGISTRY !! component_type = Some k ->
     exists c dw dh,
       Registry.create_component Registry.COMPONENT_REGISTRY component_type
         x y width height e
       = (Ok (Some c), Env.mk (S (Env.uuid_drawn e)) (Env.clock_reads e)) /\
       BaseComponent.cls c = k /\
       ComponentClass.component_type k = component_type /\
       BaseComponent.id c = Env.uuid_text (Env.uuid_drawn e) /\
       (forall n, n <> Env.uuid_drawn e -> Env.uuid_text n <> BaseComponent.id c) /\
       BaseComponent.x c = x /\ BaseComponent.y c = y /\
       ComponentClass.default_width k = Some dw /\
       ComponentClass.default_height k = Some dh /\
       BaseComponent.width c = default dw width /\
       BaseComponent.height c = default dh height /\
       BaseComponent.parent_id c = None /\ BaseComponent.children c = [] /\
       dict_keys (BaseComponent._properties c)
       = property_names (ComponentClass.get_properties k) /\
       (forall p, In p (ComponentClass.get_properties k) ->
          BaseComponent.get_property c (ComponentProperty.name p)
          = ComponentProperty.default_value p)) /\
  (Registry.COMPONENT_REGISTRY !! component_type = None ->
     Registry.create_component Registry.COMPONENT_REGISTRY component_type
       x y width height e = (Ok None, e)).
Proof.
  split.
  - intros k Hk.
    destruct (registered_default_size _ _ Hk) as (dw & dh & Hw & Hh).
    pose proof (registered_distinct_properties _ _ Hk) as Hnd.
    eexists _, dw, dh. rewrite (create_component_registered _ _ _ _ _ _ _ _ Hk).
    split; [reflexivity|]. simpl. rewrite Hw, Hh. simpl.
    repeat match goal with |- _ /\ _ => split end; try reflexivity.
    + exact (proj1 (registered_classes _ _ Hk)).
    + intros n Hn E. apply Hn. exact (uuid_text_inj _ _ E).
    + apply default_properties_keys. exact Hnd.
    + intros p Hp. unfold BaseComponent.get_property, dict_get_default. simpl.
      rewrite (default_properties_get _ _ Hnd Hp). reflexivity.
  - intros Hk. unfold Registry.create_component. rewrite Hk. reflexivity.
Qed.

(** A button created at (10, 10): 120 by 40, its text "Button"; and a
    type that is not registered. *)
Lemma create_component_contract_witness :
  (exists c dw dh,
    Registry.create_component Registry.COMPONENT_REGISTRY "button" 10 10 None None
      (Env.mk 0 0) = (Ok (Some c), Env.mk 1 0) /\
    BaseComponent.cls c = Widgets.ButtonComponent /\
    ComponentClass.component_type Widgets.ButtonComponent = "button" /\
    BaseComponent.id c = Env.uuid_text 0 /\
    (forall n, n <> 0%nat -> Env.uuid_text n <> BaseComponent.id c) /\
    BaseComponent.x c = 10 /\ BaseComponent.y c = 10 /\
    ComponentClass.default_width Widgets.ButtonComponent = Some dw /\
    ComponentClass.default_height Widgets.ButtonComponent = Some dh /\
    BaseComponent.width c = default dw None /\
    BaseComponent.height c = default dh None /\
    BaseComponent.parent_id c = None /\ BaseComponent.children c = [] /\
    dict_keys (BaseComponent._properties c)
    = property_names (ComponentClass.get_properties Widgets.ButtonComponent) /\
    (forall p, In p (ComponentClass.get_properties Widgets.ButtonComponent) ->
       BaseComponent.get_property c (ComponentProperty.name p)
       = ComponentProperty.default_value p)) /\
  Registry.create_component Registry.COMPONENT_REGISTRY "slider" 10 10 None None
    (Env.mk 0 0) = (Ok None, Env.mk 0 0).
Proof.
  split.
  - apply (proj1 (create_component_contract "button" 10 10 None None (Env.mk 0 0))
             Widgets.ButtonComponent).
    vm_compute. reflexivity.
  - apply (proj2 (create_component_contract "slider" 10 10 None None (Env.mk 0 0))).
    vm_compute. reflexivity.
Defined.

End Create.

(** ** Serialization *)

Section RoundTrip.
Local Open Scope Z_scope.

Lemma dict_set_middle (a b : dict) (k : string) (v0 v : pyval) :
  ~ In k (dict_keys a) ->
  dict_set (a ++ (k, v0) :: b) k v = a ++ (k, v) :: b.
Proof.
  unfold dict_keys. induction a as [|[k1 v1] a IH]; simpl; intros Hn.
  - rewrite String.eqb_refl. reflexivity.
  - destruct (String.eqb_spec k k1) as [->|_]; [tauto|].
    rewrite IH by tauto. reflexivity.
Qed.

(** Updating a dict with one that has its keys, in its order, and maybe
    more after them, gives the other dict. *)
Lemma dict_update_prefix (other done rest : dict) (extra : list string) :
  dict_keys rest ++ extra = dict_keys other ->
  NoDup (dict_keys done ++ dict_keys other) ->
  dict_update (done ++ rest) other = done ++ other.
Proof.
  unfold dict_update. revert done rest extra.
  induction other as [|[k v] other IH]; intros done rest extra Hk Hnd.
  - destruct rest; [reflexivity|discriminate].
  - simpl. simpl in Hk.
    assert (~ In k (dict_keys done)) as Hkd.
    { intros Hin. apply NoDup_app in Hnd. destruct Hnd as (_ & Hdisj & _).
      apply (Hdisj k); apply list_elem_of_In; [exact Hin|left; reflexivity]. }
    assert (NoDup (dict_keys (done ++ [(k, v)]) ++ dict_keys other)) as Hnd'.
    { unfold dict_keys in *. rewrite map_app, <- app_assoc. exact Hnd. }
    destruct rest as [|[k0 v0] rest].
    + rewrite app_nil_r, dict_keys_set_notin by exact Hkd.
      rewrite <- (app_nil_r (done ++ [(k, v)])).
      rewrite (IH (done ++ [(k, v)]) [] (dict_keys other)); [|reflexivity|exact Hnd'].
      rewrite <- app_assoc. reflexivity.
    + simpl in Hk. injection Hk as -> Hk.
      rewrite dict_set_middle by exact Hkd.
      change (done ++ (k, v) :: rest) with (done ++ [(k, v)] ++ rest).
      rewrite app_assoc, (IH _ rest extra Hk Hnd'), <- app_assoc. reflexivity.
Qed.

Lemma dict_get_update_notin (other d : dict) (k : string) :
  ~ In k (dict_keys other) -> dict_get (dict_update d other) k = dict_get d k.
Proof.
  unfold dict_update, dict_keys. revert d.
  induction other as [|[k0 v0] other IH]; intros d Hn; simpl; [reflexivity|].
  simpl in Hn. rewrite IH by tauto. apply dict_get_set_ne. intros ->. tauto.
Qed.


Lemma as_str_list_of_strings (l : list string) :
  as_str_list_of (map PStr l) = Ok l.
Proof. induction l as [|s l IH]; simpl; [reflexivity|]. rewrite IH. reflexivity. Qed.

Lemma as_opt_str_of (o : option string) : as_opt_str (of_opt_str o) = Ok o.
Proof. destruct o; reflexivity. Qed.

(** A component as the class [k] makes them: its properties start with
    the declared ones, in their order, and no key comes twice. *)
Definition shaped (k : ComponentClass.t) (c : BaseComponent.t) : Prop :=
  BaseComponent.cls c = k /\
  NoDup (dict_keys (BaseComponent._properties c)) /\
  exists extra,
    dict_keys (BaseComponent._properties c)
    = property_names (ComponentClass.get_properties k) ++ extra.

(** The component [from_dict] rebuilds: [c] with no event handler. *)
Definition reloaded (c : BaseComponent.t) : BaseComponent.t :=
  BaseComponent.mk (BaseComponent.cls c) (BaseComponent.id c) (BaseComponent.x c)
    (BaseComponent.y c) (BaseComponent.width c) (BaseComponent.height c)
    (BaseComponent.parent_id c) (BaseComponent.children c)
    (BaseComponent._properties c) [].

Lemma init_shaped (k : ComponentClass.t) (x y w h : Z) (e : Env.t) :
  distinct_properties k ->
  exists c e', BaseComponent.__init__ k x y w h e = (Ok c, e') /\ shaped k c.
Proof.
  intros Hnd. eexists _, _. split; [reflexivity|].
  split; [reflexivity|]. simpl.
  rewrite default_properties_keys by exact Hnd. split; [exact Hnd|].
  exists []. rewrite app_nil_r. reflexivity.
Qed.

Lemma set_property_shaped (k : ComponentClass.t) (c : BaseComponent.t)
    (name : string) (value : pyval) :
  shaped k c -> shaped k (BaseComponent.set_property name value c).
Proof.
  intros (Hc & Hnd & extra & Hk). split; [exact Hc|]. simpl.
  destruct (in_dec string_dec name (dict_keys (BaseComponent._properties c))) as [Hin|Hn].
  - rewrite dict_keys_set_in by exact Hin. split; [exact Hnd|]. exists extra. exact Hk.
  - rewrite dict_keys_set_notin by exact Hn. unfold dict_keys in *.
    rewrite map_app. simpl. split.
    + apply NoDup_app. split; [exact Hnd|]. split; [|apply NoDup_singleton].
      intros s Hs Hs'. apply list_elem_of_In in Hs, Hs'. destruct Hs' as [<-|[]].
      exact (Hn Hs).
    + exists (extra ++ [name]). rewrite Hk, app_assoc. reflexivity.
Qed.

Lemma component_round_trip (k : ComponentClass.t) (c : BaseComponent.t) (e : Env.t) :
  distinct_properties k -> shaped k c ->
  BaseComponent.from_dict k (BaseComponent.to_dict c) e
  = (Ok (reloaded c), Env.mk (S (Env.uuid_drawn e)) (Env.clock_reads e)).
Proof.
  intros Hd (Hc & Hnd & extra & Hk).
  unfold BaseComponent.from_dict, BaseComponent.to_dict, bind, pure_of,
    dict_get_default, BaseComponent.__init__, Env.uuid4_str, ret.
  cbn [dict_get String.eqb Ascii.eqb Bool.eqb as_int as_str as_dict as_str_list].
  rewrite as_opt_str_of, as_str_list_of_strings. unfold bind. cbn beta iota.
  cbn [BaseComponent._properties BaseComponent.set_properties BaseComponent.set_children
       BaseComponent.set_parent_id BaseComponent.set_id BaseComponent.cls BaseComponent.id
       BaseComponent.x BaseComponent.y BaseComponent.width BaseComponent.height
       BaseComponent.parent_id BaseComponent.children BaseComponent._event_handlers].
  pose proof (dict_update_prefix (BaseComponent._properties c) []
                (BaseComponent.default_properties (ComponentClass.get_properties k))
                extra) as Hu.
  simpl in Hu. rewrite Hu.
  - unfold reloaded. rewrite Hc. reflexivity.
  - rewrite default_properties_keys by exact Hd. symmetry. exact Hk.
  - exact Hnd.
Qed.






(** *** A document to try it on: two pages, five components of five
    classes, every one with a property off its default. *)







End RoundTrip.

(** ** The command history *)

Section History.
Local Open Scope Z_scope.
Import CommandStack.

(** The [max_size] most recent entries of a stack. *)
Definition recent (max_size : Z) (stack : list Command.t) : list Command.t :=
  drop (length stack - Z.to_nat max_size) stack.

Lemma limit_recent (max_size : Z) (stack : list Command.t) :
  0 <= max_size -> limit max_size stack = (Ok tt, recent max_size stack).
Proof.
  intros Hm. unfold recent. induction stack as [|c rest IH].
  - cbn [limit drop length]. destruct (Z.gtb_spec (Z.of_nat 0) max_size); [lia|reflexivity].
  - cbn [limit]. destruct (Z.gtb_spec (Z.of_nat (length (c :: rest))) max_size) as [Hgt|Hle].
    + rewrite IH. simpl length in *.
      replace (S (length rest) - Z.to_nat max_size)%nat
        with (S (length rest - Z.to_nat max_size))%nat by lia.
      reflexivity.
    + simpl length in *.
      replace (S (length rest) - Z.to_nat max_size)%nat with 0%nat by lia.
      reflexivity.
Qed.

Lemma recent_length (max_size : Z) (stack : list Command.t) :
  (length (recent max_size stack) <= Z.to_nat max_size)%nat.
Proof. unfold recent. rewrite length_drop. lia. Qed.

Lemma recent_short (max_size : Z) (stack : list Command.t) :
  (length stack <= Z.to_nat max_size)%nat -> recent max_size stack = stack.
Proof.
  intros H. unfold recent.
  replace (length stack - Z.to_nat max_size)%nat with 0%nat by lia. reflexivity.
Qed.

Lemma recent_recent_app (max_size : Z) (l l' : list Command.t) :
  recent max_size (recent max_size l ++ l') = recent max_size (l ++ l').
Proof.
  unfold recent. rewrite !length_app, length_drop.
  destruct (Nat.le_gt_cases (length l) (Z.to_nat max_size)) as [Hle|Hgt].
  - replace (length l - Z.to_nat max_size)%nat with 0%nat by lia.
    rewrite drop_0, Nat.sub_0_r. reflexivity.
  - set (k := (length l - Z.to_nat max_size)%nat).
    replace (length l - k + length l' - Z.to_nat max_size)%nat with (length l') by lia.
    replace (length l + length l' - Z.to_nat max_size)%nat with (k + length l')%nat by lia.
    rewrite <- drop_drop. f_equal. rewrite drop_app_le by lia. reflexivity.
Qed.

Lemma pop_snoc (stack : list Command.t) (command : Command.t) :
  pop (stack ++ [command]) = Some (stack, command).
Proof. unfold pop. rewrite last_snoc, removelast_last. reflexivity. Qed.

Lemma pop_Some (stack rest : list Command.t) (command : Command.t) :
  pop stack = Some (rest, command) -> stack = rest ++ [command].
Proof.
  destruct stack as [|c l _] using rev_ind; [discriminate|].
  rewrite pop_snoc. intros [= <- <-]. reflexivity.
Qed.

Lemma pop_None (stack : list Command.t) : pop stack = None -> stack = [].
Proof.
  destruct stack as [|c l _] using rev_ind; [reflexivity|].
  rewrite pop_snoc. discriminate.
Qed.

(** *** What one call does *)

Lemma execute_ignored (command : Command.t) (u r : list Command.t) (m : Z) (w : World.t) :
  execute command (mk u r m true, w) = (Ok tt, (mk u r m true, w)).
Proof. reflexivity. Qed.

Lemma execute_raises (command : Command.t) (u r : list Command.t) (m : Z)
    (w w' : World.t) (e : exn) :
  Command.execute command w = (Raise e, w') ->
  execute command (mk u r m false, w) = (Raise e, (mk u r m false, w')).
Proof.
  intros H. unfold execute, bind, get, try_finally, on_stack, modify, run, zoom.
  simpl. rewrite H. reflexivity.
Qed.

Lemma execute_returns (command : Command.t) (u r : list Command.t) (m : Z)
    (w w' : World.t) :
  0 <= m ->
  Command.execute command w = (Ok tt, w') ->
  execute command (mk u r m false, w)
  = (Ok tt, (mk (recent m (u ++ [command])) [] m false, w')).
Proof.
  intros Hm H. unfold execute, bind, get, try_finally, on_stack, modify, run, zoom.
  simpl. rewrite H. simpl. rewrite limit_recent by exact Hm. reflexivity.
Qed.

Lemma undo_empty (r : list Command.t) (m : Z) (b : bool) (w : World.t) :
  undo (mk [] r m b, w) = (Ok None, (mk [] r m b, w)).
Proof. reflexivity. Qed.

Lemma redo_empty (u : list Command.t) (m : Z) (b : bool) (w : World.t) :
  redo (mk u [] m b, w) = (Ok None, (mk u [] m b, w)).
Proof. reflexivity. Qed.

Lemma undo_returns (command : Command.t) (u r : list Command.t) (m : Z) (b : bool)
    (w w' : World.t) :
  Command.undo command w = (Ok tt, w') ->
  undo (mk (u ++ [command]) r m b, w)
  = (Ok (Some command), (mk u (r ++ [command]) m b, w')).
Proof.
  intros H. unfold undo, bind, get, on_stack, modify, run, zoom. simpl.
  rewrite pop_snoc. simpl. rewrite H. reflexivity.
Qed.

Lemma undo_raises (command : Command.t) (u r : list Command.t) (m : Z) (b : bool)
    (w w' : World.t) (e : exn) :
  Command.undo command w = (Raise e, w') ->
  undo (mk (u ++ [command]) r m b, w) = (Raise e, (mk u r m b, w')).
Proof.
  intros H. unfold undo, bind, get, on_stack, modify, run, zoom. simpl.
  rewrite pop_snoc. simpl. rewrite H. reflexivity.
Qed.

Lemma redo_returns (command : Command.t) (u r : list Command.t) (m : Z) (b : bool)
    (w w' : World.t) :
  Command.redo command w = (Ok tt, w') ->
  redo (mk u (r ++ [command]) m b, w)
  = (Ok (Some command), (mk (u ++ [command]) r m b, w')).
Proof.
  intros H. unfold redo, bind, get, on_stack, modify, run, zoom. simpl.
  rewrite pop_snoc. simpl. rewrite H. reflexivity.
Qed.

Lemma redo_raises (command : Command.t) (u r : list Command.t) (m : Z) (b : bool)
    (w w' : World.t) (e : exn) :
  Command.redo command w = (Raise e, w') ->
  redo (mk u (r ++ [command]) m b, w) = (Raise e, (mk u r m b, w')).
Proof.
  intros H. unfold redo, bind, get, on_stack, modify, run, zoom. simpl.
  rewrite pop_snoc. simpl. rewrite H. reflexivity.
Qed.

(** *** Calls in a row *)

(** The commands' own code run in a row, without a history. *)
Fixpoint apply_all (commands : list Command.t) (w : World.t) : outcome unit * World.t :=
  match commands with
  | [] => (Ok tt, w)
  | command :: rest =>
      match Command.execute command w with
      | (Ok _, w') => apply_all rest w'
      | (Raise e, w') => (Raise e, w')
      end
  end.

Lemma execute_all_returns (commands u r : list Command.t) (m : Z) (w w' : World.t) :
  0 <= m ->
  (length u <= Z.to_nat m)%nat ->
  apply_all commands w = (Ok tt, w') ->
  execute_all commands (mk u r m false, w)
  = (Ok tt, (mk (recent m (u ++ commands))
               (match commands with [] => r | _ :: _ => [] end) m false, w')).
Proof.
  intros Hm. revert u r w. induction commands as [|c rest IH]; intros u r w Hu H.
  - simpl in H. injection H as <-. simpl. rewrite app_nil_r, recent_short by exact Hu.
    reflexivity.
  - simpl in H. destruct (Command.execute c w) as [[[]|e] w1] eqn:Hc; [|discriminate].
    cbn [execute_all]. unfold bind at 1.
    rewrite (execute_returns c u r m w w1 Hm Hc).
    rewrite (IH _ [] w1 (recent_length _ _) H).
    rewrite recent_recent_app, <- app_assoc. simpl.
    destruct rest; reflexivity.
Qed.

(** The commands a history still holds, oldest first: the undo stack, then
    the redo stack from its top down. *)
Definition held (s : CommandStack.t) : list Command.t :=
  _undo_stack s ++ rev (_redo_stack s).

(** What a call handed back, if it handed back a command. *)
Definition handed_back (r : outcome (option Command.t)) : list Command.t :=
  match r with
  | Ok (Some command) => [command]
  | _ => []
  end.

Lemma undo_holds (s : CommandStack.t) (w : World.t) :
  forall r s' w', undo (s, w) = (r, (s', w')) ->
    held s' `sublist_of` held s /\ handed_back r `sublist_of` held s.
Proof.
  intros r s' w'. destruct s as [u rd m b]. unfold held. simpl.
  destruct (pop u) as [[rest c]|] eqn:Hp.
  - apply pop_Some in Hp. subst u.
    destruct (Command.undo c w) as [[[]|e] w1] eqn:Hc.
    + rewrite (undo_returns c rest rd m b w w1 Hc). intros [= <- <- <-]. simpl.
      rewrite rev_app_distr, <- app_assoc. simpl. split; [reflexivity|].
      apply singleton_sublist_l. set_solver.
    + rewrite (undo_raises c rest rd m b w w1 e Hc). intros [= <- <- <-]. simpl.
      split; [|apply sublist_nil_l].
      rewrite <- app_assoc. apply sublist_app; [reflexivity|].
      apply sublist_inserts_l. reflexivity.
  - apply pop_None in Hp. subst u. rewrite undo_empty. intros [= <- <- <-]. simpl.
    split; [reflexivity|apply sublist_nil_l].
Qed.

Lemma redo_holds (s : CommandStack.t) (w : World.t) :
  forall r s' w', redo (s, w) = (r, (s', w')) ->
    held s' `sublist_of` held s /\ handed_back r `sublist_of` held s.
Proof.
  intros r s' w'. destruct s as [u rd m b]. unfold held. simpl.
  destruct (pop rd) as [[rest c]|] eqn:Hp.
  - apply pop_Some in Hp. subst rd.
    destruct (Command.redo c w) as [[[]|e] w1] eqn:Hc.
    + rewrite (redo_returns c u rest m b w w1 Hc). intros [= <- <- <-]. simpl.
      rewrite rev_app_distr, <- app_assoc. simpl. split; [reflexivity|].
      apply singleton_sublist_l. set_solver.
    + rewrite (redo_raises c u rest m b w w1 e Hc). intros [= <- <- <-]. simpl.
      split; [|apply sublist_nil_l].
      rewrite rev_app_distr. simpl. apply sublist_app; [reflexivity|].
      apply sublist_cons. reflexivity.
  - apply pop_None in Hp. subst rd. rewrite redo_empty. intros [= <- <- <-]. simpl.
    split; [reflexivity|apply sublist_nil_l].
Qed.

Lemma calls_hold (cs : list call) (s : CommandStack.t) (w : World.t) :
  forall rs s' w', calls cs (s, w) = (rs, (s', w')) ->
    held s' `sublist_of` held s /\
    Forall (fun r => handed_back r `sublist_of` held s) rs.
Proof.
  revert s w. induction cs as [|c cs IH]; intros s w rs s' w'.
  - simpl. intros [= <- <- <-]. split; [reflexivity|constructor].
  - cbn [calls].
    destruct (match c with Undo => undo (s, w) | Redo => redo (s, w) end)
      as [r [s1 w1]] eqn:Hstep.
    destruct (calls cs (s1, w1)) as [rs1 [s2 w2]] eqn:Hrest.
    intros [= <- <- <-].
    assert (held s1 `sublist_of` held s /\ handed_back r `sublist_of` held s) as [H1 H2].
    { destruct c; [exact (undo_holds _ _ _ _ _ Hstep)|exact (redo_holds _ _ _ _ _ Hstep)]. }
    destruct (IH _ _ _ _ _ Hrest) as [H3 H4]. split.
    + etransitivity; eassumption.
    + constructor; [exact H2|].
      eapply Forall_impl; [exact H4|]. intros x Hx. simpl in Hx.
      etransitivity; eassumption.
Qed.

(** C3. [execute] of a command that returns pushes it onto the undo stack,
    empties the redo stack and, when the stack then exceeds the cap, drops
    entries from its old end until it does not: one entry, the oldest, for
    a stack that was within the cap.  So a [redo] right after it returns
    [None].  After 150 commands on a fresh history with the default cap of
    100, the undo stack is the 100 most recent commands in their order, and
    whatever [undo] and [redo] calls follow, also ones that raise, the
    history holds and hands back only commands among those 100. *)
Theorem history_is_bounded_and_redo_invalidated :
  (forall command u r m w w',
     0 <= m -> (length u <= Z.to_nat m)%nat ->
     Command.execute command w = (Ok tt, w') ->
     exists u',
       execute command (CommandStack.mk u r m false, w)
       = (Ok tt, (CommandStack.mk u' [] m false, w')) /\
       ((length u < Z.to_nat m)%nat -> u' = u ++ [command]) /\
       (length u = Z.to_nat m -> u' = drop 1 (u ++ [command])) /\
       (length u' <= Z.to_nat m)%nat /\
       redo (CommandStack.mk u' [] m false, w')
       = (Ok None, (CommandStack.mk u' [] m false, w'))) /\
  (forall commands w w',
     length commands = 150%nat ->
     apply_all commands w = (Ok tt, w') ->
     execute_all commands (CommandStack.new default_max_size, w)
     = (Ok tt, (CommandStack.mk (drop 50 commands) [] 100 false, w')) /\
     length (drop 50 commands) = 100%nat /\
     forall cs rs s'' w'',
       calls cs (CommandStack.mk (drop 50 commands) [] 100 false, w')
       = (rs, (s'', w'')) ->
       held s'' `sublist_of` drop 50 commands /\
       Forall (fun r => handed_back r `sublist_of` drop 50 commands) rs).
Proof.
  split.
  - intros command u r m w w' Hm Hu Hc.
    exists (recent m (u ++ [command])).
    rewrite (execute_returns command u r m w w' Hm Hc).
    split; [reflexivity|]. split; [|split; [|split]].
    + intros Hlt. apply recent_short. rewrite length_app. simpl. lia.
    + intros Heq. unfold recent. rewrite length_app. simpl.
      replace (length u + 1 - Z.to_nat m)%nat with 1%nat by lia. reflexivity.
    + apply recent_length.
    + apply redo_empty.
  - intros commands w w' Hlen Hrun.
    assert (recent 100 commands = drop 50 commands) as Hrec.
    { unfold recent. rewrite Hlen. reflexivity. }
    split; [|split].
    + unfold CommandStack.new, default_max_size.
      rewrite (execute_all_returns commands [] [] 100 w w'); [|lia|simpl; lia|exact Hrun].
      simpl. rewrite Hrec. destruct commands; [discriminate|reflexivity].
    + rewrite length_drop, Hlen. reflexivity.
    + intros cs rs s'' w'' Hcalls.
      destruct (calls_hold _ _ _ _ _ _ Hcalls) as [H1 H2].
      unfold held in H1, H2. simpl in H1, H2. rewrite app_nil_r in H1, H2.
      split; [exact H1|].
      eapply Forall_impl; [exact H2|]. intros x Hx. simpl in Hx. exact Hx.
Qed.

End History.

(** ** A failed command *)

Section Failure.
Local Open Scope Z_scope.
Import CommandStack.

(** C5. When the [execute] of a command raises, [CommandStack.execute]
    raises the same exception; the command is not on the undo stack, both
    stacks are as they were, and the guard is down again, so that the next
    [execute] is not ignored: it runs its command and pushes it. *)
Theorem failed_execute_is_not_recorded (command : Command.t) (u r : list Command.t)
    (m : Z) (w w' : World.t) (e : exn) :
  Command.execute command w = (Raise e, w') ->
  execute command (CommandStack.mk u r m false, w)
  = (Raise e, (CommandStack.mk u r m false, w')) /\
  forall next w'',
    0 <= m ->
    Command.execute next w' = (Ok tt, w'') ->
    execute next (CommandStack.mk u r m false, w')
    = (Ok tt, (CommandStack.mk (recent m (u ++ [next])) [] m false, w'')).
Proof.
  intros H. split.
  - exact (execute_raises command u r m w w' e H).
  - intros next w'' Hm Hn. exact (execute_returns next u r m w' w'' Hm Hn).
Qed.

End Failure.

(** ** Undo and redo of edits *)

Section Edits.
Local Open Scope Z_scope.
Import CommandStack.

(** The three commands that edit a component, by their fields. *)
Inductive edit : Type :=
  | Move (component : nat) (old_x old_y new_x new_y : Z)
  | Resize (component : nat) (old_width old_height new_width new_height : Z)
  | Change (component : nat) (property_name : string) (old_value new_value : pyval).

Definition command_of (ed : edit) : Command.t :=
  match ed with
  | Move c ox oy nx ny => Command.MoveComponentCommand c ox oy nx ny
  | Resize c ow oh nw nh => Command.ResizeComponentCommand c ow oh nw nh
  | Change c name old new => Command.ChangePropertyCommand c name old new
  end.

Definition target (ed : edit) : nat :=
  match ed with
  | Move c _ _ _ _ | Resize c _ _ _ _ | Change c _ _ _ => c
  end.

(** What [execute] and [undo] of an edit do to the component. *)
Definition applied (ed : edit) (c : BaseComponent.t) : BaseComponent.t :=
  match ed with
  | Move _ _ _ nx ny => BaseComponent.set_y ny (BaseComponent.set_x nx c)
  | Resize _ _ _ nw nh => BaseComponent.set_height nh (BaseComponent.set_width nw c)
  | Change _ name _ new => BaseComponent.set_property name new c
  end.

Definition reverted (ed : edit) (c : BaseComponent.t) : BaseComponent.t :=
  match ed with
  | Move _ ox oy _ _ => BaseComponent.set_y oy (BaseComponent.set_x ox c)
  | Resize _ ow oh _ _ => BaseComponent.set_height oh (BaseComponent.set_width ow c)
  | Change _ name old _ => BaseComponent.set_property name old c
  end.

(** The old values of an edit are those of the component: what the
    command "captured" is what was there. *)
Definition captured_on (ed : edit) (c : BaseComponent.t) : Prop :=
  match ed with
  | Move _ ox oy _ _ => BaseComponent.x c = ox /\ BaseComponent.y c = oy
  | Resize _ ow oh _ _ => BaseComponent.width c = ow /\ BaseComponent.height c = oh
  | Change _ name old _ => BaseComponent.get_property c name = old
  end.

(** The world after a component was changed in place. *)
Definition changed (l : nat) (f : BaseComponent.t -> BaseComponent.t) (w : World.t)
    : World.t :=
  World.set_heap (alter f l (World.heap w)) w.

Definition captured (ed : edit) (w : World.t) : Prop :=
  exists c, World.heap w !! target ed = Some c /\ captured_on ed c.

(** Every edit of a sequence captured the state it was executed in. *)
Fixpoint captured_all (edits : list edit) (w : World.t) : Prop :=
  match edits with
  | [] => True
  | ed :: rest => captured ed w /\ captured_all rest (changed (target ed) (applied ed) w)
  end.

Definition applied_all (edits : list edit) (w : World.t) : World.t :=
  fold_left (fun w ed => changed (target ed) (applied ed) w) edits w.

Definition reverted_all (edits : list edit) (w : World.t) : World.t :=
  fold_right (fun ed w => changed (target ed) (reverted ed) w) w edits.

(** Two components that cannot be told apart: the same attributes, and
    the same answer of [get_property] for every name. *)
Definition same (c c' : BaseComponent.t) : Prop :=
  BaseComponent.cls c = BaseComponent.cls c' /\
  BaseComponent.id c = BaseComponent.id c' /\
  BaseComponent.x c = BaseComponent.x c' /\
  BaseComponent.y c = BaseComponent.y c' /\
  BaseComponent.width c = BaseComponent.width c' /\
  BaseComponent.height c = BaseComponent.height c' /\
  BaseComponent.parent_id c = BaseComponent.parent_id c' /\
  BaseComponent.children c = BaseComponent.children c' /\
  BaseComponent._event_handlers c = BaseComponent._event_handlers c' /\
  forall name, BaseComponent.get_property c name = BaseComponent.get_property c' name.

(** Two states of the editor that cannot be told apart. *)
Definition alike (w w' : World.t) : Prop :=
  World.env w = World.env w' /\
  World._project w = World._project w' /\
  World._current_page_id w = World._current_page_id w' /\
  World._selection w = World._selection w' /\
  World._grid_snap w = World._grid_snap w' /\
  World._grid_size w = World._grid_size w' /\
  World._components w = World._components w' /\
  forall l, option_Forall2 same (World.heap w !! l) (World.heap w' !! l).

Lemma same_refl (c : BaseComponent.t) : same c c.
Proof. unfold same. repeat split; reflexivity. Qed.

Lemma same_trans (a b c : BaseComponent.t) : same a b -> same b c -> same a c.
Proof.
  unfold same. intros H1 H2.
  destruct H1 as (?&?&?&?&?&?&?&?&?&Hp1), H2 as (?&?&?&?&?&?&?&?&?&Hp2).
  repeat match goal with |- _ /\ _ => split end;
    first [congruence | intros name; rewrite Hp1; apply Hp2].
Qed.

Lemma alike_refl (w : World.t) : alike w w.
Proof.
  unfold alike. repeat match goal with |- _ /\ _ => split end; try reflexivity.
  intros l. destruct (World.heap w !! l); constructor. apply same_refl.
Qed.

Lemma alike_trans (a b c : World.t) : alike a b -> alike b c -> alike a c.
Proof.
  unfold alike. intros H1 H2.
  destruct H1 as (?&?&?&?&?&?&?&Hh1), H2 as (?&?&?&?&?&?&?&Hh2).
  repeat match goal with |- _ /\ _ => split end; try congruence.
  intros l. specialize (Hh1 l). specialize (Hh2 l).
  destruct Hh1 as [x y Hxy|]; inversion Hh2; subst; constructor.
  eapply same_trans; eassumption.
Qed.

Lemma get_property_set (c : BaseComponent.t) (name name' : string) (v : pyval) :
  BaseComponent.get_property (BaseComponent.set_property name v c) name'
  = if String.eqb name name' then v else BaseComponent.get_property c name'.
Proof.
  unfold BaseComponent.get_property, BaseComponent.set_property, dict_get_default. simpl.
  destruct (String.eqb_spec name name') as [->|Hne].
  - rewrite dict_get_set_eq. reflexivity.
  - rewrite dict_get_set_ne by exact Hne. reflexivity.
Qed.

Lemma applied_same (ed : edit) (c c' : BaseComponent.t) :
  same c c' -> same (applied ed c) (applied ed c').
Proof.
  unfold same. intros (?&?&?&?&?&?&?&?&?&Hp).
  destruct ed; cbn [applied];
    repeat match goal with |- _ /\ _ => split end; try assumption; try reflexivity.
  intros name. rewrite !get_property_set, Hp. reflexivity.
Qed.

Lemma reverted_same (ed : edit) (c c' : BaseComponent.t) :
  same c c' -> same (reverted ed c) (reverted ed c').
Proof.
  unfold same. intros (?&?&?&?&?&?&?&?&?&Hp).
  destruct ed; cbn [reverted];
    repeat match goal with |- _ /\ _ => split end; try assumption; try reflexivity.
  intros name. rewrite !get_property_set, Hp. reflexivity.
Qed.

Lemma reverted_applied (ed : edit) (c : BaseComponent.t) :
  captured_on ed c -> same (reverted ed (applied ed c)) c.
Proof.
  unfold same. destruct ed; cbn [reverted applied captured_on].
  - intros [<- <-]. repeat split; reflexivity.
  - intros [<- <-]. repeat split; reflexivity.
  - intros Hc. repeat match goal with |- _ /\ _ => split end; try reflexivity.
    intros name. rewrite !get_property_set.
    destruct (String.eqb_spec property_name name) as [->|_]; [|reflexivity].
    symmetry. exact Hc.
Qed.

(** *** From the commands to their effect *)

Lemma update_present (l : nat) (f : BaseComponent.t -> BaseComponent.t)
    (w : World.t) (c : BaseComponent.t) :
  World.heap w !! l = Some c -> World.update l f w = (Ok tt, changed l f w).
Proof.
  intros H. unfold World.update, changed. rewrite H. do 2 f_equal.
  apply map_eq. intros i. rewrite lookup_insert, lookup_alter.
  case_decide; [subst; rewrite H|]; reflexivity.
Qed.

Lemma update_absent (l : nat) (f : BaseComponent.t -> BaseComponent.t) (w : World.t) :
  World.heap w !! l = None -> World.update l f w = (Raise AttributeError, w).
Proof. intros H. unfold World.update. rewrite H. reflexivity. Qed.

Lemma changed_lookup (l l' : nat) (f : BaseComponent.t -> BaseComponent.t) (w : World.t) :
  World.heap (changed l f w) !! l'
  = if decide (l = l') then f <$> World.heap w !! l else World.heap w !! l'.
Proof. unfold changed. simpl. apply lookup_alter. Qed.

Lemma changed_twice (l : nat) (f g : BaseComponent.t -> BaseComponent.t) (w : World.t) :
  changed l g (changed l f w) = changed l (fun c => g (f c)) w.
Proof.
  unfold changed. simpl. unfold World.set_heap. simpl. f_equal.
  apply alter_alter_eq.
Qed.

Lemma update_twice (l : nat) (f g : BaseComponent.t -> BaseComponent.t)
    (w : World.t) (c : BaseComponent.t) :
  World.heap w !! l = Some c ->
  bind (World.update l f) (fun _ => World.update l g) w
  = (Ok tt, changed l (fun c => g (f c)) w).
Proof.
  intros H. unfold bind. rewrite (update_present l f w c H).
  rewrite (update_present l g _ (f c)).
  - rewrite changed_twice. reflexivity.
  - rewrite changed_lookup. case_decide; [|congruence]. rewrite H. reflexivity.
Qed.

Lemma execute_edit (ed : edit) (w : World.t) (c : BaseComponent.t) :
  World.heap w !! target ed = Some c ->
  Command.execute (command_of ed) w = (Ok tt, changed (target ed) (applied ed) w).
Proof.
  intros H. destruct ed; simpl in H |- *.
  - exact (update_twice _ _ _ _ _ H).
  - exact (update_twice _ _ _ _ _ H).
  - exact (update_present _ _ _ _ H).
Qed.

Lemma redo_edit (ed : edit) (w : World.t) (c : BaseComponent.t) :
  World.heap w !! target ed = Some c ->
  Command.redo (command_of ed) w = (Ok tt, changed (target ed) (applied ed) w).
Proof.
  intros H. destruct ed; simpl in H |- *.
  - exact (update_twice _ _ _ _ _ H).
  - exact (update_twice _ _ _ _ _ H).
  - exact (update_present _ _ _ _ H).
Qed.

Lemma undo_edit (ed : edit) (w : World.t) (c : BaseComponent.t) :
  World.heap w !! target ed = Some c ->
  Command.undo (command_of ed) w = (Ok tt, changed (target ed) (reverted ed) w).
Proof.
  intros H. destruct ed; simpl in H |- *.
  - exact (update_twice _ _ _ _ _ H).
  - exact (update_twice _ _ _ _ _ H).
  - exact (update_present _ _ _ _ H).
Qed.

(** The components the edits refer to are there. *)
Definition present (edits : list edit) (w : World.t) : Prop :=
  Forall (fun ed => is_Some (World.heap w !! target ed)) edits.

Lemma present_changed (edits : list edit) (l : nat)
    (f : BaseComponent.t -> BaseComponent.t) (w : World.t) :
  present edits w -> present edits (changed l f w).
Proof.
  unfold present. intros H. eapply Forall_impl; [exact H|].
  intros ed [c Hc]. cbv beta. rewrite changed_lookup.
  case_decide; [subst; rewrite Hc|rewrite Hc]; eauto.
Qed.

Lemma captured_present (edits : list edit) (w : World.t) :
  captured_all edits w -> present edits w.
Proof.
  revert w. induction edits as [|ed rest IH]; intros w H; [constructor|].
  destruct H as [(c & Hc & _) Hrest]. constructor; [eauto|].
  specialize (IH _ Hrest). unfold present in *.
  eapply Forall_impl; [exact IH|]. intros ed' [c' Hc']. cbv beta.
  rewrite changed_lookup in Hc'.
  destruct (decide (target ed = target ed')) as [E|E]; [|eauto].
  rewrite <- E. eauto.
Qed.

Lemma present_applied_all (edits edits' : list edit) (w : World.t) :
  present edits' w -> present edits' (applied_all edits w).
Proof.
  revert w. induction edits as [|ed rest IH]; intros w H; [exact H|].
  simpl. apply IH, present_changed, H.
Qed.

Lemma present_reverted_all (edits edits' : list edit) (w : World.t) :
  present edits' w -> present edits' (reverted_all edits w).
Proof.
  induction edits as [|ed rest IH]; intros H; [exact H|].
  simpl. apply present_changed, IH, H.
Qed.

Lemma apply_all_edits (edits : list edit) (w : World.t) :
  present edits w ->
  apply_all (map command_of edits) w = (Ok tt, applied_all edits w).
Proof.
  revert w. induction edits as [|ed rest IH]; intros w H; [reflexivity|].
  inversion H as [|? ? [c Hc] Hrest]; subst. cbn [map apply_all].
  rewrite (execute_edit ed w c Hc). apply IH, present_changed, Hrest.
Qed.

Lemma times_undo_edits (edits : list edit) (u r : list Command.t) (m : Z) (b : bool)
    (w : World.t) :
  present edits w ->
  times (length edits) undo (CommandStack.mk (u ++ map command_of edits) r m b, w)
  = (Ok (map (fun ed => Some (command_of ed)) (rev edits)),
     (CommandStack.mk u (r ++ map command_of (rev edits)) m b, reverted_all edits w)).
Proof.
  revert r w. induction edits as [|ed rest IH] using rev_ind; intros r w H.
  - simpl. rewrite !app_nil_r. reflexivity.
  - apply Forall_app in H. destruct H as [Hrest Hed].
    inversion Hed as [|? ? [c Hc] _]; subst.
    rewrite length_app, Nat.add_1_r, map_app, app_assoc, rev_app_distr.
    cbn [times map rev app]. unfold bind at 1.
    rewrite (undo_returns _ _ _ _ _ _ _ (undo_edit ed w c Hc)).
    unfold bind at 1. rewrite (IH (r ++ [command_of ed]) _ (present_changed _ _ _ _ Hrest)).
    unfold ret, reverted_all. rewrite fold_right_app, <- app_assoc. reflexivity.
Qed.

Lemma times_redo_edits (edits : list edit) (u r : list Command.t) (m : Z) (b : bool)
    (w : World.t) :
  present edits w ->
  times (length edits) redo (CommandStack.mk u (r ++ map command_of (rev edits)) m b, w)
  = (Ok (map (fun ed => Some (command_of ed)) edits),
     (CommandStack.mk (u ++ map command_of edits) r m b, applied_all edits w)).
Proof.
  revert u w. induction edits as [|ed rest IH]; intros u w H.
  - simpl. rewrite !app_nil_r. reflexivity.
  - inversion H as [|? ? [c Hc] Hrest]; subst.
    cbn [length times rev]. rewrite map_app, app_assoc. cbn [map].
    unfold bind at 1. rewrite (redo_returns _ _ _ _ _ _ _ (redo_edit ed w c Hc)).
    unfold bind at 1. rewrite (IH (u ++ [command_of ed]) _ (present_changed _ _ _ _ Hrest)).
    unfold ret. rewrite <- app_assoc. reflexivity.
Qed.

(** *** What cannot be told apart stays so *)

Lemma changed_alike (l : nat) (f : BaseComponent.t -> BaseComponent.t) (w w' : World.t) :
  (forall c c', same c c' -> same (f c) (f c')) ->
  alike w w' -> alike (changed l f w) (changed l f w').
Proof.
  intros Hf (?&?&?&?&?&?&?&Hh). unfold alike.
  repeat match goal with |- _ /\ _ => split end; try assumption.
  intros i. rewrite !changed_lookup. case_decide; [|apply Hh].
  destruct (Hh l); constructor. apply Hf. assumption.
Qed.

Lemma applied_all_alike (edits : list edit) (w w' : World.t) :
  alike w w' -> alike (applied_all edits w) (applied_all edits w').
Proof.
  revert w w'. induction edits as [|ed rest IH]; intros w w' H; [exact H|].
  simpl. apply IH, changed_alike; [apply applied_same|exact H].
Qed.

Lemma revert_apply_alike (ed : edit) (w : World.t) :
  captured ed w ->
  alike (changed (target ed) (reverted ed) (changed (target ed) (applied ed) w)) w.
Proof.
  intros (c & Hc & Hcap). rewrite changed_twice. unfold alike.
  repeat match goal with |- _ /\ _ => split end; try reflexivity.
  intros i. rewrite changed_lookup. case_decide.
  - subst i. rewrite Hc. constructor. apply reverted_applied. exact Hcap.
  - destruct (World.heap w !! i); constructor. apply same_refl.
Qed.

Lemma reverted_all_applied_all (edits : list edit) (w : World.t) :
  captured_all edits w -> alike (reverted_all edits (applied_all edits w)) w.
Proof.
  revert w. induction edits as [|ed rest IH]; intros w H; [apply alike_refl|].
  destruct H as [Hed Hrest]. simpl.
  eapply alike_trans; [|exact (revert_apply_alike ed w Hed)].
  apply changed_alike; [apply reverted_same|]. apply IH. exact Hrest.
Qed.

Lemma recent_app_short (m : Z) (u cs : list Command.t) :
  (length cs <= Z.to_nat m)%nat ->
  recent m (u ++ cs) = drop (length u + length cs - Z.to_nat m) u ++ cs.
Proof.
  intros H. unfold recent. rewrite length_app, drop_app_le by lia. reflexivity.
Qed.

(** The other attributes of a world: all but the heap. *)
Definition same_editor (w w' : World.t) : Prop :=
  World.env w = World.env w' /\
  World._project w = World._project w' /\
  World._current_page_id w = World._current_page_id w' /\
  World._selection w = World._selection w' /\
  World._grid_snap w = World._grid_snap w' /\
  World._grid_size w = World._grid_size w' /\
  World._components w = World._components w'.

Lemma undo_edit_frame (ed : edit) (w : World.t) (c : BaseComponent.t) :
  World.heap w !! target ed = Some c ->
  exists w',
    Command.undo (command_of ed) w = (Ok tt, w') /\
    World.heap w' !! target ed = Some (reverted ed c) /\
    (forall l, l <> target ed -> World.heap w' !! l = World.heap w !! l) /\
    same_editor w' w.
Proof.
  intros H. exists (changed (target ed) (reverted ed) w).
  split; [exact (undo_edit ed w c H)|]. split; [|split].
  - rewrite changed_lookup. case_decide; [|congruence]. rewrite H. reflexivity.
  - intros l Hl. rewrite changed_lookup. case_decide; [congruence|reflexivity].
  - unfold same_editor. repeat split; reflexivity.
Qed.

(** C4, as far as it holds. Take Move, Resize and ChangeProperty commands,
    no more of them than the cap of the history, each holding as old
    values what its component has when the command is executed. Executing
    them all, then calling [undo] once for each, undoes them last to first
    and leaves every component with the position, size and properties (as
    [get_property] answers) it had before the first; calling [redo] once
    for each then redoes them first to last and leaves every component as
    it was after the last.  The [undo] of a command writes the fields it
    holds old values for and nothing else: that of a resize writes the
    width and the height of its component; position, properties, the
    other components and the rest of the editor stay as they are, whatever
    was done to them since.  On an empty stack [undo] and [redo] return
    [None] and change nothing. *)
Theorem undo_redo_inverse_within_cap :
  (forall edits u r m w0,
     0 <= m -> (length u <= Z.to_nat m)%nat ->
     (length edits <= Z.to_nat m)%nat ->
     captured_all edits w0 ->
     let cs := map command_of edits in
     let kept := drop (length u + length cs - Z.to_nat m) u in
     let r' := match edits with [] => r | _ :: _ => [] end in
     exists w1 w2 w3,
       execute_all cs (CommandStack.mk u r m false, w0)
       = (Ok tt, (CommandStack.mk (kept ++ cs) r' m false, w1)) /\
       times (length edits) undo (CommandStack.mk (kept ++ cs) r' m false, w1)
       = (Ok (map (fun ed => Some (command_of ed)) (rev edits)),
          (CommandStack.mk kept (r' ++ map command_of (rev edits)) m false, w2)) /\
       alike w2 w0 /\
       times (length edits) redo
         (CommandStack.mk kept (r' ++ map command_of (rev edits)) m false, w2)
       = (Ok (map (fun ed => Some (command_of ed)) edits),
          (CommandStack.mk (kept ++ cs) r' m false, w3)) /\
       alike w3 w1) /\
  (forall ed w c,
     World.heap w !! target ed = Some c ->
     exists w',
       Command.undo (command_of ed) w = (Ok tt, w') /\
       World.heap w' !! target ed = Some (reverted ed c) /\
       (forall l, l <> target ed -> World.heap w' !! l = World.heap w !! l) /\
       same_editor w' w) /\
  (forall l ow oh nw nh c,
     reverted (Resize l ow oh nw nh) c
     = BaseComponent.mk (BaseComponent.cls c) (BaseComponent.id c)
         (BaseComponent.x c) (BaseComponent.y c) ow oh
         (BaseComponent.parent_id c) (BaseComponent.children c)
         (BaseComponent._properties c) (BaseComponent._event_handlers c)) /\
  (forall r m b w,
     undo (CommandStack.mk [] r m b, w) = (Ok None, (CommandStack.mk [] r m b, w))) /\
  (forall u m b w,
     redo (CommandStack.mk u [] m b, w) = (Ok None, (CommandStack.mk u [] m b, w))).
Proof.
  split; [|split; [|split; [|split]]].
  - intros edits u r m w0 Hm Hu Hn Hcap cs kept r'.
    pose proof (captured_present _ _ Hcap) as Hp.
    exists (applied_all edits w0), (reverted_all edits (applied_all edits w0)),
      (applied_all edits (reverted_all edits (applied_all edits w0))).
    assert (recent m (u ++ cs) = kept ++ cs) as Hrec.
    { apply recent_app_short. unfold cs. rewrite length_map. exact Hn. }
    split; [|split; [|split; [|split]]].
    + rewrite (execute_all_returns cs u r m w0 (applied_all edits w0) Hm Hu
                 (apply_all_edits _ _ Hp)).
      rewrite Hrec. unfold r', cs. destruct edits; reflexivity.
    + apply times_undo_edits. apply present_applied_all. exact Hp.
    + apply reverted_all_applied_all. exact Hcap.
    + apply times_redo_edits. apply present_reverted_all, present_applied_all. exact Hp.
    + apply applied_all_alike, reverted_all_applied_all. exact Hcap.
  - exact undo_edit_frame.
  - reflexivity.
  - exact undo_empty.
  - exact redo_empty.
Qed.

End Edits.

(** ** An editing session *)

Section Session.
Local Open Scope Z_scope.
Import CommandStack.

(** The editor after a button was dropped on the empty canvas at (10, 10):
    the button is object 0, on the canvas and selected. *)
Definition editing_world : World.t :=
  snd (CanvasArea.dropEvent Registry.COMPONENT_REGISTRY "button" 10 10 false World.initial).

Definition the_button : BaseComponent.t :=
  BaseComponent.mk Widgets.ButtonComponent (Env.uuid_text 0) 10 10 120 40 None []
    (BaseComponent.default_properties (ComponentClass.get_properties Widgets.ButtonComponent))
    [].

Lemma editing_world_button : World.heap editing_world !! 0%nat = Some the_button.
Proof. vm_compute. reflexivity. Qed.

Lemma editing_world_selection :
  SelectionState.selected_ids (World._selection editing_world) = [Env.uuid_text 0] /\
  CanvasArea.get_component (Env.uuid_text 0) editing_world = Some 0%nat.
Proof. split; vm_compute; reflexivity. Qed.

(** [n] moves of object 0 along the line [y = 10], one unit to the right
    each, the first from [x0]. *)
Fixpoint walk (x0 : Z) (n : nat) : list edit :=
  match n with
  | O => []
  | S n' => Move 0 x0 10 (x0 + 1) 10 :: walk (x0 + 1) n'
  end.

Lemma walk_length (x0 : Z) (n : nat) : length (walk x0 n) = n.
Proof. revert x0. induction n as [|n IH]; intros x0; simpl; [|rewrite IH]; reflexivity. Qed.

Lemma walk_captured (n : nat) (x0 : Z) (w : World.t) (c : BaseComponent.t) :
  World.heap w !! 0%nat = Some c ->
  BaseComponent.x c = x0 -> BaseComponent.y c = 10 ->
  captured_all (walk x0 n) w.
Proof.
  revert x0 w c. induction n as [|n IH]; intros x0 w c Hc Hx Hy; [exact I|].
  cbn [walk captured_all]. split.
  - exists c. split; [exact Hc|]. split; assumption.
  - apply (IH _ _ (applied (Move 0 x0 10 (x0 + 1) 10) c)); [|reflexivity|reflexivity].
    rewrite changed_lookup. cbn [target]. case_decide; [|congruence].
    rewrite Hc. reflexivity.
Qed.

(** The scenario of the specification: a button at (10, 10), 120 by 40,
    its text "Button"; a move to (50, 60); undo, redo; the text changed to
    "Submit"; undo. *)
Definition move_it : Command.t := Command.MoveComponentCommand 0 10 10 50 60.
Definition retitle_it : Command.t :=
  Command.ChangePropertyCommand 0 "text" (PStr "Button") (PStr "Submit").

Definition where_and_text (s : session) : option (Z * Z * pyval) :=
  match World.heap (snd s) !! 0%nat with
  | Some c =>
      Some (BaseComponent.x c, BaseComponent.y c, BaseComponent.get_property c "text")
  | None => None
  end.

Example scenario :
  let s0 := (CommandStack.new default_max_size, editing_world) in
  let s1 := snd (execute move_it s0) in
  let s2 := snd (undo s1) in
  let s3 := snd (redo s2) in
  let s4 := snd (execute retitle_it s3) in
  let s5 := snd (undo s4) in
  where_and_text s0 = Some (10, 10, PStr "Button") /\
  where_and_text s1 = Some (50, 60, PStr "Button") /\
  where_and_text s2 = Some (10, 10, PStr "Button") /\
  where_and_text s3 = Some (50, 60, PStr "Button") /\
  where_and_text s4 = Some (50, 60, PStr "Submit") /\
  where_and_text s5 = Some (50, 60, PStr "Button").
Proof. vm_compute. repeat split; reflexivity. Qed.

(** A move built with old values the button never had: its [undo] writes
    them, and the button is at (0, 0), not back at (10, 10). *)
Example undo_writes_the_old_values_it_holds :
  let s0 := (CommandStack.new default_max_size, editing_world) in
  let s1 := snd (execute (Command.MoveComponentCommand 0 0 0 50 60) s0) in
  let s2 := snd (undo s1) in
  where_and_text s0 = Some (10, 10, PStr "Button") /\
  where_and_text s1 = Some (50, 60, PStr "Button") /\
  where_and_text s2 = Some (0, 0, PStr "Button").
Proof. vm_compute. repeat split; reflexivity. Qed.

(** One [undo] for each of 101 executed moves, on a history with the
    default cap of 100: the first move was evicted, the hundred-first
    [undo] finds the stack empty and returns [None], and the button is
    left at x = 11, not at the 10 it had before the moves. *)
Lemma undo_once_per_execute_stops_at_the_cap :
  captured_all (walk 10 101) editing_world /\
  exists s1 w1 rs s2 w2 before after,
    execute_all (map command_of (walk 10 101))
      (CommandStack.new default_max_size, editing_world) = (Ok tt, (s1, w1)) /\
    times 100 undo (s1, w1) = (Ok rs, (s2, w2)) /\
    undo (s2, w2) = (Ok None, (s2, w2)) /\
    World.heap editing_world !! 0%nat = Some before /\ BaseComponent.x before = 10 /\
    World.heap w2 !! 0%nat = Some after /\ BaseComponent.x after = 11.
Proof.
  assert (captured_all (walk 10 101) editing_world) as Hcap.
  { apply (walk_captured 101 10 _ the_button); [exact editing_world_button| |];
      reflexivity. }
  split; [exact Hcap|].
  pose proof (captured_present _ _ Hcap) as Hp.
  set (w1 := applied_all (walk 10 101) editing_world).
  assert (present (walk 11 100) w1) as Hp1.
  { apply present_applied_all. inversion Hp; assumption. }
  eexists _, w1, _, _, _, the_button, _.
  split; [|split; [|split; [|split; [|split; [|split]]]]].
  - unfold CommandStack.new, default_max_size.
    rewrite (execute_all_returns _ [] [] 100 editing_world w1);
      [reflexivity|lia|simpl; lia|].
    apply apply_all_edits. exact Hp.
  - change (recent 100 ([] ++ map command_of (walk 10 101)))
      with ([] ++ map command_of (walk 11 100)).
    rewrite <- (walk_length 11 100) at 1.
    rewrite (times_undo_edits (walk 11 100) [] _ 100 false w1 Hp1). reflexivity.
  - reflexivity.
  - exact editing_world_button.
  - reflexivity.
  - vm_compute. reflexivity.
  - reflexivity.
Qed.

(** The scenario's two edits, in a fresh history. *)
Definition scenario_edits : list edit :=
  [Move 0 10 10 50 60; Change 0 "text" (PStr "Button") (PStr "Submit")].

Lemma undo_redo_inverse_within_cap_witness :
  (exists w1 w2 w3,
    execute_all (map command_of scenario_edits) (CommandStack.mk [] [] 100 false, editing_world)
    = (Ok tt, (CommandStack.mk ([] ++ map command_of scenario_edits) [] 100 false, w1)) /\
    times 2 undo (CommandStack.mk ([] ++ map command_of scenario_edits) [] 100 false, w1)
    = (Ok (map (fun ed => Some (command_of ed)) (rev scenario_edits)),
       (CommandStack.mk [] ([] ++ map command_of (rev scenario_edits)) 100 false, w2)) /\
    alike w2 editing_world /\
    times 2 redo
      (CommandStack.mk [] ([] ++ map command_of (rev scenario_edits)) 100 false, w2)
    = (Ok (map (fun ed => Some (command_of ed)) scenario_edits),
       (CommandStack.mk ([] ++ map command_of scenario_edits) [] 100 false, w3)) /\
    alike w3 w1) /\
  (exists w',
     Command.undo (command_of (Resize 0 120 40 200 80)) editing_world = (Ok tt, w') /\
     World.heap w' !! 0%nat = Some (reverted (Resize 0 120 40 200 80) the_button) /\
     (forall l, l <> 0%nat -> World.heap w' !! l = World.heap editing_world !! l) /\
     same_editor w' editing_world).
Proof.
  split.
  - apply (proj1 undo_redo_inverse_within_cap scenario_edits [] [] 100 editing_world).
    + lia.
    + simpl. lia.
    + simpl. lia.
    + split; [|split; [|exact I]].
      * eexists. split; [vm_compute; reflexivity|]. split; reflexivity.
      * eexists. split; [vm_compute; reflexivity|]. reflexivity.
  - apply (proj1 (proj2 undo_redo_inverse_within_cap) (Resize 0 120 40 200 80)
             editing_world the_button).
    vm_compute. reflexivity.
Defined.

(** A hundred and fifty moves. *)
Definition long_walk : list Command.t := map command_of (walk 10 150).

Lemma history_is_bounded_and_redo_invalidated_witness :
  (exists u',
     execute move_it (CommandStack.mk [] [retitle_it] 100 false, editing_world)
     = (Ok tt, (CommandStack.mk u' [] 100 false,
                changed 0 (applied (Move 0 10 10 50 60)) editing_world)) /\
     ((length (@nil Command.t) < Z.to_nat 100)%nat -> u' = [] ++ [move_it]) /\
     (length (@nil Command.t) = Z.to_nat 100 -> u' = drop 1 ([] ++ [move_it])) /\
     (length u' <= Z.to_nat 100)%nat /\
     redo (CommandStack.mk u' [] 100 false,
           changed 0 (applied (Move 0 10 10 50 60)) editing_world)
     = (Ok None, (CommandStack.mk u' [] 100 false,
                  changed 0 (applied (Move 0 10 10 50 60)) editing_world))) /\
  execute_all long_walk (CommandStack.new default_max_size, editing_world)
  = (Ok tt, (CommandStack.mk (drop 50 long_walk) [] 100 false,
             applied_all (walk 10 150) editing_world)) /\
  length (drop 50 long_walk) = 100%nat /\
  forall cs rs s'' w'',
    calls cs (CommandStack.mk (drop 50 long_walk) [] 100 false,
              applied_all (walk 10 150) editing_world)
    = (rs, (s'', w'')) ->
    held s'' `sublist_of` drop 50 long_walk /\
    Forall (fun r => handed_back r `sublist_of` drop 50 long_walk) rs.
Proof.
  split.
  - apply (proj1 history_is_bounded_and_redo_invalidated move_it [] [retitle_it] 100
             editing_world).
    + lia.
    + simpl. lia.
    + vm_compute. reflexivity.
  - apply (proj2 history_is_bounded_and_redo_invalidated long_walk editing_world
             (applied_all (walk 10 150) editing_world)).
    + reflexivity.
    + vm_compute. reflexivity.
Defined.

(** A move of an object that is not there: its [execute] raises. *)
Definition stray_move : Command.t := Command.MoveComponentCommand 7 0 0 5 5.

Lemma failed_execute_is_not_recorded_witness :
  execute stray_move (CommandStack.mk [move_it] [retitle_it] 100 false, editing_world)
  = (Raise AttributeError,
     (CommandStack.mk [move_it] [retitle_it] 100 false, editing_world)) /\
  forall next w'',
    0 <= 100 ->
    Command.execute next editing_world = (Ok tt, w'') ->
    execute next (CommandStack.mk [move_it] [retitle_it] 100 false, editing_world)
    = (Ok tt, (CommandStack.mk (recent 100 ([move_it] ++ [next])) [] 100 false, w'')).
Proof.
  apply (failed_execute_is_not_recorded stray_move [move_it] [retitle_it] 100
           editing_world editing_world AttributeError).
  vm_compute. reflexivity.
Defined.

End Session.

(** ** The selection and the canvas *)

Section Selection.
Local Open Scope Z_scope.

Definition selected (w : World.t) : list string :=
  SelectionState.selected_ids (World._selection w).

Definition on_canvas (component_id : string) (w : World.t) : Prop :=
  is_Some (World._components w !! component_id).

(** Every selected id is the id of a component on the canvas. *)
Definition consistent (w : World.t) : Prop :=
  forall component_id, In component_id (selected w) -> on_canvas component_id w.

(** What the user can do on the canvas, each with the handler it reaches:
    drop a component from the palette, press the mouse on a component
    (the wrapper that emits the signal is that of a component on the
    canvas), have the rubber band add a component it touches, press
    Escape or click the empty canvas, press Delete, and choose a page. *)
Inductive gesture (w w' : World.t) : Prop :=
  | Drop (component_type : string) (pos_x pos_y : Z) (shift : bool) (r : outcome unit) :
      CanvasArea.dropEvent Registry.COMPONENT_REGISTRY component_type pos_x pos_y shift w
      = (r, w') -> gesture w w'
  | Press (component_id : string) (shift : bool) (r : outcome unit) :
      on_canvas component_id w ->
      CanvasArea._on_component_selected shift component_id w = (r, w') -> gesture w w'
  | Band (component_id : string) (r : outcome unit) :
      on_canvas component_id w ->
      AppState.select_component component_id true w = (r, w') -> gesture w w'
  | Clear (r : outcome unit) :
      CanvasArea.clear_selection w = (r, w') -> gesture w w'
  | Delete (r : outcome unit) :
      CanvasArea.delete_selected w = (r, w') -> gesture w w'
  | Page (value : option string) (r : outcome unit) :
      AppState.set_current_page_id value w = (r, w') -> gesture w w'.

Lemma is_selected_In (component_id : string) (s : SelectionState.t) :
  SelectionState.is_selected component_id s = true <->
  In component_id (SelectionState.selected_ids s).
Proof.
  unfold SelectionState.is_selected. rewrite existsb_exists. split.
  - intros (x & Hx & E). apply String.eqb_eq in E. subst. exact Hx.
  - intros H. exists component_id. split; [exact H|apply String.eqb_refl].
Qed.

Lemma select_component_selected (component_id : string) (add : bool) (w : World.t) :
  exists w',
    AppState.select_component component_id add w = (Ok tt, w') /\
    World._components w' = World._components w /\
    selected w' =
      (if add then
         if SelectionState.is_selected component_id (World._selection w)
         then selected w else selected w ++ [component_id]
       else [component_id]).
Proof.
  eexists. split; [reflexivity|]. split; [reflexivity|].
  unfold selected. simpl. destruct add; [|reflexivity].
  unfold SelectionState.add_to_selection.
  destruct (SelectionState.is_selected component_id (World._selection w)); reflexivity.
Qed.

Lemma select_component_consistent (component_id : string) (add : bool)
    (w w' : World.t) (r : outcome unit) :
  consistent w -> on_canvas component_id w ->
  AppState.select_component component_id add w = (r, w') -> consistent w'.
Proof.
  intros Hc Hon H.
  destruct (select_component_selected component_id add w) as (w1 & H1 & Hcan & Hsel).
  rewrite H1 in H. injection H as <- <-.
  intros i Hi. unfold on_canvas. rewrite Hcan. rewrite Hsel in Hi.
  destruct add.
  - destruct (SelectionState.is_selected component_id (World._selection w)).
    + apply Hc. exact Hi.
    + apply in_app_or in Hi. destruct Hi as [Hi|[<-|[]]]; [apply Hc; exact Hi|exact Hon].
  - destruct Hi as [<-|[]]. exact Hon.
Qed.

(** The wrappers after [_on_component_selected] marked them. *)
Definition marked (shift : bool) (component_id : string)
    (components : gmap string ComponentWrapper.t) : gmap string ComponentWrapper.t :=
  if shift then
    alter (fun wr => ComponentWrapper.set_selected (negb (ComponentWrapper._is_selected wr)) wr)
      component_id components
  else
    map_imap (fun cid wr =>
                Some (ComponentWrapper.set_selected (String.eqb cid component_id) wr))
      components.

Lemma marked_is_Some (shift : bool) (component_id i : string)
    (components : gmap string ComponentWrapper.t) :
  is_Some (marked shift component_id components !! i) <-> is_Some (components !! i).
Proof.
  unfold marked. destruct shift.
  - rewrite lookup_alter. case_decide; [subst|reflexivity].
    rewrite fmap_is_Some. reflexivity.
  - rewrite map_lookup_imap. destruct (components !! i); simpl; [|reflexivity].
    split; eauto.
Qed.

Lemma on_component_selected_consistent (shift : bool) (component_id : string)
    (w w' : World.t) (r : outcome unit) :
  consistent w -> on_canvas component_id w ->
  CanvasArea._on_component_selected shift component_id w = (r, w') -> consistent w'.
Proof.
  intros Hc Hon H. unfold CanvasArea._on_component_selected, bind, modify in H.
  fold (marked shift component_id (World._components w)) in H.
  eapply (select_component_consistent component_id shift); [| |exact H].
  - intros i Hi. unfold on_canvas. simpl. apply marked_is_Some. apply Hc. exact Hi.
  - unfold on_canvas. simpl. apply marked_is_Some. exact Hon.
Qed.

Lemma remove_each_effect (ids : list string) (w : World.t) :
  exists w',
    CanvasArea.remove_each ids w = (Ok tt, w') /\
    World._selection w' = World._selection w /\
    (forall i, In i ids -> World._components w' !! i = None) /\
    (forall i, World._components w !! i = None -> World._components w' !! i = None).
Proof.
  revert w. induction ids as [|i ids IH]; intros w.
  - exists w. repeat split; [intros ? []|tauto].
  - cbn [CanvasArea.remove_each]. unfold bind at 1.
    unfold CanvasArea.remove_component at 1, modify at 1.
    set (w1 := match World._components w !! i with
               | Some _ => World.set_components (delete i (World._components w)) w
               | None => w
               end).
    assert (World._selection w1 = World._selection w) as Hs1
      by (unfold w1; destruct (World._components w !! i); reflexivity).
    assert (forall j, World._components w1 !! j
                      = if decide (i = j) then None else World._components w !! j) as Hc1.
    { intros j. unfold w1. destruct (World._components w !! i) eqn:E; simpl.
      - rewrite lookup_delete. reflexivity.
      - case_decide; [subst; exact E|reflexivity]. }
    destruct (IH w1) as (w' & Hr & Hs & Hgone & Hkeep).
    exists w'. split; [exact Hr|]. split; [congruence|]. split.
    + intros j [<-|Hj]; [|apply Hgone; exact Hj].
      apply Hkeep. rewrite Hc1. case_decide; [reflexivity|congruence].
    + intros j Hj. apply Hkeep. rewrite Hc1. case_decide; [reflexivity|exact Hj].
Qed.

Lemma delete_selected_effect (w : World.t) :
  exists w',
    CanvasArea.delete_selected w = (Ok tt, w') /\
    selected w' = [] /\
    forall i, In i (selected w) -> World._components w' !! i = None.
Proof.
  destruct (remove_each_effect (selected w) w) as (w1 & Hr & Hs & Hgone & _).
  unfold CanvasArea.delete_selected, bind, get. fold (selected w). rewrite Hr.
  eexists. split; [reflexivity|]. split; [reflexivity|]. exact Hgone.
Qed.

Lemma consistent_ext (w w' : World.t) :
  selected w' = selected w ->
  (forall i, on_canvas i w -> on_canvas i w') ->
  consistent w -> consistent w'.
Proof. intros Hs Hc H i Hi. apply Hc, H. rewrite <- Hs. exact Hi. Qed.

Lemma add_component_allocated (c : BaseComponent.t) (w : World.t) :
  let l := fresh (dom (World.heap w)) in
  let w1 := World.set_heap (<[l := c]> (World.heap w)) w in
  CanvasArea.add_component l w1
  = (Ok tt,
     World.set_components
       (<[BaseComponent.id c := ComponentWrapper.mk l false]> (World._components w1)) w1).
Proof.
  intros l w1. unfold CanvasArea.add_component, bind, World.read, modify.
  unfold w1 at 1. cbn [World.heap World.set_heap]. rewrite lookup_insert_eq. reflexivity.
Qed.

Lemma dropEvent_consistent (component_type : string) (pos_x pos_y : Z) (shift : bool)
    (w w' : World.t) (r : outcome unit) :
  consistent w ->
  CanvasArea.dropEvent Registry.COMPONENT_REGISTRY component_type pos_x pos_y shift w
  = (r, w') -> consistent w'.
Proof.
  intros Hc H. unfold CanvasArea.dropEvent in H. unfold bind at 1, get in H.
  match type of H with
  | bind ?m _ _ = _ => assert (exists o, m w = (o, w)) as [o Ho]
  end.
  { destruct (World._grid_snap w); [|eexists; reflexivity].
    unfold bind, pure_of, ret.
    destruct (Helpers.snap_to_grid pos_x (World._grid_size w)); [|eexists; reflexivity].
    destruct (Helpers.snap_to_grid pos_y (World._grid_size w)); eexists; reflexivity. }
  unfold bind at 1 in H. rewrite Ho in H. clear Ho.
  destruct o as [pos|e]; [|injection H as <- <-; exact Hc].
  unfold bind at 1 in H.
  unfold World.with_env, zoom, Registry.create_component in H.
  destruct (Registry.COMPONENT_REGISTRY !! component_type) as [k|].
  2:{ simpl in H. injection H as <- <-. revert Hc. apply consistent_ext; auto. }
  cbn [BaseComponent.__init__ bind Env.uuid4_str ret] in H.
  match type of H with
  | bind (World.alloc ?c0) _ ?w0 = _ => set (c := c0) in H; set (w1 := w0) in H
  end.
  unfold bind at 1, World.alloc in H. unfold bind at 1 in H.
  rewrite (add_component_allocated c w1) in H.
  eapply (on_component_selected_consistent shift (BaseComponent.id c)); [| |exact H].
  - intros i Hi. unfold on_canvas. cbn [World._components World.set_components].
    rewrite lookup_insert. case_decide; [eauto|]. apply Hc. exact Hi.
  - unfold on_canvas. cbn [World._components World.set_components].
    rewrite lookup_insert_eq. eauto.
Qed.

(** [select_component] with an id that no component on the canvas has: the
    call is not rejected and does something, and the selection is that id. *)
Lemma select_component_takes_any_id :
  ~ on_canvas "ghost" editing_world /\
  consistent editing_world /\
  exists w',
    AppState.select_component "ghost" false editing_world = (Ok tt, w') /\
    selected w' = ["ghost"] /\
    ~ on_canvas "ghost" w' /\
    ~ consistent w'.
Proof.
  assert (~ on_canvas "ghost" editing_world) as Hn.
  { unfold on_canvas. intros [x Hx]. vm_compute in Hx. discriminate. }
  split; [exact Hn|]. split.
  - intros i [<-|[]]. unfold on_canvas. vm_compute. eauto.
  - eexists. split; [reflexivity|]. split; [reflexivity|]. split; [exact Hn|].
    intros Hc. apply Hn. apply (Hc "ghost"). left. reflexivity.
Qed.

(** The command that removes the button from the canvas leaves it selected. *)
Example remove_command_keeps_selection :
  exists w',
    Command.execute (Command.RemoveComponentCommand 0) editing_world = (Ok tt, w') /\
    World._components w' !! Env.uuid_text 0 = None /\
    selected w' = [Env.uuid_text 0].
Proof. eexists. split; [reflexivity|]. split; vm_compute; reflexivity. Qed.

(** C2, as the code has it. Every selected id is the id of a component on
    the canvas in the initial state and after every gesture on the canvas
    made in a state where that holds: a drop, a press or a rubber band on
    a component of the canvas, a clearing of the selection, a deletion of
    the selection, a change of page.  Deleting the selection removes each
    selected component from the canvas and leaves the selection empty.
    [select_component] itself checks nothing: called without
    [add_to_selection] it makes the id it is given the selection, called
    with it it adds the id unless it is selected already, on the canvas or
    not. *)
Theorem selection_consistent_under_gestures :
  consistent World.initial /\
  (forall w w', consistent w -> gesture w w' -> consistent w') /\
  (forall w,
     exists w',
       CanvasArea.delete_selected w = (Ok tt, w') /\
       selected w' = [] /\
       forall i, In i (selected w) -> World._components w' !! i = None) /\
  (forall component_id add w,
     exists w',
       AppState.select_component component_id add w = (Ok tt, w') /\
       World._components w' = World._components w /\
       selected w' =
         (if add then
            if SelectionState.is_selected component_id (World._selection w)
            then selected w else selected w ++ [component_id]
          else [component_id])).
Proof.
  split; [|split; [|split]].
  - intros i [].
  - intros w w' Hc Hg. destruct Hg as [ty x y sh r H|i sh r Hon H|i r Hon H|r H|r H|v r H].
    + exact (dropEvent_consistent _ _ _ _ _ _ _ Hc H).
    + exact (on_component_selected_consistent _ _ _ _ _ Hc Hon H).
    + exact (select_component_consistent _ _ _ _ _ Hc Hon H).
    + unfold CanvasArea.clear_selection, bind, modify in H. simpl in H.
      injection H as <- <-. intros i [].
    + destruct (delete_selected_effect w) as (w1 & H1 & Hs & _).
      rewrite H1 in H. injection H as <- <-. intros i Hi. rewrite Hs in Hi. destruct Hi.
    + unfold AppState.set_current_page_id, modify in H. injection H as <- <-.
      intros i [].
  - exact delete_selected_effect.
  - exact select_component_selected.
Qed.

(** Pressing Shift and the mouse on the button of [editing_world]. *)
Lemma selection_consistent_under_gestures_witness :
  consistent (snd (CanvasArea._on_component_selected true (Env.uuid_text 0) editing_world)).
Proof.
  apply (proj1 (proj2 selection_consistent_under_gestures) editing_world).
  - intros i [<-|[]]. unfold on_canvas. vm_compute. eauto.
  - apply (Press _ _ (Env.uuid_text 0) true (Ok tt)).
    + unfold on_canvas. vm_compute. eauto.
    + reflexivity.
Defined.

End Selection.

(** * More of the engine

    ** The selection state *)

Section SelectionLaws.

Lemma is_selected_false (component_id : string) (s : SelectionState.t) :
  SelectionState.is_selected component_id s = false <->
  ~ In component_id (SelectionState.selected_ids s).
Proof.
  rewrite <- is_selected_In.
  destruct (SelectionState.is_selected component_id s); split; congruence.
Qed.

Lemma list_remove_In (x y : string) (l : list string) :
  NoDup l -> (In y (SelectionState.list_remove x l) <-> In y l /\ y <> x).
Proof.
  induction l as [|z l IH]; intros Hnd; simpl; [tauto|].
  apply NoDup_cons in Hnd. destruct Hnd as [Hz Hnd].
  rewrite list_elem_of_In in Hz.
  destruct (String.eqb_spec x z) as [->|Hne].
  - split; [intros H; split; [tauto|intros ->; tauto]|intros [[E|H] Hy]; congruence].
  - simpl. rewrite IH by exact Hnd. split; [intros [->|[H Hy]]|intros [[->|H] Hy]]; auto.
Qed.

Lemma list_remove_NoDup (x : string) (l : list string) :
  NoDup l -> NoDup (SelectionState.list_remove x l).
Proof.
  induction l as [|z l IH]; intros Hnd; simpl; [exact Hnd|].
  pose proof Hnd as Hnd0. apply NoDup_cons in Hnd. destruct Hnd as [Hz Hnd].
  destruct (String.eqb_spec x z) as [->|Hne]; [exact Hnd|].
  apply NoDup_cons. split; [|apply IH; exact Hnd].
  rewrite list_elem_of_In, list_remove_In by exact Hnd.
  rewrite list_elem_of_In in Hz. tauto.
Qed.

Lemma list_remove_snoc (x : string) (l : list string) :
  ~ In x l -> SelectionState.list_remove x (l ++ [x]) = l.
Proof.
  induction l as [|z l IH]; intros Hn; simpl.
  - rewrite String.eqb_refl. reflexivity.
  - destruct (String.eqb_spec x z) as [->|_]; [simpl in Hn; tauto|].
    rewrite IH; [reflexivity|]. simpl in Hn. tauto.
Qed.

(** X1. On a selection without duplicates, [add_to_selection] and
    [remove_from_selection] keep it without duplicates; after the one the
    id is selected, after the other it is not; no other id is selected or
    deselected by either; adding twice is adding once; and removing an id
    that was just added to a selection that did not have it gives that
    selection back. *)
Theorem selection_add_remove (component_id : string) (s : SelectionState.t) :
  NoDup (SelectionState.selected_ids s) ->
  let added := SelectionState.add_to_selection component_id s in
  let removed := SelectionState.remove_from_selection component_id s in
  NoDup (SelectionState.selected_ids added) /\
  NoDup (SelectionState.selected_ids removed) /\
  SelectionState.is_selected component_id added = true /\
  SelectionState.is_selected component_id removed = false /\
  (forall other, other <> component_id ->
     SelectionState.is_selected other added = SelectionState.is_selected other s /\
     SelectionState.is_selected other removed = SelectionState.is_selected other s) /\
  SelectionState.add_to_selection component_id added = added /\
  (SelectionState.is_selected component_id s = false ->
   SelectionState.remove_from_selection component_id added = s).
Proof.
  intros Hnd added removed.
  assert (forall a b, (a = true <-> b = true) -> a = b) as Hbool
    by (intros [] [] [H1 H2]; try reflexivity;
        [symmetry; apply H1; reflexivity|apply H2; reflexivity]).
  assert (SelectionState.is_selected component_id added = true) as Hadded.
  { unfold added, SelectionState.add_to_selection.
    destruct (SelectionState.is_selected component_id s) eqn:E; [exact E|].
    apply is_selected_In. simpl. apply in_or_app. right. left. reflexivity. }
  assert (forall y, In y (SelectionState.selected_ids removed) <->
                    In y (SelectionState.selected_ids s) /\ y <> component_id) as Hrem.
  { intros y. unfold removed, SelectionState.remove_from_selection.
    destruct (SelectionState.is_selected component_id s) eqn:E; simpl.
    - apply list_remove_In. exact Hnd.
    - apply is_selected_false in E. split; [intros H; split; [exact H|]|tauto].
      intros ->. exact (E H). }
  split; [|split; [|split; [|split; [|split; [|split]]]]].
  - unfold added, SelectionState.add_to_selection.
    destruct (SelectionState.is_selected component_id s) eqn:E; [exact Hnd|].
    apply is_selected_false in E. simpl. apply NoDup_app. split; [exact Hnd|].
    split; [|apply NoDup_singleton].
    intros x Hx Hx'. apply list_elem_of_In in Hx, Hx'. destruct Hx' as [<-|[]]. exact (E Hx).
  - unfold removed, SelectionState.remove_from_selection.
    destruct (SelectionState.is_selected component_id s); [|exact Hnd].
    simpl. apply list_remove_NoDup. exact Hnd.
  - exact Hadded.
  - apply is_selected_false. rewrite Hrem. tauto.
  - intros other Hne. split; apply Hbool; rewrite !is_selected_In.
    + unfold added, SelectionState.add_to_selection.
      destruct (SelectionState.is_selected component_id s); [reflexivity|].
      simpl. rewrite in_app_iff. simpl. split; [intros [H|[H|[]]]|]; auto. congruence.
    + rewrite Hrem. tauto.
  - unfold SelectionState.add_to_selection at 1. rewrite Hadded. reflexivity.
  - intros Hno. unfold added, SelectionState.add_to_selection. rewrite Hno.
    unfold SelectionState.remove_from_selection.
    assert (SelectionState.is_selected component_id
              (SelectionState.mk (SelectionState.selected_ids s ++ [component_id])) = true)
      as -> by (apply is_selected_In; simpl; apply in_or_app; right; left; reflexivity).
    simpl. rewrite list_remove_snoc by (apply is_selected_false; exact Hno).
    destruct s. reflexivity.
Qed.

Lemma selection_add_remove_witness :
  let s := SelectionState.mk ["a"; "b"] in
  let added := SelectionState.add_to_selection "c" s in
  let removed := SelectionState.remove_from_selection "c" s in
  NoDup (SelectionState.selected_ids added) /\
  NoDup (SelectionState.selected_ids removed) /\
  SelectionState.is_selected "c" added = true /\
  SelectionState.is_selected "c" removed = false /\
  (forall other, other <> "c" ->
     SelectionState.is_selected other added = SelectionState.is_selected other s /\
     SelectionState.is_selected other removed = SelectionState.is_selected other s) /\
  SelectionState.add_to_selection "c" added = added /\
  (SelectionState.is_selected "c" s = false ->
   SelectionState.remove_from_selection "c" added = s).
Proof.
  apply (selection_add_remove "c" (SelectionState.mk ["a"; "b"])).
  apply NoDup_strings. vm_compute. reflexivity.
Defined.

End SelectionLaws.

(** ** The canvas *)

Section CanvasLaws.
Local Open Scope Z_scope.

(** X2. [add_component] of a component object puts it on the canvas under
    its id, whatever was there under that id before, with an unselected
    wrapper; [get_component] then finds it; [remove_component] takes it
    off again and a second [remove_component] does nothing.  No other id
    of the canvas is touched, nor the selection, nor the objects. *)
Theorem canvas_add_get_remove (l : nat) (c : BaseComponent.t) (w : World.t) :
  World.heap w !! l = Some c ->
  exists w1 w2,
    CanvasArea.add_component l w = (Ok tt, w1) /\
    World._components w1 !! BaseComponent.id c = Some (ComponentWrapper.mk l false) /\
    CanvasArea.get_component (BaseComponent.id c) w1 = Some l /\
    CanvasArea.remove_component (BaseComponent.id c) w1 = (Ok tt, w2) /\
    CanvasArea.get_component (BaseComponent.id c) w2 = None /\
    CanvasArea.remove_component (BaseComponent.id c) w2 = (Ok tt, w2) /\
    (forall i, i <> BaseComponent.id c ->
       World._components w1 !! i = World._components w !! i /\
       World._components w2 !! i = World._components w !! i) /\
    World.heap w2 = World.heap w /\
    World._selection w2 = World._selection w.
Proof.
  intros Hl.
  set (wr := ComponentWrapper.mk l false).
  set (w1 := World.set_components (<[BaseComponent.id c := wr]> (World._components w)) w).
  exists w1, (World.set_components (delete (BaseComponent.id c) (World._components w1)) w1).
  unfold CanvasArea.add_component, CanvasArea.remove_component,
    CanvasArea.get_component, bind, World.read, modify.
  subst w1 wr. rewrite Hl. cbn [World._components World.set_components].
  rewrite !lookup_insert_eq. cbn [World._components World.set_components].
  rewrite !lookup_delete_eq.
  repeat match goal with |- _ /\ _ => split end; try reflexivity.
  intros i Hi. rewrite lookup_delete_ne, lookup_insert_ne by congruence. auto.
Qed.

Lemma canvas_add_get_remove_witness :
  exists w1 w2,
    CanvasArea.add_component 0 editing_world = (Ok tt, w1) /\
    World._components w1 !! BaseComponent.id the_button
      = Some (ComponentWrapper.mk 0 false) /\
    CanvasArea.get_component (BaseComponent.id the_button) w1 = Some 0%nat /\
    CanvasArea.remove_component (BaseComponent.id the_button) w1 = (Ok tt, w2) /\
    CanvasArea.get_component (BaseComponent.id the_button) w2 = None /\
    CanvasArea.remove_component (BaseComponent.id the_button) w2 = (Ok tt, w2) /\
    (forall i, i <> BaseComponent.id the_button ->
       World._components w1 !! i = World._components editing_world !! i /\
       World._components w2 !! i = World._components editing_world !! i) /\
    World.heap w2 = World.heap editing_world /\
    World._selection w2 = World._selection editing_world.
Proof.
  apply (canvas_add_get_remove 0 the_button editing_world). exact editing_world_button.
Defined.

End CanvasLaws.

(** ** Dropping a component on the canvas *)

Section Drops.
Local Open Scope Z_scope.


(** The point a drop at coordinate [v] is moved to. *)
Definition snapped (w : World.t) (v : Z) : Z :=
  if World._grid_snap w
  then Helpers.round_div v (World._grid_size w) * World._grid_size w
  else v.

(** The drop point lies where snapping is exact: the grid size is one the
    [grid_size] setter leaves, and the coordinates are below [2 ^ 52]. *)
Definition snappable (w : World.t) (pos_x pos_y : Z) : Prop :=
  World._grid_snap w = true ->
  5 <= World._grid_size w <= 50 /\ Z.abs pos_x < 2 ^ 52 /\ Z.abs pos_y < 2 ^ 52.

Lemma snap_position (w : World.t) (pos_x pos_y : Z) :
  snappable w pos_x pos_y ->
  (if World._grid_snap w then
     let grid := World._grid_size w in
     let* sx := pure_of (Helpers.snap_to_grid pos_x grid) in
     let* sy := pure_of (Helpers.snap_to_grid pos_y grid) in
     ret (sx, sy)
   else ret (pos_x, pos_y)) w
  = (Ok (snapped w pos_x, snapped w pos_y), w).
Proof.
  unfold snappable, snapped. destruct (World._grid_snap w); [|reflexivity].
  intros H. destruct (H eq_refl) as (Hg & Hx & Hy).
  assert (0 < World._grid_size w < 2 ^ 52) as Hg52.
  { split; [lia|]. apply (Z.le_lt_trans _ 50); [lia|reflexivity]. }
  unfold bind, pure_of.
  rewrite (snap_to_grid_exact pos_x _ Hx Hg52), (snap_to_grid_exact pos_y _ Hy Hg52).
  reflexivity.
Qed.

(** The component [create_component] makes for a drop, and the world a
    drop of a registered type leaves. *)
Definition dropped (k : ComponentClass.t) (w : World.t) (pos_x pos_y : Z)
    : BaseComponent.t :=
  BaseComponent.mk k (Env.uuid_text (Env.uuid_drawn (World.env w)))
    (snapped w pos_x) (snapped w pos_y)
    (default 100 (ComponentClass.default_width k))
    (default 40 (ComponentClass.default_height k))
    None [] (BaseComponent.default_properties (ComponentClass.get_properties k)) [].

Lemma dropEvent_registered (registry : gmap string ComponentClass.t)
    (component_type : string) (k : ComponentClass.t) (pos_x pos_y : Z) (shift : bool)
    (w : World.t) :
  registry !! component_type = Some k ->
  snappable w pos_x pos_y ->
  let c := dropped k w pos_x pos_y in
  let l := fresh (dom (World.heap w)) in
  CanvasArea.dropEvent registry component_type pos_x pos_y shift w
  = (Ok tt,
     World.mk (Env.mk (S (Env.uuid_drawn (World.env w))) (Env.clock_reads (World.env w)))
       (<[l := c]> (World.heap w)) (World._project w) (World._current_page_id w)
       (if shift
        then SelectionState.add_to_selection (BaseComponent.id c) (World._selection w)
        else SelectionState.select (BaseComponent.id c) (World._selection w))
       (World._grid_snap w) (World._grid_size w)
       (marked shift (BaseComponent.id c)
          (<[BaseComponent.id c := ComponentWrapper.mk l false]> (World._components w)))).
Proof.
  intros Hk Hs c l. unfold CanvasArea.dropEvent. unfold bind at 1, get.
  rewrite (bind_step _ _ _ _ _ (snap_position w pos_x pos_y Hs)).
  unfold World.with_env.
  erewrite bind_step;
    [|unfold zoom;
      rewrite (create_component_registered registry component_type k _ _ None None _ Hk);
      reflexivity].
  cbn [fst snd]. fold c.
  erewrite bind_step; [|reflexivity].
  erewrite bind_step; [|apply add_component_allocated].
  reflexivity.
Qed.



Lemma set_env_same (w : World.t) : World.set_env (World.env w) w = w.
Proof. destruct w. reflexivity. Qed.

Lemma dropEvent_unregistered (registry : gmap string ComponentClass.t)
    (component_type : string) (pos_x pos_y : Z) (shift : bool) (w w' : World.t)
    (r : outcome unit) :
  registry !! component_type = None ->
  CanvasArea.dropEvent registry component_type pos_x pos_y shift w = (r, w') ->
  w' = w /\ (snappable w pos_x pos_y -> r = Ok tt).
Proof.
  intros Hk H. unfold CanvasArea.dropEvent in H. unfold bind at 1, get in H.
  assert (forall pos,
            bind (World.with_env
                    (Registry.create_component registry component_type
                       (fst pos) (snd pos) None None))
              (fun component =>
                 match component with
                 | Some c =>
                     let* l := World.alloc c in
                     do CanvasArea.add_component l then
                     CanvasArea._on_component_selected shift (BaseComponent.id c)
                 | None => ret tt
                 end) w = (Ok tt, w)) as Hrest.
  { intros pos. unfold bind, World.with_env, zoom, Registry.create_component.
    rewrite Hk. unfold ret. rewrite set_env_same. reflexivity. }
  split.
  - unfold bind at 1 in H.
    destruct (World._grid_snap w).
    + unfold bind at 1, pure_of in H.
      destruct (Helpers.snap_to_grid pos_x (World._grid_size w));
        [|injection H as _ <-; reflexivity].
      unfold bind at 1 in H.
      destruct (Helpers.snap_to_grid pos_y (World._grid_size w));
        [|injection H as _ <-; reflexivity].
      unfold ret at 1 in H. rewrite Hrest in H. injection H as _ <-. reflexivity.
    + unfold ret at 1 in H. rewrite Hrest in H. injection H as _ <-. reflexivity.
  - intros Hs. rewrite (bind_step _ _ _ _ _ (snap_position w pos_x pos_y Hs)) in H.
    rewrite Hrest in H. injection H as <- _. reflexivity.
Qed.





End Drops.

(** ** Deleting the selection, and the highlight of the wrappers *)

Section Highlight.

Lemma set_components_same (w : World.t) : World.set_components (World._components w) w = w.
Proof. destruct w. reflexivity. Qed.

Lemma remove_component_exact (component_id : string) (w : World.t) :
  CanvasArea.remove_component component_id w
  = (Ok tt, World.set_components (delete component_id (World._components w)) w).
Proof.
  unfold CanvasArea.remove_component, modify.
  destruct (World._components w !! component_id) eqn:E; [reflexivity|].
  rewrite delete_id by exact E. rewrite set_components_same. reflexivity.
Qed.

Definition without (ids : list string) (components : gmap string ComponentWrapper.t)
    : gmap string ComponentWrapper.t :=
  fold_left (fun m i => delete i m) ids components.

Lemma without_lookup (ids : list string) (components : gmap string ComponentWrapper.t)
    (i : string) :
  without ids components !! i = if decide (i ∈ ids) then None else components !! i.
Proof.
  unfold without. revert components.
  induction ids as [|j ids IH]; intros components; cbn [fold_left].
  - destruct (decide (i ∈ [])) as [Hin|_]; [inversion Hin|reflexivity].
  - rewrite IH.
    destruct (decide (i ∈ ids)) as [Hin|Hn]; destruct (decide (i ∈ j :: ids)) as [Hin'|Hn'];
      try reflexivity.
    + exfalso. apply Hn'. right. exact Hin.
    + apply elem_of_cons in Hin'. destruct Hin' as [->|Hin']; [|contradiction].
      apply lookup_delete_eq.
    + apply lookup_delete_ne. intros ->. apply Hn'. left.
Qed.

Lemma remove_each_exact (ids : list string) (w : World.t) :
  CanvasArea.remove_each ids w
  = (Ok tt, World.set_components (without ids (World._components w)) w).
Proof.
  revert w. induction ids as [|i ids IH]; intros w.
  - simpl. unfold ret. rewrite set_components_same. reflexivity.
  - cbn [CanvasArea.remove_each].
    rewrite (bind_step _ _ _ _ _ (remove_component_exact i w)), IH. reflexivity.
Qed.

Lemma delete_selected_exact (w : World.t) :
  CanvasArea.delete_selected w
  = (Ok tt,
     World.set_selection (SelectionState.mk [])
       (World.set_components (without (selected w) (World._components w)) w)).
Proof.
  unfold CanvasArea.delete_selected, bind, get. fold (selected w).
  rewrite remove_each_exact. reflexivity.
Qed.

(** X6. [delete_selected] returns, takes every selected component off
    the canvas, leaves every other component on it with its wrapper,
    empties the selection and destroys no object; called again at once,
    it changes nothing. *)
Theorem delete_selected_removes_exactly_the_selection (w : World.t) :
  exists w',
    CanvasArea.delete_selected w = (Ok tt, w') /\
    selected w' = [] /\
    (forall i, In i (selected w) -> World._components w' !! i = None) /\
    (forall i, ~ In i (selected w) ->
       World._components w' !! i = World._components w !! i) /\
    World.heap w' = World.heap w /\
    CanvasArea.delete_selected w' = (Ok tt, w').
Proof.
  eexists. split; [apply delete_selected_exact|].
  split; [reflexivity|]. cbn [World._components World.set_selection World.set_components].
  split; [|split; [|split]].
  - intros i Hi. rewrite without_lookup, decide_True by (apply list_elem_of_In; exact Hi).
    reflexivity.
  - intros i Hi. rewrite without_lookup, decide_False by (rewrite list_elem_of_In; exact Hi).
    reflexivity.
  - reflexivity.
  - rewrite delete_selected_exact. reflexivity.
Qed.

(** The highlight agrees with the selection: a wrapper on the canvas is
    drawn selected exactly when its component's id is selected. *)
Definition agree (w : World.t) : Prop :=
  forall i wr,
    World._components w !! i = Some wr ->
    ComponentWrapper._is_selected wr = SelectionState.is_selected i (World._selection w).

(** What the user does on the canvas, with the handler each reaches: a
    press on a component without Shift; a press with Shift on a component
    that is not selected; a click on the empty canvas or Escape; Delete;
    a rubber band released over some components; a drop of a component
    type where snapping is off or exact. *)
Inductive canvas_step (w w' : World.t) : Prop :=
  | Plain_press (component_id : string) :
      CanvasArea._on_component_selected false component_id w = (Ok tt, w') ->
      canvas_step w w'
  | Shift_press_unselected (component_id : string) :
      SelectionState.is_selected component_id (World._selection w) = false ->
      CanvasArea._on_component_selected true component_id w = (Ok tt, w') ->
      canvas_step w w'
  | Cleared :
      CanvasArea.clear_selection w = (Ok tt, w') -> canvas_step w w'
  | Deleted :
      CanvasArea.delete_selected w = (Ok tt, w') -> canvas_step w w'
  | Band_released (touched : list string) :
      RubberBand.select_touched touched w = (Ok tt, w') -> canvas_step w w'
  | Dropped (registry : gmap string ComponentClass.t) (component_type : string)
      (pos_x pos_y : Z) (shift : bool) :
      snappable w pos_x pos_y ->
      CanvasArea.dropEvent registry component_type pos_x pos_y shift w = (Ok tt, w') ->
      canvas_step w w'.

Lemma is_selected_add (i component_id : string) (s : SelectionState.t) :
  SelectionState.is_selected i (SelectionState.add_to_selection component_id s)
  = String.eqb i component_id || SelectionState.is_selected i s.
Proof.
  unfold SelectionState.add_to_selection.
  destruct (SelectionState.is_selected component_id s) eqn:E.
  - destruct (String.eqb_spec i component_id) as [->|_]; [exact E|reflexivity].
  - unfold SelectionState.is_selected. simpl. rewrite existsb_app. simpl.
    rewrite orb_false_r. apply orb_comm.
Qed.

Lemma is_selected_select (i component_id : string) (s : SelectionState.t) :
  SelectionState.is_selected i (SelectionState.select component_id s)
  = String.eqb i component_id.
Proof. unfold SelectionState.is_selected. simpl. apply orb_false_r. Qed.

Lemma select_touched_agree (touched : list string) (w w' : World.t) :
  agree w -> RubberBand.select_touched touched w = (Ok tt, w') -> agree w'.
Proof.
  revert w. induction touched as [|j touched IH]; intros w Ha H.
  - injection H as <-. exact Ha.
  - cbn [RubberBand.select_touched] in H. unfold bind at 1, modify at 1 in H.
    unfold bind at 1, AppState.select_component, modify at 1 in H.
    eapply IH; [|exact H]. intros i wr. cbn [World._components World._selection
      World.set_components World.set_selection]. rewrite is_selected_add.
    rewrite lookup_alter. case_decide as E.
    + subst i. rewrite String.eqb_refl. destruct (World._components w !! j); [|discriminate].
      intros [= <-]. reflexivity.
    + intros Hi. rewrite (Ha i wr Hi).
      destruct (String.eqb_spec i j); [congruence|reflexivity].
Qed.

(** X7. The highlight follows the selection: if the wrappers drawn
    selected are exactly those of the selected ids, they still are after
    a press without Shift, a Shift-press on a component that is not
    selected, a click on the empty canvas, Delete, a rubber band, and a
    drop. *)
Theorem highlight_follows_selection (w w' : World.t) :
  agree w -> canvas_step w w' -> agree w'.
Proof.
  intros Ha [id H|id Hno H|H|H|touched H|registry ty px py shift Hs H].
  - unfold CanvasArea._on_component_selected, bind, modify, AppState.select_component in H.
    injection H as <-. intros i wr. cbn [World._components World._selection
      World.set_components World.set_selection].
    rewrite is_selected_select, map_lookup_imap.
    destruct (World._components w !! i); simpl; [|discriminate].
    intros [= <-]. reflexivity.
  - unfold CanvasArea._on_component_selected, bind, modify, AppState.select_component in H.
    injection H as <-. intros i wr. cbn [World._components World._selection
      World.set_components World.set_selection].
    rewrite is_selected_add, lookup_alter. case_decide as E.
    + subst i. rewrite String.eqb_refl.
      destruct (World._components w !! id) as [wr0|] eqn:E0; [|discriminate].
      intros [= <-]. simpl. rewrite (Ha id wr0 E0), Hno. reflexivity.
    + intros Hi. rewrite (Ha i wr Hi).
      destruct (String.eqb_spec i id); [congruence|reflexivity].
  - unfold CanvasArea.clear_selection, bind, modify, AppState.clear_selection in H.
    injection H as <-. intros i wr. cbn [World._components World._selection
      World.set_components World.set_selection]. rewrite lookup_fmap.
    destruct (World._components w !! i); simpl; [|discriminate].
    intros [= <-]. reflexivity.
  - rewrite delete_selected_exact in H. injection H as <-. intros i wr.
    cbn [World._components World._selection World.set_components World.set_selection].
    rewrite without_lookup. case_decide as E; [discriminate|].
    intros Hi. rewrite (Ha i wr Hi). apply is_selected_false.
    rewrite <- list_elem_of_In. exact E.
  - exact (select_touched_agree touched w w' Ha H).
  - destruct (registry !! ty) as [k|] eqn:Hk.
    + rewrite (dropEvent_registered registry ty k px py shift w Hk Hs) in H.
      injection H as <-. intros i wr.
      cbn [World._components World._selection]. unfold marked. destruct shift.
      * rewrite is_selected_add, lookup_alter. case_decide as E.
        -- subst i. rewrite String.eqb_refl, lookup_insert_eq. intros [= <-]. reflexivity.
        -- rewrite lookup_insert_ne by congruence. intros Hi. rewrite (Ha i wr Hi).
           match goal with
           | |- context [String.eqb i ?x] => destruct (String.eqb_spec i x)
           end; [congruence|reflexivity].
      * rewrite is_selected_select, map_lookup_imap.
        destruct (_ !! i); simpl; [|discriminate]. intros [= <-]. reflexivity.
    + destruct (dropEvent_unregistered _ _ _ _ _ _ _ _ Hk H) as [-> _]. exact Ha.
Qed.

Lemma highlight_follows_selection_witness : agree editing_world.
Proof.
  apply (highlight_follows_selection World.initial editing_world).
  - intros i wr H. unfold World.initial in H. cbn [World._components] in H.
    rewrite lookup_empty in H. discriminate.
  - apply (Dropped _ _ Registry.COMPONENT_REGISTRY "button" 10 10 false).
    + intros _. simpl. split; [lia|]. split; reflexivity.
    + vm_compute. reflexivity.
Defined.

(** X8. A press with Shift on a component that is selected and drawn
    selected returns, leaves the selection as it was, the component still
    in it, and draws the component unselected: after it the highlight no
    longer agrees with the selection. *)
Theorem shift_press_on_selected_unhighlights (component_id : string)
    (wr : ComponentWrapper.t) (w : World.t) :
  World._components w !! component_id = Some wr ->
  ComponentWrapper._is_selected wr = true ->
  SelectionState.is_selected component_id (World._selection w) = true ->
  exists w',
    CanvasArea._on_component_selected true component_id w = (Ok tt, w') /\
    World._selection w' = World._selection w /\
    World._components w' !! component_id
      = Some (ComponentWrapper.set_selected false wr) /\
    ~ agree w'.
Proof.
  intros Hc Hf Hs. eexists. split; [reflexivity|].
  cbn [World._components World._selection World.set_components World.set_selection].
  assert (alter (fun wr0 => ComponentWrapper.set_selected
                              (negb (ComponentWrapper._is_selected wr0)) wr0)
            component_id (World._components w) !! component_id
          = Some (ComponentWrapper.set_selected false wr)) as Hl.
  { rewrite lookup_alter_eq, Hc. simpl. rewrite Hf. reflexivity. }
  split; [|split; [exact Hl|]].
  - unfold SelectionState.add_to_selection. rewrite Hs. reflexivity.
  - intros Ha. specialize (Ha component_id _ Hl).
    cbn [World._selection World.set_selection] in Ha.
    unfold SelectionState.add_to_selection in Ha. rewrite Hs in Ha.
    rewrite Hs in Ha. discriminate.
Qed.

Lemma shift_press_on_selected_unhighlights_witness :
  exists w',
    CanvasArea._on_component_selected true (Env.uuid_text 0) editing_world = (Ok tt, w') /\
    World._selection w' = World._selection editing_world /\
    World._components w' !! Env.uuid_text 0
      = Some (ComponentWrapper.set_selected false (ComponentWrapper.mk 0 true)) /\
    ~ agree w'.
Proof.
  apply (shift_press_on_selected_unhighlights (Env.uuid_text 0)
           (ComponentWrapper.mk 0 true) editing_world).
  - vm_compute. reflexivity.
  - reflexivity.
  - vm_compute. reflexivity.
Defined.

End Highlight.

(** ** The history, for any command *)

Section Stacks.
Local Open Scope Z_scope.
Import CommandStack.

(** X9. For any command whose [undo] and [redo] return: [undo] hands
    the last executed command back and moves it from the undo to the redo
    stack; a [redo] right after it hands the same command back and leaves
    both stacks as they were before the [undo]; and another [undo] moves
    it again.  Neither call changes the cap or trims a stack. *)
Theorem undo_then_redo_restores_the_stacks (command : Command.t)
    (u r : list Command.t) (m : Z) (b : bool) (w w1 w2 w3 : World.t) :
  Command.undo command w = (Ok tt, w1) ->
  Command.redo command w1 = (Ok tt, w2) ->
  Command.undo command w2 = (Ok tt, w3) ->
  let s0 := (mk (u ++ [command]) r m b, w) in
  undo s0 = (Ok (Some command), (mk u (r ++ [command]) m b, w1)) /\
  (do undo then redo) s0 = (Ok (Some command), (mk (u ++ [command]) r m b, w2)) /\
  (do undo then do redo then undo) s0
  = (Ok (Some command), (mk u (r ++ [command]) m b, w3)).
Proof.
  intros H1 H2 H3 s0. unfold s0.
  pose proof (undo_returns command u r m b w w1 H1) as E1.
  pose proof (redo_returns command u r m b w1 w2 H2) as E2.
  pose proof (undo_returns command u r m b w2 w3 H3) as E3.
  split; [exact E1|]. split.
  - rewrite (bind_step _ _ _ _ _ E1). exact E2.
  - rewrite (bind_step _ _ _ _ _ E1), (bind_step _ _ _ _ _ E2). exact E3.
Qed.

Lemma undo_then_redo_restores_the_stacks_witness :
  let s0 := (mk ([] ++ [move_it]) [retitle_it] 100 false,
             changed 0 (BaseComponent.set_y 60) (changed 0 (BaseComponent.set_x 50)
               editing_world)) in
  exists w1 w2 w3,
    undo s0 = (Ok (Some move_it), (mk [] ([retitle_it] ++ [move_it]) 100 false, w1)) /\
    (do undo then redo) s0
    = (Ok (Some move_it), (mk ([] ++ [move_it]) [retitle_it] 100 false, w2)) /\
    (do undo then do redo then undo) s0
    = (Ok (Some move_it), (mk [] ([retitle_it] ++ [move_it]) 100 false, w3)).
Proof.
  eexists _, _, _.
  apply (undo_then_redo_restores_the_stacks move_it [] [retitle_it] 100 false);
    vm_compute; reflexivity.
Defined.

(** X10. A command whose [undo] raises is lost to the history: [undo]
    has taken it off the undo stack and does not put it on the redo
    stack, and the exception reaches the caller; what the command's own
    [undo] did before raising stays done.  The same holds for a command
    whose [redo] raises. *)
Theorem failed_undo_or_redo_loses_the_command (command : Command.t)
    (u r : list Command.t) (m : Z) (b : bool) (w w1 w2 : World.t) (e1 e2 : exn) :
  Command.undo command w = (Raise e1, w1) ->
  Command.redo command w = (Raise e2, w2) ->
  undo (mk (u ++ [command]) r m b, w) = (Raise e1, (mk u r m b, w1)) /\
  redo (mk u (r ++ [command]) m b, w) = (Raise e2, (mk u r m b, w2)).
Proof.
  intros H1 H2. split; [apply undo_raises|apply redo_raises]; assumption.
Qed.

Lemma failed_undo_or_redo_loses_the_command_witness :
  undo (mk ([move_it] ++ [stray_move]) [retitle_it] 100 false, editing_world)
  = (Raise AttributeError, (mk [move_it] [retitle_it] 100 false, editing_world)) /\
  redo (mk [move_it] ([retitle_it] ++ [stray_move]) 100 false, editing_world)
  = (Raise AttributeError, (mk [move_it] [retitle_it] 100 false, editing_world)).
Proof.
  apply (failed_undo_or_redo_loses_the_command stray_move [move_it] [retitle_it] 100 false
           editing_world editing_world editing_world AttributeError AttributeError);
    vm_compute; reflexivity.
Defined.

End Stacks.

(** ** Adding and removing as commands *)

Section AddRemove.
Local Open Scope Z_scope.

Lemma set_components_twice (a b : gmap string ComponentWrapper.t) (w : World.t) :
  World.set_components a (World.set_components b w) = World.set_components a w.
Proof. reflexivity. Qed.

(** X11. [AddComponentCommand] for a component whose id is not on the
    canvas: [execute] puts it there, [undo] after it gives back the editor
    exactly as it was, and [redo] after that gives the editor [execute]
    had left. *)
Theorem add_command_undo_restores (l : nat) (c : BaseComponent.t) (w : World.t) :
  World.heap w !! l = Some c ->
  World._components w !! BaseComponent.id c = None ->
  exists w1,
    Command.execute (Command.AddComponentCommand l) w = (Ok tt, w1) /\
    CanvasArea.get_component (BaseComponent.id c) w1 = Some l /\
    Command.undo (Command.AddComponentCommand l) w1 = (Ok tt, w) /\
    Command.redo (Command.AddComponentCommand l) w = (Ok tt, w1).
Proof.
  intros Hl Hc.
  exists (World.set_components
            (<[BaseComponent.id c := ComponentWrapper.mk l false]> (World._components w)) w).
  cbn [Command.execute Command.undo Command.redo Command.AddComponentCommand Command.make].
  assert (CanvasArea.add_component l w
          = (Ok tt, World.set_components
               (<[BaseComponent.id c := ComponentWrapper.mk l false]>
                  (World._components w)) w)) as Hadd.
  { unfold CanvasArea.add_component, bind, World.read, modify. rewrite Hl. reflexivity. }
  split; [exact Hadd|]. split.
  { unfold CanvasArea.get_component. cbn [World._components World.set_components].
    rewrite lookup_insert_eq. reflexivity. }
  split; [|exact Hadd].
  unfold bind, World.read. cbn [World.heap World.set_components]. rewrite Hl.
  rewrite remove_component_exact. cbn [World._components World.set_components].
  rewrite delete_insert_id by exact Hc.
  rewrite set_components_twice, set_components_same. reflexivity.
Qed.

Lemma add_command_undo_restores_witness :
  exists w1,
    Command.execute (Command.AddComponentCommand 0)
      (World.set_components ∅ editing_world) = (Ok tt, w1) /\
    CanvasArea.get_component (BaseComponent.id the_button) w1 = Some 0%nat /\
    Command.undo (Command.AddComponentCommand 0) w1
    = (Ok tt, World.set_components ∅ editing_world) /\
    Command.redo (Command.AddComponentCommand 0) (World.set_components ∅ editing_world)
    = (Ok tt, w1).
Proof.
  apply (add_command_undo_restores 0 the_button (World.set_components ∅ editing_world)).
  - exact editing_world_button.
  - apply lookup_empty.
Defined.

(** X12. [RemoveComponentCommand] for a component on the canvas:
    [execute] takes it off and touches no other component; [undo] after
    it puts the command's component back under its id in a new wrapper,
    drawn unselected, and leaves the selection as it was throughout.  So
    the editor is exactly as before when the wrapper removed was that
    component's, drawn unselected. *)
Theorem remove_command_undo_rewraps (l : nat) (c : BaseComponent.t)
    (wr : ComponentWrapper.t) (w : World.t) :
  World.heap w !! l = Some c ->
  World._components w !! BaseComponent.id c = Some wr ->
  exists w1 w2,
    Command.execute (Command.RemoveComponentCommand l) w = (Ok tt, w1) /\
    World._components w1 = delete (BaseComponent.id c) (World._components w) /\
    World._selection w1 = World._selection w /\
    Command.undo (Command.RemoveComponentCommand l) w1 = (Ok tt, w2) /\
    World._components w2
      = <[BaseComponent.id c := ComponentWrapper.mk l false]> (World._components w) /\
    World._selection w2 = World._selection w /\
    World.heap w2 = World.heap w /\
    (wr = ComponentWrapper.mk l false -> w2 = w).
Proof.
  intros Hl Hc.
  exists (World.set_components (delete (BaseComponent.id c) (World._components w)) w).
  exists (World.set_components
            (<[BaseComponent.id c := ComponentWrapper.mk l false]> (World._components w)) w).
  cbn [Command.execute Command.undo Command.redo Command.RemoveComponentCommand
       Command.make].
  split.
  { unfold bind, World.read. rewrite Hl. apply remove_component_exact. }
  split; [reflexivity|]. split; [reflexivity|]. split.
  { unfold CanvasArea.add_component, bind, World.read, modify.
    cbn [World.heap World._components World.set_components]. rewrite Hl.
    cbn [World.heap World._components World.set_components].
    rewrite insert_delete_eq. reflexivity. }
  split; [reflexivity|]. split; [reflexivity|]. split; [reflexivity|].
  intros ->. rewrite insert_id by exact Hc. apply set_components_same.
Qed.

Lemma remove_command_undo_rewraps_witness :
  exists w1 w2,
    Command.execute (Command.RemoveComponentCommand 0) editing_world = (Ok tt, w1) /\
    World._components w1
      = delete (BaseComponent.id the_button) (World._components editing_world) /\
    World._selection w1 = World._selection editing_world /\
    Command.undo (Command.RemoveComponentCommand 0) w1 = (Ok tt, w2) /\
    World._components w2
      = <[BaseComponent.id the_button := ComponentWrapper.mk 0 false]>
          (World._components editing_world) /\
    World._selection w2 = World._selection editing_world /\
    World.heap w2 = World.heap editing_world /\
    (ComponentWrapper.mk 0 true = ComponentWrapper.mk 0 false -> w2 = editing_world).
Proof.
  apply (remove_command_undo_rewraps 0 the_button (ComponentWrapper.mk 0 true)
           editing_world).
  - exact editing_world_button.
  - vm_compute. reflexivity.
Defined.

End AddRemove.

(** ** Documents: what is saved validates, what validates loads *)

Section Documents.
Import Schema.

Lemma validate_pages_of_pages (pages : list Page.t) (i : nat) :
  validate_pages i (map (fun page => PDict (Page.to_dict page)) pages) = Ok (true, None).
Proof.
  revert i. induction pages as [|p pages IH]; intros i; [reflexivity|].
  cbn [map validate_pages is_dict negb py_in Page.to_dict dict_contains String.eqb
       Ascii.eqb Bool.eqb obind].
  apply IH.
Qed.

Lemma validate_project_verdict (document : pyval) :
  validate_project document = Ok (verdict (first_failure document)).
Proof.
  unfold validate_project, first_failure.
  destruct document; try reflexivity. simpl.
  destruct (dict_contains d "name"); simpl; [|reflexivity].
  destruct (dict_contains d "version"); simpl; [|reflexivity].
  rewrite dict_contains_get.
  destruct (dict_get d "pages") as [v|] eqn:E; simpl; [|reflexivity].
  destruct v; simpl; try reflexivity.
  apply validate_pages_first_failure.
Qed.

Lemma to_dict_validates (p : Project.t) :
  validate_project (PDict (Project.to_dict p)) = Ok (true, None).
Proof.
  unfold validate_project, Project.to_dict.
  cbn [is_dict negb py_in py_getitem py_iter dict_contains dict_get String.eqb Ascii.eqb
       Bool.eqb obind is_list].
  apply validate_pages_of_pages.
Qed.

(** X13. The document [Project.to_dict] makes of any project passes
    [validate_project], with no reason given: saving cannot produce a
    file that the validator rejects. *)
Theorem saved_project_validates (p : Project.t) :
  validate_project (PDict (Project.to_dict p)) = Ok (true, None) /\
  first_failure (PDict (Project.to_dict p)) = None.
Proof.
  pose proof (to_dict_validates p) as H. split; [exact H|].
  rewrite validate_project_verdict in H.
  destruct (first_failure (PDict (Project.to_dict p))); [discriminate|reflexivity].
Qed.

(** An outcome that is a value, or the mark that a document value has
    another type than the field it is read into: in Python, not an
    exception. *)
Definition no_exception {A} (o : outcome A) : Prop :=
  match o with
  | Ok _ => True
  | Raise e => e = OutsideModel
  end.

(** A computation that raises no exception, from any state. *)
Definition quiet {S A} (m : M S A) : Prop := forall s, no_exception (fst (m s)).

Lemma quiet_bind {S A B} (m : M S A) (k : A -> M S B) :
  quiet m -> (forall a, quiet (k a)) -> quiet (bind m k).
Proof.
  intros Hm Hk s. unfold bind. specialize (Hm s).
  destruct (m s) as [[a|e] s1]; [apply Hk|exact Hm].
Qed.

Lemma bind_pure_ok {S A B} (a : A) (k : A -> M S B) : bind (pure_of (Ok a)) k = k a.
Proof. reflexivity. Qed.

Lemma quiet_pure_of {S A} (o : outcome A) : no_exception o -> quiet (@pure_of S A o).
Proof. intros H s. exact H. Qed.

Lemma as_str_quiet (v : pyval) : no_exception (as_str v).
Proof. destruct v; simpl; auto. Qed.

Lemma as_int_quiet (v : pyval) : no_exception (as_int v).
Proof. destruct v; simpl; auto. Qed.

Lemma as_dict_quiet (v : pyval) : no_exception (as_dict v).
Proof. destruct v; simpl; auto. Qed.

Lemma as_str_list_quiet (v : pyval) : no_exception (as_str_list v).
Proof.
  destruct v; simpl; auto. induction l as [|v l IH]; simpl; [exact I|].
  pose proof (as_str_quiet v) as Hv.
  destruct (as_str v); simpl in *; [|exact Hv].
  destruct (as_str_list_of l); simpl in *; [exact I|exact IH].
Qed.

Lemma obind_quiet {A B} (o : outcome A) (k : A -> outcome B) :
  no_exception o -> (forall a, no_exception (k a)) -> no_exception (obind o k).
Proof. destruct o; simpl; auto. Qed.

Lemma page_from_dict_quiet (page : pyval) :
  page_ok page -> no_exception (Page.from_dict page).
Proof.
  intros (d & -> & Hid & Hname). unfold Page.from_dict.
  rewrite dict_contains_get in Hid, Hname. simpl py_getitem. simpl py_get.
  destruct (dict_get d "id") as [vid|]; [|discriminate].
  destruct (dict_get d "name") as [vname|]; [|discriminate].
  cbn [obind].
  apply obind_quiet; [apply as_str_quiet|intros id].
  apply obind_quiet; [apply as_str_quiet|intros name].
  apply obind_quiet; [destruct (dict_get_default d "components" (PList [])); simpl; auto|].
  intros components.
  apply obind_quiet; [apply as_int_quiet|intros width].
  apply obind_quiet; [apply as_int_quiet|intros height]. exact I.
Qed.

Lemma pages_from_quiet (items : list pyval) :
  Forall page_ok items -> no_exception (Project.pages_from items).
Proof.
  induction 1 as [|page items Hp _ IH]; [exact I|].
  cbn [Project.pages_from].
  apply obind_quiet; [apply page_from_dict_quiet; exact Hp|intros p].
  apply obind_quiet; [exact IH|intros ps]. exact I.
Qed.

Lemma post_init_quiet (p : Project.t) : quiet (Project.__post_init__ p).
Proof. intros e. unfold Project.__post_init__. destruct (Project.pages p); exact I. Qed.

(** X14. A document that [validate_project] accepts makes
    [Project.from_dict] raise no exception: no [KeyError] for a page
    without [id] or [name], no [TypeError], no [AttributeError].  (The
    embedding alone can stop, on a value of another type than the field
    it is read into.) *)
Theorem validated_document_loads (data : pyval) (file_path : option string) (e : Env.t) :
  validate_project data = Ok (true, None) ->
  no_exception (fst (Project.from_dict data file_path e)).
Proof.
  intros Hv. rewrite validate_project_verdict in Hv.
  assert (first_failure data = None) as Hf
    by (destruct (first_failure data); [discriminate|reflexivity]).
  apply first_failure_none in Hf.
  destruct Hf as (d & pages & -> & _ & _ & Hp & Hok).
  revert e. change (quiet (Project.from_dict (PDict d) file_path)).
  unfold Project.from_dict. simpl py_get. unfold dict_get_default at 1. rewrite Hp.
  rewrite !bind_pure_ok. simpl py_iter. rewrite bind_pure_ok.
  apply quiet_bind; [apply quiet_pure_of, pages_from_quiet; exact Hok|intros ps].
  repeat first
    [ rewrite bind_pure_ok
    | apply quiet_bind;
      [first [ apply quiet_pure_of;
               first [apply as_str_quiet|apply as_str_list_quiet|apply as_dict_quiet]
             | intros s0; exact I ]
      |intros ?] ].
  apply post_init_quiet.
Qed.

(** A small document: one page, and a setting. *)
Definition small_document : pyval :=
  PDict [ ("name", PStr "Demo"); ("version", PStr "1.0.0");
          ("pages", PList [PDict [("id", PStr "p1"); ("name", PStr "Home")]]);
          ("settings", PDict [("theme", PStr "dark")]) ].

Lemma validated_document_loads_witness :
  no_exception (fst (Project.from_dict small_document (Some "demo.zeus") (Env.mk 0 0))).
Proof.
  apply (validated_document_loads small_document (Some "demo.zeus") (Env.mk 0 0)).
  vm_compute. reflexivity.
Defined.






End Documents.

(** ** Components: loading a fragment, and the property map *)

Section Fragments.
Local Open Scope Z_scope.

Lemma dict_set_keys (d : dict) (k : string) (v : pyval) :
  NoDup (dict_keys d) ->
  NoDup (dict_keys (dict_set d k v)) /\
  exists extra, dict_keys (dict_set d k v) = dict_keys d ++ extra.
Proof.
  intros Hnd. destruct (in_dec string_dec k (dict_keys d)) as [Hin|Hn].
  - rewrite dict_keys_set_in by exact Hin. split; [exact Hnd|].
    exists []. rewrite app_nil_r. reflexivity.
  - rewrite dict_keys_set_notin by exact Hn. unfold dict_keys in *.
    rewrite map_app. simpl. split; [|exists [k]; reflexivity].
    apply NoDup_app. split; [exact Hnd|]. split; [|apply NoDup_singleton].
    intros s Hs Hs'. apply list_elem_of_In in Hs, Hs'. destruct Hs' as [<-|[]].
    exact (Hn Hs).
Qed.

Lemma dict_update_keys (other d : dict) :
  NoDup (dict_keys d) ->
  NoDup (dict_keys (dict_update d other)) /\
  exists extra, dict_keys (dict_update d other) = dict_keys d ++ extra.
Proof.
  revert d. induction other as [|[k v] other IH]; intros d Hnd.
  - split; [exact Hnd|]. exists []. rewrite app_nil_r. reflexivity.
  - change (dict_update d ((k, v) :: other)) with (dict_update (dict_set d k v) other).
    destruct (dict_set_keys d k v Hnd) as (Hnd1 & extra1 & E1).
    destruct (IH _ Hnd1) as (Hnd2 & extra2 & E2).
    split; [exact Hnd2|]. exists (extra1 ++ extra2).
    rewrite E2, E1, app_assoc. reflexivity.
Qed.

Lemma as_int_Ok (v : pyval) (n : Z) : as_int v = Ok n -> v = PInt n.
Proof. destruct v; simpl; congruence. Qed.

Lemma as_str_Ok (v : pyval) (s : string) : as_str v = Ok s -> v = PStr s.
Proof. destruct v; simpl; congruence. Qed.

Lemma as_dict_Ok (v : pyval) (d : dict) : as_dict v = Ok d -> v = PDict d.
Proof. destruct v; simpl; congruence. Qed.

(** X16. What [from_dict] of a class with distinctly named properties
    returns, when it returns: an instance of that class whose properties
    start with the declared ones, in their order, no key twice, and with
    no event handler; [x], [y], [width], [height] and [id] as the
    fragment gives them, and 0, 0, 100, 50 and the uuid just drawn where
    it does not; every declared property the fragment's [properties] does
    not mention at the default its class declares.  One uuid is drawn
    whether or not the fragment has an [id]. *)
Theorem from_dict_fills_defaults (k : ComponentClass.t) (data : dict)
    (c : BaseComponent.t) (e e' : Env.t) :
  distinct_properties k ->
  BaseComponent.from_dict k data e = (Ok c, e') ->
  shaped k c /\
  BaseComponent._event_handlers c = [] /\
  e' = Env.mk (S (Env.uuid_drawn e)) (Env.clock_reads e) /\
  PInt (BaseComponent.x c) = dict_get_default data "x" (PInt 0) /\
  PInt (BaseComponent.y c) = dict_get_default data "y" (PInt 0) /\
  PInt (BaseComponent.width c) = dict_get_default data "width" (PInt 100) /\
  PInt (BaseComponent.height c) = dict_get_default data "height" (PInt 50) /\
  PStr (BaseComponent.id c)
    = dict_get_default data "id" (PStr (Env.uuid_text (Env.uuid_drawn e))) /\
  exists fragment,
    dict_get_default data "properties" (PDict []) = PDict fragment /\
    forall p, In p (ComponentClass.get_properties k) ->
      ~ In (ComponentProperty.name p) (dict_keys fragment) ->
      BaseComponent.get_property c (ComponentProperty.name p)
      = ComponentProperty.default_value p.
Proof.
  intros Hd H. unfold BaseComponent.from_dict in H. run_inv H.
  injection Hrun3 as <-. unfold ret in H. injection H as <- <-.
  cbn [BaseComponent.id] in Hrun4.
  apply as_int_Ok in Hrun, Hrun0, Hrun1, Hrun2. apply as_str_Ok in Hrun4.
  apply as_dict_Ok in Hrun7.
  cbn [BaseComponent.cls BaseComponent.id BaseComponent.x BaseComponent.y
       BaseComponent.width BaseComponent.height BaseComponent._event_handlers
       BaseComponent._properties BaseComponent.set_properties BaseComponent.set_children
       BaseComponent.set_parent_id BaseComponent.set_id].
  split.
  { split; [reflexivity|].
    cbn [BaseComponent._properties BaseComponent.set_properties].
    destruct (dict_update_keys a7
                (BaseComponent.default_properties (ComponentClass.get_properties k)))
      as (Hnd & extra & E).
    { rewrite default_properties_keys by exact Hd. exact Hd. }
    split; [exact Hnd|]. exists extra.
    rewrite E, default_properties_keys by exact Hd. reflexivity. }
  repeat match goal with |- _ /\ _ => split end; try (symmetry; assumption);
    try reflexivity.
  exists a7. split; [exact Hrun7|]. intros p Hp Hn.
  unfold BaseComponent.get_property, dict_get_default.
  cbn [BaseComponent._properties BaseComponent.set_properties].
  rewrite dict_get_update_notin by exact Hn.
  rewrite default_properties_get by assumption. reflexivity.
Qed.

Lemma from_dict_fills_defaults_witness :
  let data := [("type", PStr "label"); ("x", PInt 5);
               ("properties", PDict [("text", PStr "Hello")])] in
  let c := BaseComponent.mk Widgets.LabelComponent (Env.uuid_text 7) 5 0 100 50 None []
             [("text", PStr "Hello"); ("font_size", PInt 14);
              ("text_color", PStr "#cccccc"); ("alignment", PStr "left");
              ("bold", PBool false)] [] in
  shaped Widgets.LabelComponent c /\
  BaseComponent._event_handlers c = [] /\
  Env.mk 8 0 = Env.mk (S (Env.uuid_drawn (Env.mk 7 0))) (Env.clock_reads (Env.mk 7 0)) /\
  PInt (BaseComponent.x c) = dict_get_default data "x" (PInt 0) /\
  PInt (BaseComponent.y c) = dict_get_default data "y" (PInt 0) /\
  PInt (BaseComponent.width c) = dict_get_default data "width" (PInt 100) /\
  PInt (BaseComponent.height c) = dict_get_default data "height" (PInt 50) /\
  PStr (BaseComponent.id c)
    = dict_get_default data "id" (PStr (Env.uuid_text (Env.uuid_drawn (Env.mk 7 0)))) /\
  exists fragment,
    dict_get_default data "properties" (PDict []) = PDict fragment /\
    forall p, In p (ComponentClass.get_properties Widgets.LabelComponent) ->
      ~ In (ComponentProperty.name p) (dict_keys fragment) ->
      BaseComponent.get_property c (ComponentProperty.name p)
      = ComponentProperty.default_value p.
Proof.
  apply (from_dict_fills_defaults Widgets.LabelComponent
           [("type", PStr "label"); ("x", PInt 5);
            ("properties", PDict [("text", PStr "Hello")])] _ (Env.mk 7 0) (Env.mk 8 0)).
  - apply NoDup_strings. vm_compute. reflexivity.
  - vm_compute. reflexivity.
Defined.

(** X17. [ChangePropertyCommand] on a property the component does not
    have yet: [execute] adds the key, and [undo] does not take it away
    but writes the old value the command holds under it.  With [None] as
    that old value, which is what [get_property] reports for an absent
    property, every [get_property] reads after the undo what it read
    before the change, yet the component's document has one more entry
    than before. *)
Theorem undo_of_a_new_property_keeps_its_key (l : nat) (c : BaseComponent.t)
    (name : string) (old_value new_value : pyval) (w : World.t) :
  World.heap w !! l = Some c ->
  ~ In name (dict_keys (BaseComponent._properties c)) ->
  let command := Command.ChangePropertyCommand l name old_value new_value in
  exists w1 w2 c2,
    Command.execute command w = (Ok tt, w1) /\
    Command.undo command w1 = (Ok tt, w2) /\
    World.heap w2 !! l = Some c2 /\
    BaseComponent._properties c2 = BaseComponent._properties c ++ [(name, old_value)] /\
    BaseComponent.to_dict c2 <> BaseComponent.to_dict c /\
    (old_value = PNone ->
     forall n, BaseComponent.get_property c2 n = BaseComponent.get_property c n).
Proof.
  intros Hl Hn command.
  exists (changed l (BaseComponent.set_property name new_value) w).
  exists (changed l (fun c0 => BaseComponent.set_property name old_value
                                 (BaseComponent.set_property name new_value c0)) w).
  exists (BaseComponent.set_property name old_value
            (BaseComponent.set_property name new_value c)).
  assert (BaseComponent._properties
            (BaseComponent.set_property name old_value
               (BaseComponent.set_property name new_value c))
          = BaseComponent._properties c ++ [(name, old_value)]) as Hp.
  { cbn [BaseComponent.set_property BaseComponent._properties BaseComponent.set_properties].
    rewrite (dict_keys_set_notin _ name new_value Hn).
    apply dict_set_middle. exact Hn. }
  cbn [command Command.execute Command.undo Command.ChangePropertyCommand Command.make].
  split; [apply (update_present _ _ _ c Hl)|]. split.
  { rewrite (update_present _ _ _ (BaseComponent.set_property name new_value c)).
    - rewrite changed_twice. reflexivity.
    - rewrite changed_lookup. case_decide; [|congruence]. rewrite Hl. reflexivity. }
  split.
  { rewrite changed_lookup. case_decide; [|congruence]. rewrite Hl. reflexivity. }
  split; [exact Hp|]. split.
  - unfold BaseComponent.to_dict. rewrite Hp. intros E.
    assert (length (BaseComponent._properties c ++ [(name, old_value)])
            = length (BaseComponent._properties c)) as Hlen by congruence.
    rewrite length_app in Hlen. simpl in Hlen. lia.
  - intros -> n. rewrite !get_property_set.
    destruct (String.eqb_spec name n) as [<-|_]; [|reflexivity].
    unfold BaseComponent.get_property, dict_get_default.
    rewrite dict_get_notin by exact Hn. reflexivity.
Qed.

Lemma undo_of_a_new_property_keeps_its_key_witness :
  let command := Command.ChangePropertyCommand 0 "tooltip" PNone (PStr "Press me") in
  exists w1 w2 c2,
    Command.execute command editing_world = (Ok tt, w1) /\
    Command.undo command w1 = (Ok tt, w2) /\
    World.heap w2 !! 0%nat = Some c2 /\
    BaseComponent._properties c2
      = BaseComponent._properties the_button ++ [("tooltip", PNone)] /\
    BaseComponent.to_dict c2 <> BaseComponent.to_dict the_button /\
    (PNone = PNone ->
     forall n, BaseComponent.get_property c2 n = BaseComponent.get_property the_button n).
Proof.
  apply (undo_of_a_new_property_keeps_its_key 0 the_button "tooltip" PNone
           (PStr "Press me") editing_world).
  - exact editing_world_button.
  - vm_compute. intros H. repeat (destruct H as [H|H]; [discriminate|]). exact H.
Defined.

End Fragments.

(** ** The registry *)

Section Registered.
Local Open Scope Z_scope.

(** A registry that [register_component] has filled. *)
Inductive filled : gmap string ComponentClass.t -> Prop :=
  | filled_empty : filled ∅
  | filled_register (k : ComponentClass.t) (registry : gmap string ComponentClass.t) :
      filled registry -> filled (Registry.register_component k registry).

Lemma filled_lookup (registry : gmap string ComponentClass.t) (name : string)
    (k : ComponentClass.t) :
  filled registry -> registry !! name = Some k -> ComponentClass.component_type k = name.
Proof.
  induction 1 as [|k0 registry _ IH]; intros H.
  - rewrite lookup_empty in H. discriminate.
  - unfold Registry.register_component in H. rewrite lookup_insert in H.
    case_decide as E; [|exact (IH H)]. injection H as <-. exact E.
Qed.

Lemma registry_filled : filled Registry.COMPONENT_REGISTRY.
Proof. unfold Registry.COMPONENT_REGISTRY. repeat constructor. Qed.

(** X18. In a registry filled by [register_component], a class is found
    under its own [component_type], the last one registered under a name
    winning.  So what [create_component] makes for a name has that name
    as the [type] of its document, [get_component_class] of that [type]
    is the component's class, and [from_dict] of that class on the
    document rebuilds the component; and [create_component] returns
    [None] exactly when [get_component_class] does. *)
Theorem type_tag_leads_back_to_the_class (registry : gmap string ComponentClass.t)
    (component_type : string) (x y : Z) (width height : option Z) (e : Env.t) :
  filled registry ->
  (forall k, Registry.get_component_class
               (Registry.register_component k registry) (ComponentClass.component_type k)
             = Some k) /\
  match Registry.create_component registry component_type x y width height e with
  | (Ok (Some c), e') =>
      dict_get (BaseComponent.to_dict c) "type" = Some (PStr component_type) /\
      Registry.get_component_class registry component_type = Some (BaseComponent.cls c) /\
      (distinct_properties (BaseComponent.cls c) ->
       forall e0, fst (BaseComponent.from_dict (BaseComponent.cls c)
                         (BaseComponent.to_dict c) e0) = Ok c)
  | (Ok None, e') =>
      Registry.get_component_class registry component_type = None /\ e' = e
  | (Raise _, _) => False
  end.
Proof.
  intros Hf. split.
  { intros k. unfold Registry.get_component_class, Registry.register_component.
    apply lookup_insert_eq. }
  destruct (registry !! component_type) as [k|] eqn:Hk.
  - rewrite (create_component_registered registry component_type k x y width height e Hk).
    cbn [BaseComponent.to_dict BaseComponent.cls dict_get String.eqb Ascii.eqb Bool.eqb].
    rewrite (filled_lookup registry component_type k Hf Hk).
    split; [reflexivity|]. split; [exact Hk|]. intros Hd e0.
    match goal with
    | |- fst (BaseComponent.from_dict k ?d e0) = Ok ?c =>
        change d with (BaseComponent.to_dict c);
        rewrite (component_round_trip k c e0 Hd)
    end.
    + reflexivity.
    + split; [reflexivity|]. cbn [BaseComponent._properties].
      rewrite default_properties_keys by exact Hd. split; [exact Hd|].
      exists []. rewrite app_nil_r. reflexivity.
  - unfold Registry.create_component. rewrite Hk. split; [exact Hk|reflexivity].
Qed.

Lemma type_tag_leads_back_to_the_class_witness :
  (forall k, Registry.get_component_class
               (Registry.register_component k Registry.COMPONENT_REGISTRY)
               (ComponentClass.component_type k)
             = Some k) /\
  match Registry.create_component Registry.COMPONENT_REGISTRY "checkbox" 3 4 None (Some 20)
          (Env.mk 0 0) with
  | (Ok (Some c), e') =>
      dict_get (BaseComponent.to_dict c) "type" = Some (PStr "checkbox") /\
      Registry.get_component_class Registry.COMPONENT_REGISTRY "checkbox"
      = Some (BaseComponent.cls c) /\
      (distinct_properties (BaseComponent.cls c) ->
       forall e0, fst (BaseComponent.from_dict (BaseComponent.cls c)
                         (BaseComponent.to_dict c) e0) = Ok c)
  | (Ok None, e') =>
      Registry.get_component_class Registry.COMPONENT_REGISTRY "checkbox" = None /\
      e' = Env.mk 0 0
  | (Raise _, _) => False
  end.
Proof.
  apply (type_tag_leads_back_to_the_class Registry.COMPONENT_REGISTRY "checkbox" 3 4
           None (Some 20) (Env.mk 0 0)).
  exact registry_filled.
Defined.

End Registered.

(** ** Pages of a project *)

Section PageList.

Lemma find_page_app (page_id : string) (l l' : list Page.t) :
  Project.find_page page_id (l ++ l')
  = match Project.find_page page_id l with
    | Some page => Some page
    | None => Project.find_page page_id l'
    end.
Proof.
  induction l as [|p l IH]; simpl; [reflexivity|].
  destruct (String.eqb (Page.id p) page_id); [reflexivity|exact IH].
Qed.

Lemma find_page_absent (page_id : string) (l : list Page.t) :
  ~ In page_id (page_ids l) -> Project.find_page page_id l = None.
Proof.
  induction l as [|p l IH]; simpl; [reflexivity|]. intros Hn.
  destruct (String.eqb_spec (Page.id p) page_id); [tauto|]. apply IH. tauto.
Qed.


(** X19. [add_page] returns a page with the name given, the next uuid
    as its id and the default size, appended after the pages there were,
    and stamps the project with the time of the call.  [get_page] still
    finds under every other id what it found before, and finds the new
    page under its id when no page had that id. *)
Theorem add_page_then_get_page (name : string) (p : Project.t) (e : Env.t) :
  let page := Page.new (Env.uuid_text (Env.uuid_drawn e)) name in
  ~ In (Page.id page) (page_ids (Project.pages p)) ->
  exists p',
    Project.add_page name p e
    = (Ok (page, p'), Env.mk (S (Env.uuid_drawn e)) (S (Env.clock_reads e))) /\
    Project.pages p' = Project.pages p ++ [page] /\
    Project.modified_at p' = Env.clock_text (Env.clock_reads e) /\
    Project.get_page (Page.id page) p' = Some page /\
    (forall other, other <> Page.id page ->
       Project.get_page other p' = Project.get_page other p).
Proof.
  intros page Hfresh.
  exists (Project.set_modified_at (Env.clock_text (Env.clock_reads e))
            (Project.set_pages (Project.pages p ++ [page]) p)).
  split; [reflexivity|]. split; [reflexivity|]. split; [reflexivity|].
  unfold Project.get_page. cbn [Project.pages Project.set_pages Project.set_modified_at].
  subst page. cbn [Page.id Page.new] in *.
  split.
  - rewrite find_page_app, (find_page_absent _ _ Hfresh).
    cbn [Project.find_page Page.id]. rewrite String.eqb_refl. reflexivity.
  - intros other Hne. rewrite find_page_app. cbn [Project.find_page Page.id].
    match goal with
    | |- context [String.eqb ?a other] => destruct (String.eqb_spec a other) as [E|_]
    end.
    + exfalso. apply Hne. symmetry. exact E.
    + destruct (Project.find_page other (Project.pages p)); reflexivity.
Qed.

Lemma add_page_then_get_page_witness :
  let page := Page.new (Env.uuid_text (Env.uuid_drawn (Env.mk 1 2))) "Page 2" in
  exists p',
    Project.add_page "Page 2" one_page_project (Env.mk 1 2)
    = (Ok (page, p'),
       Env.mk (S (Env.uuid_drawn (Env.mk 1 2))) (S (Env.clock_reads (Env.mk 1 2)))) /\
    Project.pages p' = Project.pages one_page_project ++ [page] /\
    Project.modified_at p' = Env.clock_text (Env.clock_reads (Env.mk 1 2)) /\
    Project.get_page (Page.id page) p' = Some page /\
    (forall other, other <> Page.id page ->
       Project.get_page other p' = Project.get_page other one_page_project).
Proof.
  apply (add_page_then_get_page "Page 2" one_page_project (Env.mk 1 2)).
  vm_compute. intros [H|[]]. discriminate.
Defined.




End PageList.

(** ** Rectangles *)

Section Rectangles.
Local Open Scope Z_scope.
Import Helpers Rects.

Ltac by_cases :=
  repeat match goal with
         | |- context [?a <? ?b] => destruct (Z.ltb_spec a b)
         | |- context [?a >? ?b] => destruct (Z.gtb_spec a b)
         | |- context [?a <=? ?b] => destruct (Z.leb_spec a b)
         | H : context [?a <? ?b] |- _ => destruct (Z.ltb_spec a b)
         | H : context [?a >? ?b] |- _ => destruct (Z.gtb_spec a b)
         end;
  simpl in *; try reflexivity; try discriminate; try lia.

(** X21. [rects_intersect] does not depend on the order of the two
    rectangles.  For rectangles of non-negative width and height: two
    that intersect have a point in common that [rect_contains] finds in
    both; a rectangle intersects itself exactly when its width and height
    are positive; and a rectangle does not intersect one that starts
    where it ends, although [rect_contains], which counts the far edges
    in, finds the far corner in the rectangle. *)
Theorem rects_intersect_symmetric_and_open (x1 y1 w1 h1 x2 y2 w2 h2 : Z) :
  0 <= w1 -> 0 <= h1 -> 0 <= w2 -> 0 <= h2 ->
  rects_intersect x1 y1 w1 h1 x2 y2 w2 h2 = rects_intersect x2 y2 w2 h2 x1 y1 w1 h1 /\
  (rects_intersect x1 y1 w1 h1 x2 y2 w2 h2 = true ->
   rect_contains x1 y1 w1 h1 (Z.max x1 x2) (Z.max y1 y2) = true /\
   rect_contains x2 y2 w2 h2 (Z.max x1 x2) (Z.max y1 y2) = true) /\
  (rects_intersect x1 y1 w1 h1 x1 y1 w1 h1 = true <-> 0 < w1 /\ 0 < h1) /\
  rects_intersect x1 y1 w1 h1 (x1 + w1) y2 w2 h2 = false /\
  rects_intersect x1 y1 w1 h1 x2 (y1 + h1) w2 h2 = false /\
  rect_contains x1 y1 w1 h1 (x1 + w1) (y1 + h1) = true.
Proof.
  intros Hw1 Hh1 Hw2 Hh2. unfold rects_intersect, rect_contains.
  split; [by_cases|]. split; [intros H; split; by_cases|].
  split; [split; [intros H; by_cases|intros [? ?]; by_cases]|].
  split; [by_cases|]. split; by_cases.
Qed.

Lemma rects_intersect_symmetric_and_open_witness :
  rects_intersect 0 0 10 10 5 5 10 10 = rects_intersect 5 5 10 10 0 0 10 10 /\
  (rects_intersect 0 0 10 10 5 5 10 10 = true ->
   rect_contains 0 0 10 10 (Z.max 0 5) (Z.max 0 5) = true /\
   rect_contains 5 5 10 10 (Z.max 0 5) (Z.max 0 5) = true) /\
  (rects_intersect 0 0 10 10 0 0 10 10 = true <-> 0 < 10 /\ 0 < 10) /\
  rects_intersect 0 0 10 10 (0 + 10) 5 10 10 = false /\
  rects_intersect 0 0 10 10 5 (0 + 10) 10 10 = false /\
  rect_contains 0 0 10 10 (0 + 10) (0 + 10) = true.
Proof. apply (rects_intersect_symmetric_and_open 0 0 10 10 5 5 10 10); lia. Defined.

End Rectangles.

(** ** Colours *)

Section Colours.
Local Open Scope Z_scope.
Import Colors.

(** The two characters [format_02x] writes for a channel value are read
    back by [int16] as that value. *)
Definition channel_ok (n : nat) : bool :=
  match list_ascii_of_string (format_02x (Z.of_nat n)) with
  | [c1; c2] =>
      match int16 c1 c2 with
      | Ok m => (m =? Z.of_nat n) && (code c1 <? 128) && (code c2 <? 128)
                && negb (code c1 =? 35)
      | Raise _ => false
      end
  | _ => false
  end.

Lemma channels_ok : forallb channel_ok (seq 0 256) = true.
Proof. vm_compute. reflexivity. Qed.

Lemma format_02x_channel (n : Z) :
  0 <= n <= 255 ->
  exists c1 c2,
    format_02x n = String c1 (String c2 EmptyString) /\
    int16 c1 c2 = Ok n /\
    (code c1 <? 128) = true /\ (code c2 <? 128) = true /\ (code c1 =? 35) = false.
Proof.
  intros Hn. pose proof channels_ok as H. rewrite forallb_forall in H.
  specialize (H (Z.to_nat n)). rewrite in_seq in H.
  specialize (H ltac:(lia)). unfold channel_ok in H. rewrite Z2Nat.id in H by lia.
  pose proof (string_of_list_ascii_of_string (format_02x n)) as Hs.
  destruct (list_ascii_of_string (format_02x n)) as [|c1 [|c2 [|]]]; try discriminate.
  exists c1, c2. split; [symmetry; exact Hs|].
  destruct (int16 c1 c2) as [m|]; [|discriminate].
  rewrite !andb_true_iff, negb_true_iff in H. destruct H as [[[Hm H1] H2] H3].
  apply Z.eqb_eq in Hm. subst m. auto.
Qed.

Lemma append_String (c : ascii) (s t : string) :
  (String c s ++ t)%string = String c (s ++ t)%string.
Proof. reflexivity. Qed.

Lemma append_Empty (t : string) : (EmptyString ++ t)%string = t.
Proof. reflexivity. Qed.

Lemma lstrip_hash_hash (s : string) : lstrip_hash (String "#" s) = lstrip_hash s.
Proof. reflexivity. Qed.

Lemma lstrip_hash_other (c : ascii) (s : string) :
  (code c =? 35) = false -> lstrip_hash (String c s) = String c s.
Proof. intros H. cbn [lstrip_hash]. rewrite H. reflexivity. Qed.

Lemma is_ascii_String (c : ascii) (s : string) :
  is_ascii (String c s) = (code c <? 128) && is_ascii s.
Proof. reflexivity. Qed.

(** X22. For channel values from 0 to 255, [color_to_rgba] reads the
    text [rgba_to_color] writes back into the same four values, whether
    the alpha channel is written (any value but 255) or left out (255). *)
Theorem rgba_round_trip (r g b a : Z) :
  0 <= r <= 255 -> 0 <= g <= 255 -> 0 <= b <= 255 -> 0 <= a <= 255 ->
  color_to_rgba (rgba_to_color r g b a) = Ok (r, g, b, a).
Proof.
  intros Hr Hg Hb Ha.
  destruct (format_02x_channel r Hr) as (r1 & r2 & Er & Ir & Ar1 & Ar2 & Nr).
  destruct (format_02x_channel g Hg) as (g1 & g2 & Eg & Ig & Ag1 & Ag2 & _).
  destruct (format_02x_channel b Hb) as (b1 & b2 & Eb & Ib & Ab1 & Ab2 & _).
  destruct (format_02x_channel a Ha) as (a1 & a2 & Ea & Ia & Aa1 & Aa2 & _).
  unfold rgba_to_color. rewrite Er, Eg, Eb, Ea.
  destruct (Z.eqb_spec a 255) as [->|_];
    rewrite ?append_String, ?append_Empty; unfold color_to_rgba;
    rewrite lstrip_hash_hash, (lstrip_hash_other _ _ Nr), !is_ascii_String;
    rewrite Ar1, Ar2, Ag1, Ag2, Ab1, Ab2, ?Aa1, ?Aa2;
    cbn [list_ascii_of_string]; rewrite ?Ir, ?Ig, ?Ib, ?Ia; reflexivity.
Qed.

Lemma rgba_round_trip_witness :
  color_to_rgba (rgba_to_color 14 99 156 128) = Ok (14, 99, 156, 128).
Proof. apply (rgba_round_trip 14 99 156 128); lia. Defined.

Lemma length_list_ascii (s : string) :
  length (list_ascii_of_string s) = String.length s.
Proof. induction s as [|c s IH]; simpl; [|rewrite IH]; reflexivity. Qed.

(** X23. On a text of ASCII characters that, once its leading [#] are
    dropped, has neither 6 nor 8 characters, [color_to_rgba] raises
    nothing and returns opaque black: the empty text, a colour name and
    a three-digit colour are all read as [(0, 0, 0, 255)]. *)
Theorem color_of_another_length_is_black (hex_color : string) :
  is_ascii hex_color = true ->
  String.length (lstrip_hash hex_color) <> 6%nat ->
  String.length (lstrip_hash hex_color) <> 8%nat ->
  color_to_rgba hex_color = Ok (0, 0, 0, 255).
Proof.
  intros Ha H6 H8. unfold color_to_rgba. rewrite Ha. cbn [negb].
  rewrite <- length_list_ascii in H6, H8.
  destruct (list_ascii_of_string (lstrip_hash hex_color))
    as [|? [|? [|? [|? [|? [|? [|? [|? [|? ?]]]]]]]]]; simpl in *;
    try reflexivity; congruence.
Qed.

Lemma color_of_another_length_is_black_witness :
  color_to_rgba "#fff" = Ok (0, 0, 0, 255).
Proof.
  apply (color_of_another_length_is_black "#fff"); [reflexivity| |];
    vm_compute; discriminate.
Defined.

End Colours.

(** ** Listeners *)

Section Subscriptions.
Import Listeners.

Lemma list_remove_absent (x : nat) (l : list nat) :
  ~ In x l -> Listeners.list_remove x l = Raise ValueError.
Proof.
  induction l as [|y l IH]; simpl; [reflexivity|]. intros Hn.
  destruct (Nat.eqb_spec y x) as [->|_]; [tauto|]. rewrite IH by tauto. reflexivity.
Qed.

Lemma list_remove_last (x : nat) (l : list nat) :
  ~ In x l -> Listeners.list_remove x (l ++ [x]) = Ok l.
Proof.
  induction l as [|y l IH]; simpl; intros Hn.
  - rewrite Nat.eqb_refl. reflexivity.
  - destruct (Nat.eqb_spec y x) as [->|_]; [tauto|]. rewrite IH by tauto. reflexivity.
Qed.

Lemma notify_subscribe (event other : string) (callback : nat) (listeners : t) :
  _notify other (subscribe event callback listeners)
  = if decide (event = other) then _notify event listeners ++ [callback]
    else _notify other listeners.
Proof.
  unfold _notify, subscribe. rewrite lookup_alter. case_decide as E.
  - subst other. destruct (listeners !! event) as [l|] eqn:El; [rewrite El|];
      [reflexivity|]. rewrite lookup_insert_eq. reflexivity.
  - destruct (listeners !! event); [reflexivity|].
    rewrite lookup_insert_ne by exact E. reflexivity.
Qed.

(** X24. For a callback that is not subscribed to an event: after
    [subscribe], [_notify] calls it last, after those it called before,
    and the calls for every other event are as before; [unsubscribe]
    then takes it away again, so that every event has the calls it had
    at the start; and [unsubscribe] of a callback that is not subscribed
    raises [ValueError] when the event has ever been subscribed to, and
    does nothing when it has not. *)
Theorem subscribe_then_unsubscribe (event : string) (callback : nat) (listeners : t) :
  ~ In callback (_notify event listeners) ->
  _notify event (subscribe event callback listeners)
    = _notify event listeners ++ [callback] /\
  (forall other, other <> event ->
     _notify other (subscribe event callback listeners) = _notify other listeners) /\
  (exists listeners',
     unsubscribe event callback (subscribe event callback listeners) = Ok listeners' /\
     (forall any, _notify any listeners' = _notify any listeners) /\
     unsubscribe event callback listeners' = Raise ValueError) /\
  unsubscribe event callback listeners
    = match listeners !! event with
      | Some _ => Raise ValueError
      | None => Ok listeners
      end.
Proof.
  intros Hn. split; [|split; [|split]].
  - rewrite notify_subscribe, decide_True by reflexivity. reflexivity.
  - intros other Hne. rewrite notify_subscribe, decide_False by congruence. reflexivity.
  - assert (subscribe event callback listeners !! event
            = Some (_notify event listeners ++ [callback])) as Hs.
    { pose proof (notify_subscribe event event callback listeners) as H.
      rewrite decide_True in H by reflexivity. unfold _notify at 1 in H.
      unfold subscribe in *. rewrite lookup_alter_eq in *.
      destruct (listeners !! event) as [l|] eqn:El; [rewrite El in *|].
      - simpl in *. congruence.
      - rewrite lookup_insert_eq in *. simpl in *. congruence. }
    exists (<[event := _notify event listeners]> (subscribe event callback listeners)).
    unfold unsubscribe at 1. rewrite Hs, (list_remove_last _ _ Hn). cbn [obind].
    split; [reflexivity|]. split.
    + intros any. unfold _notify at 1. rewrite lookup_insert. case_decide as E.
      * subst any. reflexivity.
      * fold (_notify any (subscribe event callback listeners)).
        rewrite notify_subscribe, decide_False by exact E. reflexivity.
    + unfold unsubscribe. rewrite lookup_insert_eq, (list_remove_absent _ _ Hn).
      reflexivity.
  - unfold unsubscribe, _notify in *. destruct (listeners !! event) as [l|]; [|reflexivity].
    simpl in Hn. rewrite (list_remove_absent _ _ Hn). reflexivity.
Qed.

Lemma subscribe_then_unsubscribe_witness :
  let listeners : t := {[ "selection_changed" := [1%nat] ]} in
  _notify "selection_changed" (subscribe "selection_changed" 2 listeners)
    = _notify "selection_changed" listeners ++ [2%nat] /\
  (forall other, other <> "selection_changed" ->
     _notify other (subscribe "selection_changed" 2 listeners) = _notify other listeners) /\
  (exists listeners',
     unsubscribe "selection_changed" 2 (subscribe "selection_changed" 2 listeners)
     = Ok listeners' /\
     (forall any, _notify any listeners' = _notify any listeners) /\
     unsubscribe "selection_changed" 2 listeners' = Raise ValueError) /\
  unsubscribe "selection_changed" 2 listeners
    = match listeners !! "selection_changed" with
      | Some _ => Raise ValueError
      | None => Ok listeners
      end.
Proof.
  apply (subscribe_then_unsubscribe "selection_changed" 2
           {[ "selection_changed" := [1%nat] ]}).
  vm_compute. intros [H|[]]. discriminate.
Defined.

End Subscriptions.

(** ** The palette *)

Section Palette.
Local Open Scope Z_scope.
Import CategorySection.

(** The cell [add_component] gives the item added after [i] others. *)
Definition cell (i : nat) : Z * Z := ((Z.of_nat i + 1) / 3, Z.of_nat i mod 3).

Definition filled_with (classes : list ComponentClass.t) : t :=
  fold_left (fun s k => add_component k s) classes new.

Lemma filled_with_layout (classes : list ComponentClass.t) :
  filled_with classes = mk classes (imap (fun i k => (k, cell i)) classes).
Proof.
  unfold filled_with. induction classes as [|k classes IH] using rev_ind; [reflexivity|].
  rewrite fold_left_app. cbn [fold_left]. rewrite IH. unfold add_component.
  cbn [_components content_layout]. f_equal. rewrite imap_app. cbn [imap]. f_equal.
  unfold cell, compose. rewrite Nat.add_0_r, length_app. cbn [length]. do 3 f_equal.
  - lia.
  - f_equal. lia.
Qed.

Lemma cell_inj (i j : nat) : cell i = cell j -> i = j.
Proof.
  unfold cell. intros [= Hq Hr].
  pose proof (Z.div_mod (Z.of_nat i + 1) 3 ltac:(lia)).
  pose proof (Z.div_mod (Z.of_nat j + 1) 3 ltac:(lia)).
  pose proof (Z.mod_pos_bound (Z.of_nat i + 1) 3 ltac:(lia)).
  pose proof (Z.mod_pos_bound (Z.of_nat j + 1) 3 ltac:(lia)).
  pose proof (Z.div_mod (Z.of_nat i) 3 ltac:(lia)).
  pose proof (Z.div_mod (Z.of_nat j) 3 ltac:(lia)).
  pose proof (Z.mod_pos_bound (Z.of_nat i) 3 ltac:(lia)).
  pose proof (Z.mod_pos_bound (Z.of_nat j) 3 ltac:(lia)).
  lia.
Qed.

(** X25. In a category filled by [add_component], the items are the
    classes added, in their order, and the item added after [i] others
    sits in row [(i + 1) // 3] and column [i % 3] of the grid.  So no two
    items share a cell; and the third column of the first row stays
    empty, the third item going to the third column of the second row. *)
Theorem palette_cells_are_distinct (classes : list ComponentClass.t) :
  let s := filled_with classes in
  _components s = classes /\
  map fst (content_layout s) = classes /\
  (forall i k c, content_layout s !! i = Some (k, c) -> c = cell i) /\
  NoDup (map snd (content_layout s)) /\
  ~ In (0, 2) (map snd (content_layout s)).
Proof.
  cbv zeta. rewrite filled_with_layout. cbn [_components content_layout].
  assert (forall i k c,
            imap (fun i k => (k, cell i)) classes !! i = Some (k, c) ->
            classes !! i = Some k /\ c = cell i) as Hl.
  { intros i k c. rewrite list_lookup_imap.
    destruct (classes !! i); simpl; [|discriminate]. intros [= -> <-]. auto. }
  split; [reflexivity|]. split; [|split; [|split]].
  - apply list_eq. intros i. rewrite list_lookup_fmap, list_lookup_imap.
    destruct (classes !! i); reflexivity.
  - intros i k c H. apply (Hl i k c H).
  - apply NoDup_alt. intros i j c. rewrite !list_lookup_fmap.
    destruct (_ !! i) as [[ki ci]|] eqn:Ei; simpl; [|discriminate].
    destruct (_ !! j) as [[kj cj]|] eqn:Ej; simpl; [|discriminate].
    intros [= <-] [= E]. apply Hl in Ei, Ej. destruct Ei as [_ ->], Ej as [_ ->].
    apply cell_inj. symmetry. exact E.
  - intros Hin. apply list_elem_of_In, list_elem_of_lookup in Hin. destruct Hin as [i Hi].
    rewrite list_lookup_fmap in Hi.
    destruct (_ !! i) as [[ki ci]|] eqn:Ei; simpl in Hi; [|discriminate].
    injection Hi as Hc. apply Hl in Ei. destruct Ei as [_ ->].
    unfold cell in Hc. injection Hc as Hq Hr.
    pose proof (Z.div_mod (Z.of_nat i + 1) 3 ltac:(lia)).
    pose proof (Z.mod_pos_bound (Z.of_nat i + 1) 3 ltac:(lia)).
    pose proof (Z.div_mod (Z.of_nat i) 3 ltac:(lia)).
    pose proof (Z.mod_pos_bound (Z.of_nat i) 3 ltac:(lia)).
    lia.
Qed.

End Palette.

(** ** What the history would undo *)

Section Described.
Local Open Scope Z_scope.
Import CommandStack Descriptions.


End Described.

(** ** Saving and loading *)

Section Files.
Import ProjectFile.



End Files.

(** ** The current page *)

Section CurrentPage.

(** The current page is a page of the project: with a project open, the
    current page id is the id of one of its pages; with none, there is no
    current page. *)
Definition current_page_ok (w : World.t) : Prop :=
  match World._project w with
  | Some p =>
      exists id, World._current_page_id w = Some id /\ In id (page_ids (Project.pages p))
  | None => World._current_page_id w = None
  end.

(** What the user does about projects and pages, with the handler each
    reaches: New and Open of the File menu, the latter with the path
    chosen and the document in that file; Add Page; Delete on a page of
    the tree; a click on an item of the tree, which carries the id of a
    page of the project or nothing. *)
Inductive project_step (w w' : World.t) : Prop :=
  | New_project (r : outcome unit) :
      MainWindow._new_project w = (r, w') -> project_step w w'
  | Open_project (file_path : string) (contents : pyval) (r : outcome unit) :
      MainWindow._open_project file_path contents w = (r, w') -> project_step w w'
  | Add_page (r : outcome unit) :
      ExplorerPanel._add_page w = (r, w') -> project_step w w'
  | Delete_page (page_id : string) (r : outcome unit) :
      ExplorerPanel._delete_page page_id w = (r, w') -> project_step w w'
  | Click_page (page_id : string) (p : Project.t) (r : outcome unit) :
      World._project w = Some p -> In page_id (page_ids (Project.pages p)) ->
      ExplorerTree._on_item_clicked (Some page_id) w = (r, w') -> project_step w w'
  | Click_other (r : outcome unit) :
      ExplorerTree._on_item_clicked None w = (r, w') -> project_step w w'.

Lemma set_project_ok (p : Project.t) (w : World.t) :
  Project.pages p <> [] ->
  current_page_ok (snd (AppState.set_project (Some p) w)).
Proof.
  intros Hp. unfold current_page_ok, AppState.set_project, modify.
  cbn [snd World._project World._current_page_id World.set_project
       World.set_current_page_id].
  destruct (Project.pages p) as [|page rest]; [congruence|].
  exists (Page.id page). split; [reflexivity|]. left. reflexivity.
Qed.

Lemma from_dict_pages (data : pyval) (file_path : option string) (e e' : Env.t)
    (p : Project.t) :
  Project.from_dict data file_path e = (Ok p, e') -> Project.pages p <> [].
Proof.
  intros H. unfold Project.from_dict in H. run_inv H.
  unfold Project.__init__ in H. exact (post_init_pages _ _ _ _ H).
Qed.

(** X28. The current page stays a page of the project: if it is one,
    or there is neither project nor current page, then the same holds
    after New, after Open whatever the file holds, after Add Page, after
    Delete on any page, and after a click in the tree. *)
Theorem current_page_stays_in_the_project (w w' : World.t) :
  current_page_ok w -> project_step w w' -> current_page_ok w'.
Proof.
  intros Hok [r H|file_path contents r H|r H|page_id r H|page_id p r Hp Hin H|r H].
  - unfold MainWindow._new_project, bind, World.with_env, zoom in H.
    destruct (Project.create_new "Untitled Project" (World.env w)) as [[p|e] e1] eqn:E.
    + assert (Project.pages p <> []) as Hne.
      { unfold Project.create_new, bind, Env.now_isoformat in E. cbn beta iota in E.
        unfold Project.__init__ in E. exact (post_init_pages _ _ _ _ E). }
      pose proof (set_project_ok p (World.set_env e1 w) Hne) as H1.
      rewrite H in H1. exact H1.
    + injection H as _ <-. exact Hok.
  - unfold MainWindow._open_project in H.
    destruct (String.eqb file_path ""); [injection H as _ <-; exact Hok|].
    unfold World.with_env, zoom, ProjectFile.load in H.
    destruct (Project.from_dict contents (Some file_path) (World.env w))
      as [[p|e] e1] eqn:E.
    + pose proof (set_project_ok p (World.set_env e1 w) (from_dict_pages _ _ _ _ _ E))
        as H1.
      rewrite H in H1. exact H1.
    + destruct e; injection H as _ <-; exact Hok.
  - unfold ExplorerPanel._add_page, bind, get in H. unfold current_page_ok in Hok.
    destruct (World._project w) as [p|] eqn:Hp; [|injection H as _ <-;
      unfold current_page_ok; rewrite Hp; exact Hok].
    unfold World.with_env, zoom, Project.add_page, bind, Env.uuid4_str,
      Project.mark_modified, Env.now_isoformat, ret, modify,
      AppState.set_current_page_id in H.
    cbn [fst snd] in H. injection H as _ <-. unfold current_page_ok.
    cbn [World._project World._current_page_id World.set_project
         World.set_current_page_id World.set_selection World.set_env
         Project.pages Project.set_pages Project.set_modified_at].
    eexists. split; [reflexivity|]. unfold page_ids. rewrite map_app.
    apply in_or_app. right. left. reflexivity.
  - unfold ExplorerPanel._delete_page, bind, get in H. unfold current_page_ok in Hok.
    destruct (World._project w) as [p|] eqn:Hp; [|injection H as _ <-;
      unfold current_page_ok; rewrite Hp; exact Hok].
    destruct Hok as (cid & Hc & Hcin).
    destruct (Nat.ltb_spec 1 (length (Project.pages p))) as [Hlt|_];
      [|injection H as _ <-; unfold current_page_ok; rewrite Hp; eauto].
    unfold World.with_env, zoom in H.
    destruct (in_dec string_dec page_id (page_ids (Project.pages p))) as [Hin|Hn].
    + destruct (remove_page_present page_id p (World.env w) Hin)
        as (before & page & after & Hpg & Hid & Hb & Hr).
      rewrite Hr in H. cbn [fst snd] in H. unfold modify in H.
      cbn [World._current_page_id World.set_env] in H.
      destruct (decide (World._current_page_id w = Some page_id)) as [Hcur|Hcur].
      * unfold removed in H. cbn [Project.pages Project.set_pages Project.set_modified_at] in H.
        destruct (before ++ after) as [|first rest] eqn:E.
        { rewrite Hpg, length_app in Hlt. simpl in Hlt.
          apply app_eq_nil in E. destruct E as [-> ->]. simpl in Hlt. lia. }
        unfold AppState.set_current_page_id, modify in H. injection H as _ <-.
        unfold current_page_ok.
        cbn [World._project World._current_page_id World.set_project
             World.set_current_page_id World.set_selection World.set_env
             Project.pages Project.set_pages Project.set_modified_at].
        exists (Page.id first). split; [reflexivity|]. left. reflexivity.
      * unfold ret in H. injection H as _ <-. unfold current_page_ok, removed.
        cbn [World._project World._current_page_id World.set_project
             World.set_current_page_id World.set_selection World.set_env
             Project.pages Project.set_pages Project.set_modified_at].
        exists cid. split; [exact Hc|].
        rewrite Hpg in Hcin. unfold page_ids in *. rewrite map_app in *.
        rewrite in_app_iff in *. simpl in Hcin.
        destruct Hcin as [?|[E|?]]; auto. exfalso. apply Hcur. congruence.
    + rewrite (remove_page_absent _ _ _ Hn) in H. cbn [fst snd] in H. unfold modify in H.
      cbn [World._current_page_id World.set_env] in H.
      destruct (decide (World._current_page_id w = Some page_id)) as [Hcur|Hcur].
      * exfalso. apply Hn. congruence.
      * unfold ret in H. injection H as _ <-. unfold current_page_ok.
        cbn [World._project World._current_page_id World.set_project
             World.set_current_page_id World.set_selection World.set_env].
        eauto.
  - unfold ExplorerTree._on_item_clicked in H.
    destruct (String.eqb page_id ""); [injection H as _ <-; exact Hok|].
    unfold AppState.set_current_page_id, modify in H. injection H as _ <-.
    unfold current_page_ok.
    cbn [World._project World._current_page_id World.set_current_page_id
         World.set_selection]. rewrite Hp. eauto.
  - injection H as _ <-. exact Hok.
Qed.

Lemma current_page_stays_in_the_project_witness :
  current_page_ok (snd (MainWindow._new_project World.initial)).
Proof.
  apply (current_page_stays_in_the_project World.initial).
  - reflexivity.
  - apply (New_project _ _ (Ok tt)). vm_compute. reflexivity.
Defined.

End CurrentPage.

(** ** The rubber band *)

Section Band.

Lemma select_touched_exact (touched : list string) (w : World.t) :
  NoDup (selected w ++ touched) ->
  exists w',
    RubberBand.select_touched touched w = (Ok tt, w') /\
    selected w' = selected w ++ touched /\
    forall i,
      World._components w' !! i
      = if decide (i ∈ touched)
        then ComponentWrapper.set_selected true <$> World._components w !! i
        else World._components w !! i.
Proof.
  revert w. induction touched as [|j touched IH]; intros w Hnd.
  - exists w. split; [reflexivity|]. split; [rewrite app_nil_r; reflexivity|].
    intros i. rewrite decide_False by apply not_elem_of_nil. reflexivity.
  - cbn [RubberBand.select_touched]. unfold bind at 1, modify at 1.
    unfold bind at 1, AppState.select_component, modify at 1.
    set (w1 := World.set_selection _ _).
    assert (~ In j (selected w) /\ ~ In j touched) as [Hj Hjt].
    { apply NoDup_app in Hnd. destruct Hnd as (_ & Hdisj & Hnd).
      apply NoDup_cons in Hnd. destruct Hnd as [Hjn _].
      split; [|rewrite <- list_elem_of_In; exact Hjn].
      intros Hin. apply (Hdisj j); [apply list_elem_of_In; exact Hin|left]. }
    assert (selected w1 = selected w ++ [j]) as Hs1.
    { unfold w1, selected. cbn [World._selection World.set_selection World.set_components].
      unfold SelectionState.add_to_selection.
      rewrite (proj2 (is_selected_false j (World._selection w)) Hj). reflexivity. }
    destruct (IH w1) as (w' & Hr & Hs & Hc).
    { rewrite Hs1, <- app_assoc. exact Hnd. }
    exists w'. split; [exact Hr|]. split; [rewrite Hs, Hs1, <- app_assoc; reflexivity|].
    intros i. rewrite Hc. unfold w1.
    cbn [World._components World.set_selection World.set_components].
    rewrite lookup_alter.
    destruct (decide (i ∈ touched)) as [Hi|Hi]; destruct (decide (i ∈ j :: touched)) as [Hi'|Hi'].
    + case_decide as E; [|reflexivity]. subst i. exfalso. apply Hjt.
      apply list_elem_of_In. exact Hi.
    + exfalso. apply Hi'. right. exact Hi.
    + apply elem_of_cons in Hi'. destruct Hi' as [->|?]; [|contradiction].
      rewrite decide_True by reflexivity. reflexivity.
    + rewrite decide_False; [reflexivity|]. intros ->. apply Hi'. left.
Qed.

(** X29. A press on the empty canvas followed by the release of the
    rubber band over some components, each met once: both handlers
    return; the selection is then exactly the components the band
    touched, in the order the canvas holds them; the wrappers drawn
    selected are exactly theirs; and every component is still on the
    canvas, wrapped around the same object. *)
Theorem rubber_band_selects_the_touched (touched : list string) (w : World.t) :
  NoDup touched ->
  exists w',
    (do CanvasArea.clear_selection then RubberBand.select_touched touched) w
    = (Ok tt, w') /\
    selected w' = touched /\
    (forall i wr', World._components w' !! i = Some wr' ->
       (ComponentWrapper._is_selected wr' = true <-> In i touched) /\
       exists wr, World._components w !! i = Some wr /\
                  ComponentWrapper.component wr' = ComponentWrapper.component wr) /\
    (forall i, is_Some (World._components w' !! i) <-> is_Some (World._components w !! i)).
Proof.
  intros Hnd. unfold bind at 1.
  unfold CanvasArea.clear_selection at 1, bind at 1, modify at 1,
    AppState.clear_selection, modify.
  set (w1 := World.set_selection _ _).
  destruct (select_touched_exact touched w1) as (w' & Hr & Hs & Hc); [exact Hnd|].
  exists w'. split; [exact Hr|]. split; [exact Hs|].
  assert (forall i, World._components w1 !! i
                    = ComponentWrapper.set_selected false <$> World._components w !! i)
    as Hc1.
  { intros i. unfold w1. cbn [World._components World.set_selection World.set_components].
    apply lookup_fmap. }
  split.
  - intros i wr' Hi. rewrite Hc, Hc1 in Hi. rewrite <- list_elem_of_In.
    destruct (World._components w !! i) as [wr|];
      [|destruct (decide (i ∈ touched)); discriminate].
    destruct (decide (i ∈ touched)) as [Ht|Ht]; simpl in Hi; injection Hi as <-; simpl.
    + split; [split; [intros _; exact Ht|reflexivity]|eauto].
    + split; [split; [discriminate|contradiction]|eauto].
  - intros i. rewrite Hc, Hc1.
    destruct (World._components w !! i); destruct (decide (i ∈ touched)); simpl;
      split; intros [? ?]; try discriminate; eauto.
Qed.

Lemma rubber_band_selects_the_touched_witness :
  exists w',
    (do CanvasArea.clear_selection then RubberBand.select_touched [Env.uuid_text 0])
      editing_world
    = (Ok tt, w') /\
    selected w' = [Env.uuid_text 0] /\
    (forall i wr', World._components w' !! i = Some wr' ->
       (ComponentWrapper._is_selected wr' = true <-> In i [Env.uuid_text 0]) /\
       exists wr, World._components editing_world !! i = Some wr /\
                  ComponentWrapper.component wr' = ComponentWrapper.component wr) /\
    (forall i, is_Some (World._components w' !! i)
               <-> is_Some (World._components editing_world !! i)).
Proof.
  apply (rubber_band_selects_the_touched [Env.uuid_text 0] editing_world).
  apply NoDup_singleton.
Defined.

End Band.
